(** * 3D-City-Generator: the procedural core of [src/main.cpp]

    A shallow embedding of [generateCity] and [createBuildingBuffers],
    the two functions of [src/main.cpp] that build the city and its mesh,
    together with the properties the specification states about them.

    Modelling choices.
    - [float] is IEEE-754 binary32, given by the Standard Library's
      executable specification [SpecFloat] at precision 24 and maximal
      exponent 128, with round-to-nearest-even; every operation of the source
      is rounded once, as written (no fused multiply-add, no wider
      intermediate).  Where a claim bounds a float by a decimal, the float is
      taken at its exact value ([F32.to_Q]).
    - [int] and [size_t] values are integers of [Z]; the loop counters of the
      source never leave their range.  [unsigned int] arithmetic wraps
      modulo [2^32], and the wrap-around is written out ([u32]).
    - [std::vector] is [list], [push_back] appends at the end.
    - The Mersenne twister and the uniform distributions are a state [RNG]
      and a function [sample] that are left abstract: every theorem holds
      for every random source. *)

From Stdlib Require Import ZArith List Bool Lia QArith Qpower Lqa.
From Stdlib Require Import Floats.SpecFloat.
Import ListNotations.

Local Open Scope Z_scope.

(** ** binary32 arithmetic *)

Module F32.

Definition prec : Z := 24.
Definition emax : Z := 128.

Definition float : Type := spec_float.

Definition add : float -> float -> float := SFadd prec emax.
Definition sub : float -> float -> float := SFsub prec emax.
Definition mul : float -> float -> float := SFmul prec emax.
Definition div : float -> float -> float := SFdiv prec emax.
Definition leb : float -> float -> bool := SFleb.
Definition ltb : float -> float -> bool := SFltb.

(** An integer literal such as [250.0f]. *)
Definition of_Z (z : Z) : float := binary_normalize prec emax z 0 false.

Definition is_finite (x : float) : bool :=
  match x with
  | S754_zero _ | S754_finite _ _ _ => true
  | S754_infinity _ | S754_nan => false
  end.

(** [2^k] for an exponent of either sign. *)
Definition pow2 (k : Z) : Q := Qpower 2 k.

(** The exact value of a finite float ([0] for the others, which
    [is_finite] excludes). *)
Definition to_Q (x : float) : Q :=
  match x with
  | S754_finite s m e => (inject_Z (cond_Zopp s (Zpos m)) * pow2 e)%Q
  | _ => 0%Q
  end.

(** A binary32 value in its one representation: 24 digits, or fewer at the
    least exponent. *)
Definition valid (x : float) : bool := valid_binary prec emax x.

(** The literals of [src/main.cpp], as the binary32 value nearest to the
    decimal. *)
Definition f0 : float := S754_zero false.                  (* 0.0f *)
Definition f0_1 : float := S754_finite false 13421773 (-27). (* 0.1f *)
Definition f0_2 : float := S754_finite false 13421773 (-26). (* 0.2f *)
Definition f0_3 : float := S754_finite false 10066330 (-25). (* 0.3f *)
Definition f0_5 : float := S754_finite false 8388608 (-24).  (* 0.5f *)
Definition f0_8 : float := S754_finite false 13421773 (-24). (* 0.8f *)
Definition fm0_5 : float := S754_finite true 8388608 (-24).  (* -0.5f *)
Definition f1 : float := of_Z 1.
Definition f2 : float := of_Z 2.
Definition f5 : float := of_Z 5.
Definition f10 : float := of_Z 10.
Definition f15 : float := of_Z 15.
Definition f60 : float := of_Z 60.
Definition f100 : float := of_Z 100.
Definition fm100 : float := of_Z (-100).
Definition f250 : float := of_Z 250.

End F32.

Definition float : Type := F32.float.

(** ** Data model *)

(** [glm::vec3]; a colour reads the same three components as [r], [g], [b]. *)
Record vec3 : Type := mk_vec3 { vx : float; vy : float; vz : float }.

Definition vr (c : vec3) : float := vx c.
Definition vg (c : vec3) : float := vy c.
Definition vb (c : vec3) : float := vz c.

(** [struct Building]. *)
Record Building : Type := mk_Building {
  position : vec3;
  width : float;
  depth : float;
  height : float;
  color : vec3
}.

(** [std::vector<T>::push_back]. *)
Definition push_back {A : Type} (v : list A) (x : A) : list A := v ++ [x].

(** Conversion to, and arithmetic on, [unsigned int]. *)
Definition u32 (z : Z) : Z := z mod 2 ^ 32.

(** ** The city generator *)

(** [std::uniform_real_distribution<float> d(a, b)]. *)
Record uniform_real_distribution : Type := mk_dist {
  dist_a : float;
  dist_b : float
}.

Definition posDistX : uniform_real_distribution := mk_dist F32.fm100 F32.f100.
Definition posDistZ : uniform_real_distribution := mk_dist F32.fm100 F32.f100.
Definition sizeDistWidth : uniform_real_distribution := mk_dist F32.f5 F32.f15.
Definition sizeDistDepth : uniform_real_distribution := mk_dist F32.f5 F32.f15.
Definition heightDist : uniform_real_distribution := mk_dist F32.f10 F32.f60.
Definition colorDist : uniform_real_distribution := mk_dist F32.f0_2 F32.f0_8.

(** The ground plane that [generateCity] adds after its loop. *)
Definition ground : Building :=
  {| position := mk_vec3 F32.f0 F32.fm0_5 F32.f0;
     width := F32.f250;
     depth := F32.f250;
     height := F32.f1;
     color := mk_vec3 F32.f0_1 F32.f0_1 F32.f0_1 |}.

Section Generator.

(** The state of [std::mt19937 rng], and [d(rng)] for a distribution [d]:
    the value drawn and the state after the draw. *)
Variable RNG : Type.
Variable sample : uniform_real_distribution -> RNG -> float * RNG.

(** Computations that draw from [rng]. *)
Definition Rand (A : Type) : Type := RNG -> A * RNG.

Definition ret {A : Type} (a : A) : Rand A := fun g => (a, g).

Definition bind {A B : Type} (m : Rand A) (k : A -> Rand B) : Rand B :=
  fun g => let (a, g') := m g in k a g'.

Local Notation "x <- m ;; k" := (bind m (fun x => k))
  (at level 61, m at next level, right associativity).

(** The colour of building [i] (lines 264-274).  The draws of one
    [glm::vec3(...)] call are taken left to right. *)
Definition building_color (i : Z) : Rand vec3 :=
  if Z.rem i 5 =? 0 then
    c1 <- sample colorDist ;;
    c2 <- sample colorDist ;;
    c3 <- sample colorDist ;;
    ret (mk_vec3 (F32.add (F32.mul c1 F32.f0_5) F32.f0_5)
                 (F32.add (F32.mul c2 F32.f0_5) F32.f0_5)
                 (F32.add (F32.mul c3 F32.f0_5) F32.f0_5))
  else
    c1 <- sample colorDist ;;
    c2 <- sample colorDist ;;
    c3 <- sample colorDist ;;
    ret (mk_vec3 (F32.mul c1 F32.f0_3)
                 (F32.mul c2 F32.f0_3)
                 (F32.add (F32.mul c3 F32.f0_5) F32.f0_3)).

(** The body of the loop up to [push_back] (lines 257-274); the two draws
    of [glm::vec3(posDistX(rng), 0.0f, posDistZ(rng))] are taken left to
    right. *)
Definition random_building (i : Z) : Rand Building :=
  px <- sample posDistX ;;
  pz <- sample posDistZ ;;
  w <- sample sizeDistWidth ;;
  d <- sample sizeDistDepth ;;
  h <- sample heightDist ;;
  c <- building_color i ;;
  ret {| position := mk_vec3 px F32.f0 pz;
         width := w; depth := d; height := h; color := c |}.

(** [for (int i = ...; i < numBuildings; i++) { ... }], entered with the
    counter at [i]; [fuel] bounds the number of iterations. *)
Fixpoint generate_loop (fuel : nat) (i numBuildings : Z)
    (buildings : list Building) : Rand (list Building) :=
  match fuel with
  | O => ret buildings
  | S fuel' =>
      if i <? numBuildings then
        b <- random_building i ;;
        generate_loop fuel' (i + 1) numBuildings (push_back buildings b)
      else ret buildings
  end.

(** [generateCity(buildings, numBuildings)]; [rng] is the generator as
    seeded from the clock.  The loop leaves through its guard: it runs
    [numBuildings] times when that is positive and not at all otherwise
    ([generate_loop_fuel]). *)
Definition generateCity (buildings : list Building) (numBuildings : Z)
    (rng : RNG) : list Building :=
  let (buildings', _) :=
    generate_loop (Z.to_nat numBuildings) 0 numBuildings buildings rng in
  push_back buildings' ground.

End Generator.

Arguments ret {RNG A} a _.
Arguments bind {RNG A B} m k _.

(** ** The mesh builder *)

(** The eight corners of the box of [b], six floats each (lines 306-338). *)
Definition box_vertices (b : Building) : list float :=
  let hw := F32.div (width b) F32.f2 in
  let hh := F32.div (height b) F32.f2 in
  let hd := F32.div (depth b) F32.f2 in
  let p := position b in
  let c := color b in
  [ (* bottom, front-left *)
    F32.sub (vx p) hw; F32.sub (vy p) hh; F32.add (vz p) hd;
    vr c; vg c; vb c;
    (* bottom, front-right *)
    F32.add (vx p) hw; F32.sub (vy p) hh; F32.add (vz p) hd;
    vr c; vg c; vb c;
    (* bottom, back-right *)
    F32.add (vx p) hw; F32.sub (vy p) hh; F32.sub (vz p) hd;
    vr c; vg c; vb c;
    (* bottom, back-left *)
    F32.sub (vx p) hw; F32.sub (vy p) hh; F32.sub (vz p) hd;
    vr c; vg c; vb c;
    (* top, front-left *)
    F32.sub (vx p) hw; F32.add (vy p) hh; F32.add (vz p) hd;
    F32.add (vr c) F32.f0_1; F32.add (vg c) F32.f0_1; F32.add (vb c) F32.f0_1;
    (* top, front-right *)
    F32.add (vx p) hw; F32.add (vy p) hh; F32.add (vz p) hd;
    F32.add (vr c) F32.f0_1; F32.add (vg c) F32.f0_1; F32.add (vb c) F32.f0_1;
    (* top, back-right *)
    F32.add (vx p) hw; F32.add (vy p) hh; F32.sub (vz p) hd;
    F32.add (vr c) F32.f0_1; F32.add (vg c) F32.f0_1; F32.add (vb c) F32.f0_1;
    (* top, back-left *)
    F32.sub (vx p) hw; F32.add (vy p) hh; F32.sub (vz p) hd;
    F32.add (vr c) F32.f0_1; F32.add (vg c) F32.f0_1; F32.add (vb c) F32.f0_1 ].

(** The twelve triangles of a box whose first vertex is [baseIndex]
    (lines 340-363); [baseIndex + k] is [unsigned int] addition. *)
Definition box_indices (baseIndex : Z) : list Z :=
  [ (* bottom *)
    u32 (baseIndex + 0); u32 (baseIndex + 1); u32 (baseIndex + 2);
    u32 (baseIndex + 2); u32 (baseIndex + 3); u32 (baseIndex + 0);
    (* top *)
    u32 (baseIndex + 4); u32 (baseIndex + 7); u32 (baseIndex + 6);
    u32 (baseIndex + 6); u32 (baseIndex + 5); u32 (baseIndex + 4);
    (* front *)
    u32 (baseIndex + 0); u32 (baseIndex + 4); u32 (baseIndex + 5);
    u32 (baseIndex + 5); u32 (baseIndex + 1); u32 (baseIndex + 0);
    (* right *)
    u32 (baseIndex + 1); u32 (baseIndex + 5); u32 (baseIndex + 6);
    u32 (baseIndex + 6); u32 (baseIndex + 2); u32 (baseIndex + 1);
    (* back *)
    u32 (baseIndex + 2); u32 (baseIndex + 6); u32 (baseIndex + 7);
    u32 (baseIndex + 7); u32 (baseIndex + 3); u32 (baseIndex + 2);
    (* left *)
    u32 (baseIndex + 3); u32 (baseIndex + 7); u32 (baseIndex + 4);
    u32 (baseIndex + 4); u32 (baseIndex + 0); u32 (baseIndex + 3) ].

(** [unsigned int baseIndex = vertices.size() / 6;] (line 301). *)
Definition base_index (vertices : list float) : Z :=
  u32 (Z.of_nat (length vertices) / 6).

(** The two buffers that [createBuildingBuffers] fills. *)
Definition buffers : Type := (list float * list Z)%type.

(** One iteration of the loop of [createBuildingBuffers]: the base index is
    read before the vertices are appended. *)
Definition append_building (vi : buffers) (b : Building) : buffers :=
  let (vertices, indices) := vi in
  let baseIndex := base_index vertices in
  (vertices ++ box_vertices b, indices ++ box_indices baseIndex).

(** [createBuildingBuffers(buildings, vertices, indices)]: the loop visits
    [buildings[0]], ..., [buildings[size-1]] in order. *)
Definition createBuildingBuffers (buildings : list Building)
    (vertices : list float) (indices : list Z) : buffers :=
  fold_left append_building buildings (vertices, indices).

(** ** The box as the specification describes it *)

(** One corner of the box of [b]: left or right is [position.x -/+ width/2],
    bottom or top is [position.y -/+ height/2], back or front is
    [position.z -/+ depth/2]; a bottom corner has the colour of [b], a top
    corner that colour plus [0.1f] in every channel. *)
Definition corner (b : Building) (top front right : bool) : list float :=
  let side (plus : bool) := if plus then F32.add else F32.sub in
  let tint (c : float) := if top then F32.add c F32.f0_1 else c in
  [ side right (vx (position b)) (F32.div (width b) F32.f2);
    side top (vy (position b)) (F32.div (height b) F32.f2);
    side front (vz (position b)) (F32.div (depth b) F32.f2);
    tint (vr (color b)); tint (vg (color b)); tint (vb (color b)) ].

(** The eight corners in the order of the specification. *)
Definition spec_vertices (b : Building) : list float :=
  corner b false true false ++   (* 0: bottom front-left *)
  corner b false true true ++    (* 1: bottom front-right *)
  corner b false false true ++   (* 2: bottom back-right *)
  corner b false false false ++  (* 3: bottom back-left *)
  corner b true true false ++    (* 4: top front-left *)
  corner b true true true ++     (* 5: top front-right *)
  corner b true false true ++    (* 6: top back-right *)
  corner b true false false.     (* 7: top back-left *)

Inductive face : Type := Bottom | Top | Front | Right | Back | Left.

(** The two triangles of each face, on local vertex numbers, as the
    specification lists them. *)
Definition face_triangles (f : face) : list (Z * Z * Z) :=
  match f with
  | Bottom => [(0, 1, 2); (2, 3, 0)]
  | Top => [(4, 7, 6); (6, 5, 4)]
  | Front => [(0, 4, 5); (5, 1, 0)]
  | Right => [(1, 5, 6); (6, 2, 1)]
  | Back => [(2, 6, 7); (7, 3, 2)]
  | Left => [(3, 7, 4); (4, 0, 3)]
  end.

Definition faces : list face := [Bottom; Top; Front; Right; Back; Left].

Definition local_indices : list Z :=
  flat_map (fun f => flat_map (fun t : Z * Z * Z =>
                                 let '(i0, i1, i2) := t in [i0; i1; i2])
                              (face_triangles f))
           faces.

(** The index buffer entries of a box on [baseIndex], in the order of the
    specification. *)
Definition spec_indices (baseIndex : Z) : list Z :=
  map (fun k => u32 (baseIndex + k)) local_indices.

(** The six floats of vertex [k] of a vertex buffer (stride 6, as
    [glVertexAttribPointer] is told in [main]). *)
Definition vertex (vertices : list float) (k : nat) : list float :=
  firstn 6 (skipn (6 * k) vertices).

(** A box of width, depth and height 10 at the origin. *)
Definition cube10 (r g b : float) : Building :=
  {| position := mk_vec3 F32.f0 F32.f0 F32.f0;
     width := F32.f10; depth := F32.f10; height := F32.f10;
     color := mk_vec3 r g b |}.

(** ** Triangles and their normals

    The renderer reads vertex [idx] of the vertex buffer at floats
    [6 * idx], ..., [6 * idx + 5]; the first three are its position.
    Geometry is done on the exact values of the emitted floats. *)

Definition qvec : Type := (Q * Q * Q)%type.

Definition vertex_position (vertices : list float) (idx : Z) : qvec :=
  let k := (6 * Z.to_nat idx)%nat in
  (F32.to_Q (nth k vertices F32.f0),
   F32.to_Q (nth (k + 1) vertices F32.f0),
   F32.to_Q (nth (k + 2) vertices F32.f0)).

Definition qsub (u v : qvec) : qvec :=
  let '(ux, uy, uz) := u in
  let '(wx, wy, wz) := v in
  (ux - wx, uy - wy, uz - wz)%Q.

Definition cross (u v : qvec) : qvec :=
  let '(ux, uy, uz) := u in
  let '(wx, wy, wz) := v in
  (uy * wz - uz * wy, uz * wx - ux * wz, ux * wy - uy * wx)%Q.

Definition dot (u v : qvec) : Q :=
  let '(ux, uy, uz) := u in
  let '(wx, wy, wz) := v in
  (ux * wx + uy * wy + uz * wz)%Q.

Definition midpoint (u v : qvec) : qvec :=
  let '(ux, uy, uz) := u in
  let '(wx, wy, wz) := v in
  ((ux + wx) * (1 # 2), (uy + wy) * (1 # 2), (uz + wz) * (1 # 2))%Q.

(** The index buffer read three entries at a time ([GL_TRIANGLES]). *)
Fixpoint triangles (indices : list Z) : list (Z * Z * Z) :=
  match indices with
  | i0 :: i1 :: i2 :: rest => (i0, i1, i2) :: triangles rest
  | _ => []
  end.

(** The normal of a triangle: the cross product of its edges [v0 -> v1] and
    [v1 -> v2], taken in the order the indices are emitted. *)
Definition triangle_normal (vertices : list float) (t : Z * Z * Z) : qvec :=
  let '(i0, i1, i2) := t in
  let p0 := vertex_position vertices i0 in
  let p1 := vertex_position vertices i1 in
  let p2 := vertex_position vertices i2 in
  cross (qsub p1 p0) (qsub p2 p1).

(** The direction that leaves the box through face [f]. *)
Definition outward (f : face) : qvec :=
  match f with
  | Bottom => (0, -1, 0)
  | Top => (0, 1, 0)
  | Front => (0, 0, 1)
  | Right => (1, 0, 0)
  | Back => (0, 0, -1)
  | Left => (-1, 0, 0)
  end%Q.

(** Triangles [2f] and [2f + 1] of a box belong to face number [f]. *)
Definition face_of_triangle (t : nat) : face := nth (t / 2) faces Bottom.

(** The six coordinates of the corners of the box of [b], as emitted. *)
Definition x_left (b : Building) : float :=
  F32.sub (vx (position b)) (F32.div (width b) F32.f2).
Definition x_right (b : Building) : float :=
  F32.add (vx (position b)) (F32.div (width b) F32.f2).
Definition y_bottom (b : Building) : float :=
  F32.sub (vy (position b)) (F32.div (height b) F32.f2).
Definition y_top (b : Building) : float :=
  F32.add (vy (position b)) (F32.div (height b) F32.f2).
Definition z_back (b : Building) : float :=
  F32.sub (vz (position b)) (F32.div (depth b) F32.f2).
Definition z_front (b : Building) : float :=
  F32.add (vz (position b)) (F32.div (depth b) F32.f2).

(** The emitted box is a proper box: its coordinates are finite, and left
    is left of right, bottom below top, back behind front.  Positive width,
    depth and height give this unless a half extent is lost when it is
    added to the position, or the sum overflows. *)
Definition proper_box (b : Building) : Prop :=
  F32.is_finite (x_left b) = true /\ F32.is_finite (x_right b) = true /\
  F32.is_finite (y_bottom b) = true /\ F32.is_finite (y_top b) = true /\
  F32.is_finite (z_back b) = true /\ F32.is_finite (z_front b) = true /\
  (F32.to_Q (x_left b) < F32.to_Q (x_right b))%Q /\
  (F32.to_Q (y_bottom b) < F32.to_Q (y_top b))%Q /\
  (F32.to_Q (z_back b) < F32.to_Q (z_front b))%Q.

(** The vertex floats of a box with the given corner coordinates and
    colours (bottom [c], top [ct]). *)
Definition box_of (xl xr yb yt zb zf : float) (c ct : vec3) : list float :=
  [ xl; yb; zf; vr c; vg c; vb c;
    xr; yb; zf; vr c; vg c; vb c;
    xr; yb; zb; vr c; vg c; vb c;
    xl; yb; zb; vr c; vg c; vb c;
    xl; yt; zf; vr ct; vg ct; vb ct;
    xr; yt; zf; vr ct; vg ct; vb ct;
    xr; yt; zb; vr ct; vg ct; vb ct;
    xl; yt; zb; vr ct; vg ct; vb ct ].

(** A number of buildings at which [unsigned int] indices have wrapped:
    [2^29] boxes have [2^32] vertices. *)
Definition many_buildings : nat := Z.to_nat (2 ^ 29).

(** ** Rounding: the notions the proofs about binary32 use *)

(** [k] right shifts of an exact mantissa [M] leave the quotient by [2^k];
    the round bit tells whether the remainder is at least half of [2^k], the
    sticky bit whether it is neither zero nor that half. *)
Definition shifted (M k : Z) (mrs : shr_record) : Prop :=
  shr_m mrs = M / 2 ^ k /\
  (shr_r mrs = true <-> 2 ^ k <= 2 * (M mod 2 ^ k)) /\
  (shr_s mrs = true <-> M mod 2 ^ k <> 0 /\ 2 * (M mod 2 ^ k) <> 2 ^ k).

(** The result of rounding when the exponent is known: an infinity past
    the largest exponent. *)
Definition finite_or_infinity (m : positive) (e : Z) : float :=
  if e <=? F32.emax - F32.prec then S754_finite false m e
  else S754_infinity false.

(** [m * 2^e]. *)
Definition val (m e : Z) : Q := (inject_Z m * F32.pow2 e)%Q.

(** A normal binary32 number: 24 digits, and an exponent in range. *)
Definition normal (m : positive) (e : Z) : Prop :=
  2 ^ 23 <= Zpos m < 2 ^ 24 /\ -149 <= e <= 104.

(** A positive normal binary32 number. *)
Definition pos_normal (x : float) : Prop :=
  exists (m : positive) (e : Z), x = S754_finite false m e /\ normal m e.

(** Replaces the value of each literal by the fraction it is. *)
Ltac literal_values :=
  repeat match goal with
    | |- context [F32.to_Q (S754_finite ?s ?m ?e)] =>
        let v := eval vm_compute in (F32.to_Q (S754_finite s m e)) in
        change (F32.to_Q (S754_finite s m e)) with v
    end.

(** ** A random source to run the generator on

    [low_sample] always returns the lower end of the range, and counts the
    draws. *)

Definition low_sample (d : uniform_real_distribution) (n : nat) : float * nat :=
  (dist_a d, S n).

(** ** Reading the mesh back *)

(** The vertex of a box that the specification numbers [l]. *)
Definition corner_of_local (b : Building) (l : Z) : list float :=
  match l with
  | 0 => corner b false true false
  | 1 => corner b false true true
  | 2 => corner b false false true
  | 3 => corner b false false false
  | 4 => corner b true true false
  | 5 => corner b true true true
  | 6 => corner b true false true
  | _ => corner b true false false
  end.

(** The axis a face is perpendicular to (0, 1, 2 for x, y, z), which is also
    the place of that coordinate among the floats of a vertex, and the
    coordinate all points of the face of [b] share. *)
Definition face_axis (f : face) : nat :=
  match f with
  | Left | Right => 0%nat
  | Bottom | Top => 1%nat
  | Front | Back => 2%nat
  end.

Definition face_coordinate (b : Building) (f : face) : float :=
  match f with
  | Bottom => y_bottom b
  | Top => y_top b
  | Front => z_front b
  | Right => x_right b
  | Back => z_back b
  | Left => x_left b
  end.

(** The indices of one triangle. *)
Definition triangle_indices (t : Z * Z * Z) : list Z :=
  let '(i0, i1, i2) := t in [i0; i1; i2].

(** A random source that also counts its draws. *)
Definition counting {RNG : Type}
    (sample : uniform_real_distribution -> RNG -> float * RNG)
    (d : uniform_real_distribution) (gn : RNG * nat) : float * (RNG * nat) :=
  let (x, g') := sample d (fst gn) in (x, (g', S (snd gn))).

(** ** Draws within the ranges of the distributions *)

(** [x] is a finite binary32 number with a value in [[lo, hi]]. *)
Definition draw_in (x : float) (lo hi : Q) : Prop :=
  F32.valid x = true /\ F32.is_finite x = true /\
  (lo <= F32.to_Q x)%Q /\ (F32.to_Q x <= hi)%Q.

(** Every draw of the position and size distributions of [generateCity]
    (lines 249-253) lies within the range the distribution was built with. *)
Definition city_draws {RNG : Type}
    (sample : uniform_real_distribution -> RNG -> float * RNG) : Prop :=
  (forall g, draw_in (fst (sample posDistX g)) (-100) 100) /\
  (forall g, draw_in (fst (sample posDistZ g)) (-100) 100) /\
  (forall g, draw_in (fst (sample sizeDistWidth g)) 5 15) /\
  (forall g, draw_in (fst (sample sizeDistDepth g)) 5 15) /\
  (forall g, draw_in (fst (sample heightDist g)) 10 60).

(** * Startup, the render loop and the camera

    [main], [initializeWindow], [compileShaders], [processInput] and
    [framebufferSizeCallback] talk to GLFW, GLAD and OpenGL.  What the
    libraries answer is not the program's to decide: the answers are an
    argument of the model, and the calls the program makes, in the order
    it makes them, are its result. *)

(** The named constants of the libraries that the program passes. *)
Inductive constant : Type :=
  | GLFW_CONTEXT_VERSION_MAJOR | GLFW_CONTEXT_VERSION_MINOR
  | GLFW_OPENGL_PROFILE | GLFW_OPENGL_CORE_PROFILE
  | GL_VERTEX_SHADER | GL_FRAGMENT_SHADER | GL_COMPILE_STATUS | GL_LINK_STATUS
  | GL_ARRAY_BUFFER | GL_ELEMENT_ARRAY_BUFFER | GL_STATIC_DRAW
  | GL_FLOAT | GL_FALSE | GL_DEPTH_TEST
  | GL_COLOR_BUFFER_BIT | GL_DEPTH_BUFFER_BIT
  | GL_TRIANGLES | GL_UNSIGNED_INT.

(** The value of a window hint: a number or a named constant. *)
Inductive hint_value : Type :=
  | number (n : Z)
  | named (c : constant).

(** The keys [processInput] asks for. *)
Inductive key : Type :=
  | GLFW_KEY_ESCAPE | GLFW_KEY_W | GLFW_KEY_S | GLFW_KEY_A | GLFW_KEY_D
  | GLFW_KEY_SPACE | GLFW_KEY_LEFT_CONTROL.

(** The string literals of the program: the window title, the lines written
    to [std::cerr] (the three shader messages are followed by the info log
    that OpenGL returned), the two shader sources (lines 13-40) and the
    names of the uniforms. *)
Inductive title : Type :=
  | City_Landscape.

Inductive message : Type :=
  | Failed_to_initialize_GLFW
  | Failed_to_create_GLFW_window
  | Failed_to_initialize_GLAD
  | ERROR_SHADER_VERTEX_COMPILATION_FAILED
  | ERROR_SHADER_FRAGMENT_COMPILATION_FAILED
  | ERROR_SHADER_PROGRAM_LINKING_FAILED.

Inductive shader_source : Type :=
  | vertexShaderSource | fragmentShaderSource.

Inductive uniform : Type :=
  | uniform_model | uniform_view | uniform_projection.

(** The matrices of a frame, as the calls of glm that make them. *)
Inductive angle : Type :=
  | glm_radians (degrees : float).

Inductive matrix : Type :=
  | glm_lookAt (eye center up : vec3)
  | glm_perspective (fovy : angle) (aspect near far : float)
  | glm_mat4 (diagonal : float).

(** What [glBufferData] is given to copy. *)
Inductive buffer_data : Type :=
  | float_data (data : list float)
  | uint_data (data : list Z).

(** The calls into the libraries, with their arguments. *)
Inductive call : Type :=
  | glfwInit
  | glfwWindowHint (hint : constant) (value : hint_value)
  | glfwCreateWindow (width height : Z) (name : title) (monitor share : Z)
  | glfwTerminate
  | glfwMakeContextCurrent (window : Z)
  | glfwSetFramebufferSizeCallback (window : Z)
  | gladLoadGLLoader
  | cerr (text : message)
  | glCreateShader (kind : constant)
  | glShaderSource (shader count : Z) (source : shader_source)
  | glCompileShader (shader : Z)
  | glGetShaderiv (shader : Z) (pname : constant)
  | glGetShaderInfoLog (shader size : Z)
  | glCreateProgram
  | glAttachShader (program shader : Z)
  | glLinkProgram (program : Z)
  | glGetProgramiv (program : Z) (pname : constant)
  | glGetProgramInfoLog (program size : Z)
  | glDeleteShader (shader : Z)
  | glGenVertexArrays (n : Z)
  | glGenBuffers (n : Z)
  | glBindVertexArray (array : Z)
  | glBindBuffer (target : constant) (buffer : Z)
  | glBufferData (target : constant) (size : Z) (data : buffer_data)
                 (usage : constant)
  | glVertexAttribPointer (index size : Z) (kind normalized : constant)
                          (stride pointer : Z)
  | glEnableVertexAttribArray (index : Z)
  | glGetUniformLocation (program : Z) (name : uniform)
  | glEnable (cap : constant)
  | glfwWindowShouldClose (window : Z)
  | glfwGetTime
  | glfwGetKey (window : Z) (k : key)
  | glfwSetWindowShouldClose (window : Z) (value : bool)
  | glClearColor (red green blue alpha : float)
  | glClear (mask : list constant)
  | glUseProgram (program : Z)
  | glUniformMatrix4fv (location count : Z) (transpose : constant)
                       (value : matrix)
  | glDrawElements (mode : constant) (count : Z) (kind : constant)
                   (indices : Z)
  | glfwSwapBuffers (window : Z)
  | glfwPollEvents
  | glViewport (x y width height : Z)
  | glDeleteVertexArrays (n array : Z)
  | glDeleteBuffers (n buffer : Z)
  | glDeleteProgram (program : Z).

(** What the libraries answer during startup.  A null pointer, a false
    [int] and the shader or program name that marks a failure are all 0. *)
Record answers : Type := mk_answers {
  glfwInit_answer : Z;
  glfwCreateWindow_answer : Z;
  gladLoadGLLoader_answer : Z;
  vertexShader_answer : Z;
  vertex_success : Z;
  fragmentShader_answer : Z;
  fragment_success : Z;
  glCreateProgram_answer : Z;
  link_success : Z;
  VAO_answer : Z;
  VBO_answer : Z;
  EBO_answer : Z;
  glGetUniformLocation_answer : uniform -> Z
}.

(** What happens around one frame: the time [glfwGetTime] returns, the
    keys that are down, and what [glfwPollEvents] delivers at the end of the
    frame, which is the new sizes of the framebuffer and whether the user
    asked to close the window. *)
Record frame : Type := mk_frame {
  glfwGetTime_answer : float;
  pressed : key -> bool;
  resized : list (Z * Z);
  close_requested : bool
}.

(** A computation that returns a value and leaves the calls it made. *)
Definition Act (A : Type) : Type := (A * list call)%type.

Definition done {A : Type} (a : A) : Act A := (a, []).

Definition andThen {A B : Type} (m : Act A) (k : A -> Act B) : Act B :=
  let (a, t) := m in
  let (b, t') := k a in
  (b, t ++ t').

(** One call [c] that is answered [a]. *)
Definition does {A : Type} (c : call) (a : A) : Act A := (a, [c]).

(** [size_t], [int] (the [GLsizei] and [GLint] of OpenGL) and the signed
    [GLsizeiptr], where [size_t] and pointers have 64 bits. *)
Definition size_t (z : Z) : Z := z mod 2 ^ 64.
Definition int (z : Z) : Z := (z + 2 ^ 31) mod 2 ^ 32 - 2 ^ 31.
Definition GLsizeiptr (z : Z) : Z := (z + 2 ^ 63) mod 2 ^ 64 - 2 ^ 63.

(** [sizeof(float)] and [sizeof(unsigned int)]. *)
Definition sizeof_float : Z := 4.
Definition sizeof_unsigned_int : Z := 4.

(** The operators of [glm::vec3] that [processInput] and [main] use, each
    component by component. *)
Definition vec3_add (u v : vec3) : vec3 :=
  mk_vec3 (F32.add (vx u) (vx v)) (F32.add (vy u) (vy v))
          (F32.add (vz u) (vz v)).
Definition vec3_sub (u v : vec3) : vec3 :=
  mk_vec3 (F32.sub (vx u) (vx v)) (F32.sub (vy u) (vy v))
          (F32.sub (vz u) (vz v)).
Definition scalar_times (s : float) (v : vec3) : vec3 :=
  mk_vec3 (F32.mul s (vx v)) (F32.mul s (vy v)) (F32.mul s (vz v)).
Definition times_scalar (v : vec3) (s : float) : vec3 :=
  mk_vec3 (F32.mul (vx v) s) (F32.mul (vy v) s) (F32.mul (vz v) s).

(** The state of the render loop: the camera and the timing variables of
    [main], and the close flag of the window. *)
Record loop_state : Type := mk_loop_state {
  cameraPos : vec3;
  cameraFront : vec3;
  deltaTime : float;
  lastFrame : float;
  should_close : bool
}.

Section Program.

(** The random generator as [generateCity] seeds it, and the two functions
    of glm that compute on the camera. *)
Variable RNG : Type.
Variable sample : uniform_real_distribution -> RNG -> float * RNG.
Variable rng : RNG.
Variable glm_cross : vec3 -> vec3 -> vec3.
Variable glm_normalize : vec3 -> vec3.

Variable world : answers.

Local Notation "x <- m ;; k" := (andThen m (fun x => k))
  (at level 61, m at next level, right associativity).
Local Notation "m ;;; k" := (andThen m (fun _ => k))
  (at level 61, right associativity).

(** [framebufferSizeCallback] (lines 387-389). *)
Definition framebufferSizeCallback (window width height : Z) : Act unit :=
  does (glViewport 0 0 width height) tt.

(** [initializeWindow] (lines 163-193); the result is the window, or 0 for
    [nullptr]. *)
Definition initializeWindow : Act Z :=
  ok <- does glfwInit (glfwInit_answer world) ;;
  if ok =? 0 then
    does (cerr Failed_to_initialize_GLFW) tt ;;;
    done 0
  else
    does (glfwWindowHint GLFW_CONTEXT_VERSION_MAJOR (number 3)) tt ;;;
    does (glfwWindowHint GLFW_CONTEXT_VERSION_MINOR (number 3)) tt ;;;
    does (glfwWindowHint GLFW_OPENGL_PROFILE (named GLFW_OPENGL_CORE_PROFILE))
         tt ;;;
    window <- does (glfwCreateWindow 800 600 City_Landscape 0 0)
                   (glfwCreateWindow_answer world) ;;
    if window =? 0 then
      does (cerr Failed_to_create_GLFW_window) tt ;;;
      does glfwTerminate tt ;;;
      done 0
    else
      does (glfwMakeContextCurrent window) tt ;;;
      does (glfwSetFramebufferSizeCallback window) tt ;;;
      loaded <- does gladLoadGLLoader (gladLoadGLLoader_answer world) ;;
      if loaded =? 0 then
        does (cerr Failed_to_initialize_GLAD) tt ;;;
        done 0
      else done window.

(** [compileShaders] (lines 195-243); the result is the program, or 0. *)
Definition compileShaders : Act Z :=
  vertexShader <- does (glCreateShader GL_VERTEX_SHADER)
                       (vertexShader_answer world) ;;
  does (glShaderSource vertexShader 1 vertexShaderSource) tt ;;;
  does (glCompileShader vertexShader) tt ;;;
  success <- does (glGetShaderiv vertexShader GL_COMPILE_STATUS)
                  (vertex_success world) ;;
  if success =? 0 then
    does (glGetShaderInfoLog vertexShader 512) tt ;;;
    does (cerr ERROR_SHADER_VERTEX_COMPILATION_FAILED) tt ;;;
    done 0
  else
    fragmentShader <- does (glCreateShader GL_FRAGMENT_SHADER)
                           (fragmentShader_answer world) ;;
    does (glShaderSource fragmentShader 1 fragmentShaderSource) tt ;;;
    does (glCompileShader fragmentShader) tt ;;;
    success <- does (glGetShaderiv fragmentShader GL_COMPILE_STATUS)
                    (fragment_success world) ;;
    if success =? 0 then
      does (glGetShaderInfoLog fragmentShader 512) tt ;;;
      does (cerr ERROR_SHADER_FRAGMENT_COMPILATION_FAILED) tt ;;;
      done 0
    else
      shaderProgram <- does glCreateProgram (glCreateProgram_answer world) ;;
      does (glAttachShader shaderProgram vertexShader) tt ;;;
      does (glAttachShader shaderProgram fragmentShader) tt ;;;
      does (glLinkProgram shaderProgram) tt ;;;
      success <- does (glGetProgramiv shaderProgram GL_LINK_STATUS)
                      (link_success world) ;;
      if success =? 0 then
        does (glGetProgramInfoLog shaderProgram 512) tt ;;;
        does (cerr ERROR_SHADER_PROGRAM_LINKING_FAILED) tt ;;;
        done 0
      else
        does (glDeleteShader vertexShader) tt ;;;
        does (glDeleteShader fragmentShader) tt ;;;
        done shaderProgram.

(** [processInput] (lines 366-385).  [keys] tells which keys
    [glfwGetKey] reports as [GLFW_PRESS]; [closing] is the close flag of
    the window.  The camera position and front are passed by reference:
    both come back. *)
Definition processInput (window : Z) (keys : key -> bool) (closing : bool)
    (cameraPos cameraFront : vec3) : Act (bool * vec3 * vec3) :=
  escape <- does (glfwGetKey window GLFW_KEY_ESCAPE) (keys GLFW_KEY_ESCAPE) ;;
  closing <- (if escape : bool
              then does (glfwSetWindowShouldClose window true) true
              else done closing) ;;
  let cameraSpeed := F32.f1 in
  w <- does (glfwGetKey window GLFW_KEY_W) (keys GLFW_KEY_W) ;;
  let cameraPos :=
    if w : bool then vec3_add cameraPos (scalar_times cameraSpeed cameraFront)
    else cameraPos in
  s <- does (glfwGetKey window GLFW_KEY_S) (keys GLFW_KEY_S) ;;
  let cameraPos :=
    if s : bool then vec3_sub cameraPos (scalar_times cameraSpeed cameraFront)
    else cameraPos in
  a <- does (glfwGetKey window GLFW_KEY_A) (keys GLFW_KEY_A) ;;
  let cameraPos :=
    if a : bool
    then vec3_sub cameraPos
           (times_scalar
              (glm_normalize (glm_cross cameraFront (mk_vec3 F32.f0 F32.f1 F32.f0)))
              cameraSpeed)
    else cameraPos in
  d <- does (glfwGetKey window GLFW_KEY_D) (keys GLFW_KEY_D) ;;
  let cameraPos :=
    if d : bool
    then vec3_add cameraPos
           (times_scalar
              (glm_normalize (glm_cross cameraFront (mk_vec3 F32.f0 F32.f1 F32.f0)))
              cameraSpeed)
    else cameraPos in
  space <- does (glfwGetKey window GLFW_KEY_SPACE) (keys GLFW_KEY_SPACE) ;;
  let cameraPos :=
    if space : bool then vec3_add cameraPos (mk_vec3 F32.f0 cameraSpeed F32.f0)
    else cameraPos in
  control <- does (glfwGetKey window GLFW_KEY_LEFT_CONTROL)
                  (keys GLFW_KEY_LEFT_CONTROL) ;;
  let cameraPos :=
    if control : bool
    then vec3_sub cameraPos (mk_vec3 F32.f0 cameraSpeed F32.f0)
    else cameraPos in
  done (closing, cameraPos, cameraFront).

(** What [glfwPollEvents] runs: the callback for each new size. *)
Fixpoint deliver_resizes (window : Z) (sizes : list (Z * Z)) : Act unit :=
  match sizes with
  | [] => done tt
  | (width, height) :: sizes' =>
      framebufferSizeCallback window width height ;;;
      deliver_resizes window sizes'
  end.

Section Loop.

(** The variables of [main] that the render loop reads and leaves alone. *)
Variable window : Z.
Variable shaderProgram : Z.
Variable VAO : Z.
Variable modelLoc viewLoc projectionLoc : Z.
Variable indices : list Z.
Variable cameraUp : vec3.

(** The body of the render loop (lines 119-149) on the frame [f]. *)
Definition render_frame (f : frame) (s : loop_state) : Act loop_state :=
  currentFrame <- does glfwGetTime (glfwGetTime_answer f) ;;
  let deltaTime := F32.sub currentFrame (lastFrame s) in
  let lastFrame := currentFrame in
  moved <- processInput window (pressed f) (should_close s)
                        (cameraPos s) (cameraFront s) ;;
  let '(closing, cameraPos, cameraFront) := moved in
  does (glClearColor F32.f0_1 F32.f0_1 F32.f0_2 F32.f1) tt ;;;
  does (glClear [GL_COLOR_BUFFER_BIT; GL_DEPTH_BUFFER_BIT]) tt ;;;
  does (glUseProgram shaderProgram) tt ;;;
  let view := glm_lookAt cameraPos (vec3_add cameraPos cameraFront) cameraUp in
  let projection :=
    glm_perspective (glm_radians (F32.of_Z 45))
                    (F32.div (F32.of_Z 800) (F32.of_Z 600))
                    F32.f0_1 (F32.of_Z 1000) in
  let model := glm_mat4 F32.f1 in
  does (glUniformMatrix4fv (int modelLoc) 1 GL_FALSE model) tt ;;;
  does (glUniformMatrix4fv (int viewLoc) 1 GL_FALSE view) tt ;;;
  does (glUniformMatrix4fv (int projectionLoc) 1 GL_FALSE projection) tt ;;;
  does (glBindVertexArray VAO) tt ;;;
  does (glDrawElements GL_TRIANGLES
          (int (size_t (Z.of_nat (length indices)))) GL_UNSIGNED_INT 0) tt ;;;
  does (glfwSwapBuffers window) tt ;;;
  does glfwPollEvents tt ;;;
  deliver_resizes window (resized f) ;;;
  done {| cameraPos := cameraPos; cameraFront := cameraFront;
          deltaTime := deltaTime; lastFrame := lastFrame;
          should_close := closing || close_requested f |}.

(** [while (!glfwWindowShouldClose(window)) { ... }] over the frames that
    are given; [None] when the loop is still running after the last of
    them. *)
Fixpoint render_loop (frames : list frame) (s : loop_state)
    : Act (option loop_state) :=
  closing <- does (glfwWindowShouldClose window) (should_close s) ;;
  if closing : bool then done (Some s)
  else
    match frames with
    | [] => done None
    | f :: frames' =>
        s' <- render_frame f s ;;
        render_loop frames' s'
    end.

End Loop.

(** [main] (lines 61-161) over the frames that are given: the exit code,
    or [None] when the render loop is still running after the last frame.
    The close flag of the window just created is not set. *)
Definition main (frames : list frame) : Act (option Z) :=
  window <- initializeWindow ;;
  if window =? 0 then done (Some (-1))
  else
    shaderProgram <- compileShaders ;;
    if shaderProgram =? 0 then done (Some (-1))
    else
      let buildings := generateCity RNG sample [] 100 rng in
      let '(vertices, indices) := createBuildingBuffers buildings [] [] in
      VAO <- does (glGenVertexArrays 1) (VAO_answer world) ;;
      VBO <- does (glGenBuffers 1) (VBO_answer world) ;;
      EBO <- does (glGenBuffers 1) (EBO_answer world) ;;
      does (glBindVertexArray VAO) tt ;;;
      does (glBindBuffer GL_ARRAY_BUFFER VBO) tt ;;;
      does (glBufferData GL_ARRAY_BUFFER
              (GLsizeiptr (size_t (Z.of_nat (length vertices) * sizeof_float)))
              (float_data vertices) GL_STATIC_DRAW) tt ;;;
      does (glBindBuffer GL_ELEMENT_ARRAY_BUFFER EBO) tt ;;;
      does (glBufferData GL_ELEMENT_ARRAY_BUFFER
              (GLsizeiptr
                 (size_t (Z.of_nat (length indices) * sizeof_unsigned_int)))
              (uint_data indices) GL_STATIC_DRAW) tt ;;;
      does (glVertexAttribPointer 0 3 GL_FLOAT GL_FALSE
              (int (size_t (6 * sizeof_float))) 0) tt ;;;
      does (glEnableVertexAttribArray 0) tt ;;;
      does (glVertexAttribPointer 1 3 GL_FLOAT GL_FALSE
              (int (size_t (6 * sizeof_float)))
              (size_t (3 * sizeof_float))) tt ;;;
      does (glEnableVertexAttribArray 1) tt ;;;
      modelLoc <- does (glGetUniformLocation shaderProgram uniform_model)
                       (u32 (glGetUniformLocation_answer world uniform_model)) ;;
      viewLoc <- does (glGetUniformLocation shaderProgram uniform_view)
                      (u32 (glGetUniformLocation_answer world uniform_view)) ;;
      projectionLoc <-
        does (glGetUniformLocation shaderProgram uniform_projection)
             (u32 (glGetUniformLocation_answer world uniform_projection)) ;;
      does (glEnable GL_DEPTH_TEST) tt ;;;
      let cameraPos := mk_vec3 F32.f0 (F32.of_Z 50) (F32.of_Z 150) in
      let cameraFront := mk_vec3 F32.f0 F32.f0 (F32.of_Z (-1)) in
      let cameraUp := mk_vec3 F32.f0 F32.f1 F32.f0 in
      let deltaTime := F32.f0 in
      let lastFrame := F32.f0 in
      left <- render_loop window shaderProgram VAO modelLoc viewLoc
                projectionLoc indices cameraUp frames
                {| cameraPos := cameraPos; cameraFront := cameraFront;
                   deltaTime := deltaTime; lastFrame := lastFrame;
                   should_close := false |} ;;
      match left with
      | None => done None
      | Some _ =>
          does (glDeleteVertexArrays 1 VAO) tt ;;;
          does (glDeleteBuffers 1 VBO) tt ;;;
          does (glDeleteBuffers 1 EBO) tt ;;;
          does (glDeleteProgram shaderProgram) tt ;;;
          does glfwTerminate tt ;;;
          done (Some 0)
      end.

End Program.

(** Startup succeeds when no answer is a failure. *)
Definition startup_succeeds (world : answers) : bool :=
  negb (glfwInit_answer world =? 0) &&
  negb (glfwCreateWindow_answer world =? 0) &&
  negb (gladLoadGLLoader_answer world =? 0) &&
  negb (vertex_success world =? 0) &&
  negb (fragment_success world =? 0) &&
  negb (link_success world =? 0) &&
  negb (glCreateProgram_answer world =? 0).

(** A frame after which the window is to close: Escape is down, or the
    user asked for it. *)
Definition closes (f : frame) : bool :=
  pressed f GLFW_KEY_ESCAPE || close_requested f.

(** The number of frames the render loop goes through: up to and with the
    first one that closes. *)
Fixpoint frames_run (frames : list frame) : nat :=
  match frames with
  | [] => 0%nat
  | f :: frames' => if closes f then 1%nat else S (frames_run frames')
  end.

(** The calls of a kind in a sequence of calls. *)
Definition is_glDrawElements (c : call) : bool :=
  match c with glDrawElements _ _ _ _ => true | _ => false end.
Definition is_glfwTerminate (c : call) : bool :=
  match c with glfwTerminate => true | _ => false end.
Definition is_create (c : call) : bool :=
  match c with
  | glCreateShader _ | glCreateProgram => true
  | _ => false
  end.
Definition is_release (c : call) : bool :=
  match c with
  | glDeleteShader _ | glDeleteProgram _ | glDeleteBuffers _ _
  | glDeleteVertexArrays _ _ | glfwTerminate => true
  | _ => false
  end.
Definition is_upload (c : call) : bool :=
  match c with
  | glBufferData _ _ _ _ | glVertexAttribPointer _ _ _ _ _ _ | glEnable _ =>
      true
  | _ => false
  end.
Definition is_OpenGL_object (c : call) : bool :=
  match c with
  | glGenVertexArrays _ | glGenBuffers _ | glBufferData _ _ _ _
  | glDrawElements _ _ _ _ => true
  | _ => false
  end.

(** Answers and frames to run the program on. *)
Definition all_well : answers :=
  {| glfwInit_answer := 1; glfwCreateWindow_answer := 4096;
     gladLoadGLLoader_answer := 1;
     vertexShader_answer := 1; vertex_success := 1;
     fragmentShader_answer := 2; fragment_success := 1;
     glCreateProgram_answer := 3; link_success := 1;
     VAO_answer := 1; VBO_answer := 1; EBO_answer := 2;
     glGetUniformLocation_answer :=
       fun u => match u with
                | uniform_model => 0
                | uniform_view => 2
                | uniform_projection => 1
                end |}.

Definition no_GLAD : answers :=
  {| glfwInit_answer := 1; glfwCreateWindow_answer := 4096;
     gladLoadGLLoader_answer := 0;
     vertexShader_answer := 1; vertex_success := 1;
     fragmentShader_answer := 2; fragment_success := 1;
     glCreateProgram_answer := 3; link_success := 1;
     VAO_answer := 1; VBO_answer := 1; EBO_answer := 2;
     glGetUniformLocation_answer := fun _ => 0 |}.

Definition escape_frame : frame :=
  {| glfwGetTime_answer := F32.f1;
     pressed := fun k => match k with
                         | GLFW_KEY_ESCAPE | GLFW_KEY_W => true
                         | _ => false
                         end;
     resized := [(1024, 768)]; close_requested := false |}.

Definition idle_frame : frame :=
  {| glfwGetTime_answer := F32.f0; pressed := fun _ => false;
     resized := []; close_requested := false |}.

(** Two frames with the same keys and events, whatever the time; two loop
    states with the same camera and close flag, whatever the timing
    variables. *)
Definition same_events (f f' : frame) : Prop :=
  (forall k, pressed f k = pressed f' k) /\
  resized f = resized f' /\
  close_requested f = close_requested f'.

Definition same_camera (s s' : loop_state) : Prop :=
  cameraPos s = cameraPos s' /\ cameraFront s = cameraFront s' /\
  should_close s = should_close s'.


Definition is_glViewport (c : call) : bool :=
  match c with glViewport _ _ _ _ => true | _ => false end.

(** A projection matrix, if [c] sets one, is the one of a window of 800 by
    600. *)
Definition projects_800_by_600 (c : call) : Prop :=
  match c with
  | glUniformMatrix4fv _ _ _ (glm_perspective fovy aspect near far) =>
      fovy = glm_radians (F32.of_Z 45) /\
      aspect = F32.div (F32.of_Z 800) (F32.of_Z 600) /\
      near = F32.f0_1 /\ far = F32.of_Z 1000
  | _ => True
  end.

(** ** The literals *)

(** Each decimal literal of the source is the correctly rounded quotient of
    two small integers, and a binary32 number in its one representation. *)
Lemma literals_correctly_rounded :
  F32.f0_1 = F32.div (F32.of_Z 1) (F32.of_Z 10) /\
  F32.f0_2 = F32.div (F32.of_Z 2) (F32.of_Z 10) /\
  F32.f0_3 = F32.div (F32.of_Z 3) (F32.of_Z 10) /\
  F32.f0_5 = F32.div (F32.of_Z 1) (F32.of_Z 2) /\
  F32.f0_8 = F32.div (F32.of_Z 8) (F32.of_Z 10) /\
  F32.fm0_5 = F32.div (F32.of_Z (-1)) (F32.of_Z 2) /\
  forallb F32.valid
    [F32.f0; F32.f0_1; F32.f0_2; F32.f0_3; F32.f0_5; F32.f0_8; F32.fm0_5;
     F32.f1; F32.f2; F32.f5; F32.f10; F32.f15; F32.f60; F32.f100; F32.fm100;
     F32.f250] = true.
Proof. repeat split. Qed.

(** ** The loop of [generateCity] *)

Section GeneratorFacts.

Variable RNG : Type.
Variable sample : uniform_real_distribution -> RNG -> float * RNG.

Local Abbreviation loop := (generate_loop RNG sample).

(** A loop entered with [numBuildings <= i] does nothing: no building, no
    draw, whatever the fuel. *)
Lemma generate_loop_done fuel i numBuildings bs g :
  numBuildings <= i -> loop fuel i numBuildings bs g = (bs, g).
Proof.
  intros Hle. destruct fuel as [|fuel]; simpl; [reflexivity|].
  destruct (Z.ltb_spec i numBuildings); [lia | reflexivity].
Qed.

(** One unfolding of the loop when the guard holds. *)
Lemma generate_loop_step fuel i numBuildings bs g :
  i < numBuildings ->
  loop (S fuel) i numBuildings bs g =
  let (b, g') := random_building RNG sample i g in
  loop fuel (i + 1) numBuildings (push_back bs b) g'.
Proof.
  intros Hlt. simpl. destruct (Z.ltb_spec i numBuildings); [|lia].
  unfold bind. reflexivity.
Qed.

(** The fuel [generateCity] gives is enough: with it, or with more, the
    loop stops at its guard and gives the same result. *)
Lemma generate_loop_fuel fuel i numBuildings bs g :
  (Z.to_nat (numBuildings - i) <= fuel)%nat ->
  loop fuel i numBuildings bs g =
  loop (Z.to_nat (numBuildings - i)) i numBuildings bs g.
Proof.
  revert i bs g. induction fuel as [|fuel IH]; intros i bs g Hf.
  - replace (Z.to_nat (numBuildings - i)) with 0%nat by lia. reflexivity.
  - destruct (Z.lt_ge_cases i numBuildings) as [Hlt|Hge].
    + replace (Z.to_nat (numBuildings - i))
        with (S (Z.to_nat (numBuildings - (i + 1)))) by lia.
      rewrite !generate_loop_step by assumption.
      destruct (random_building RNG sample i g) as [b g'].
      apply IH. lia.
    + rewrite !generate_loop_done by assumption. reflexivity.
Qed.

(** The loop only appends: what was in [buildings] stays in front. *)
Lemma generate_loop_app fuel i numBuildings bs g :
  loop fuel i numBuildings bs g =
  (bs ++ fst (loop fuel i numBuildings [] g),
   snd (loop fuel i numBuildings [] g)).
Proof.
  revert i bs g. induction fuel as [|fuel IH]; intros i bs g.
  - simpl. unfold ret. simpl. rewrite app_nil_r. reflexivity.
  - destruct (Z.lt_ge_cases i numBuildings) as [Hlt|Hge].
    + rewrite !generate_loop_step by assumption.
      destruct (random_building RNG sample i g) as [b g'].
      rewrite (IH (i + 1) (push_back bs b) g').
      rewrite (IH (i + 1) (push_back [] b) g').
      unfold push_back. simpl. rewrite <- app_assoc. reflexivity.
    + rewrite !generate_loop_done by assumption. simpl.
      rewrite app_nil_r. reflexivity.
Qed.

(** With the fuel of [generateCity] the loop adds one building per value
    of the counter. *)
Lemma generate_loop_length fuel i numBuildings g :
  fuel = Z.to_nat (numBuildings - i) ->
  length (fst (loop fuel i numBuildings [] g)) = fuel.
Proof.
  revert i g. induction fuel as [|fuel IH]; intros i g Hf.
  - reflexivity.
  - rewrite generate_loop_step by lia.
    destruct (random_building RNG sample i g) as [b g'].
    rewrite generate_loop_app. simpl. rewrite IH by lia. reflexivity.
Qed.

(** The [k]-th building the loop adds is the one built for counter
    [i + k], from the state the generator has then. *)
Lemma generate_loop_nth fuel i numBuildings g k b :
  nth_error (fst (loop fuel i numBuildings [] g)) k = Some b ->
  exists g', b = fst (random_building RNG sample (i + Z.of_nat k) g').
Proof.
  revert i g k. induction fuel as [|fuel IH]; intros i g k Hn.
  - destruct k; discriminate.
  - destruct (Z.lt_ge_cases i numBuildings) as [Hlt|Hge].
    + rewrite generate_loop_step in Hn by assumption.
      destruct (random_building RNG sample i g) as [b0 g0] eqn:Hb0.
      rewrite generate_loop_app in Hn. simpl in Hn.
      destruct k as [|k]; simpl in Hn.
      * exists g. rewrite Z.add_0_r, Hb0. simpl. congruence.
      * apply IH in Hn. destruct Hn as [g' Hg']. exists g'.
        replace (i + Z.of_nat (S k)) with (i + 1 + Z.of_nat k) by lia.
        exact Hg'.
    + rewrite generate_loop_done in Hn by assumption.
      destruct k; discriminate.
Qed.

(** [generateCity] is its argument, then what the loop adds, then the
    ground plane. *)
Lemma generateCity_unfold bs numBuildings g :
  generateCity RNG sample bs numBuildings g =
  bs ++ fst (loop (Z.to_nat numBuildings) 0 numBuildings [] g) ++ [ground].
Proof.
  unfold generateCity. rewrite generate_loop_app. simpl.
  unfold push_back. rewrite app_assoc. reflexivity.
Qed.

Lemma generateCity_length bs numBuildings g :
  0 <= numBuildings ->
  length (generateCity RNG sample bs numBuildings g) =
  (length bs + Z.to_nat numBuildings + 1)%nat.
Proof.
  intros HN. rewrite generateCity_unfold, !length_app.
  rewrite generate_loop_length by (f_equal; lia). simpl. lia.
Qed.

End GeneratorFacts.

(** ** Claims on [generateCity] *)

(** C1.  For every count [N >= 0], [generateCity] called on an empty vector
    yields exactly [N + 1] descriptors, and the last one is the fixed ground
    plane: position (0, -0.5, 0), width 250, depth 250, height 1, colour
    (0.1, 0.1, 0.1).  For [N = 0] the result is that single descriptor. *)
Theorem generateCity_count_and_ground :
  forall (RNG : Type) (sample : uniform_real_distribution -> RNG -> float * RNG)
         (N : Z) (rng : RNG),
    0 <= N ->
    let city := generateCity RNG sample [] N rng in
    Z.of_nat (length city) = N + 1 /\
    nth_error city (Z.to_nat N) = Some ground /\
    last city ground = ground /\
    ground = {| position := mk_vec3 (F32.of_Z 0)
                                    (F32.div (F32.of_Z (-5)) (F32.of_Z 10))
                                    (F32.of_Z 0);
                width := F32.of_Z 250;
                depth := F32.of_Z 250;
                height := F32.of_Z 1;
                color := mk_vec3 (F32.div (F32.of_Z 1) (F32.of_Z 10))
                                 (F32.div (F32.of_Z 1) (F32.of_Z 10))
                                 (F32.div (F32.of_Z 1) (F32.of_Z 10)) |} /\
    generateCity RNG sample [] 0 rng = [ground].
Proof.
  intros RNG sample N rng HN city. subst city.
  rewrite generateCity_unfold. simpl app.
  pose proof (generate_loop_length RNG sample (Z.to_nat N) 0 N rng) as Hlen.
  rewrite Z.sub_0_r in Hlen. specialize (Hlen eq_refl).
  set (bs := fst (generate_loop RNG sample (Z.to_nat N) 0 N [] rng)) in *.
  repeat split.
  - rewrite length_app, Hlen. simpl. lia.
  - rewrite nth_error_app2 by lia. rewrite Hlen, Nat.sub_diag. reflexivity.
  - apply last_last.
Qed.

Lemma generateCity_count_and_ground_witness :
  let city := generateCity nat low_sample [] 3 0%nat in
  Z.of_nat (length city) = 3 + 1 /\ nth_error city 3 = Some ground.
Proof.
  pose proof (generateCity_count_and_ground nat low_sample 3 0%nat
                ltac:(lia)) as H.
  simpl in H. destruct H as [H1 [H2 _]]. split; assumption.
Defined.

(** C9.  [generateCity] appends to the vector it is given and never clears
    it: whatever the vector holds before the call, afterwards the old
    elements are unchanged and at their old places, and they are followed by
    exactly the [N + 1] new descriptors, [N] random buildings (the [k]-th
    built for counter [k]) and then the ground plane. *)
Theorem generateCity_appends :
  forall (RNG : Type) (sample : uniform_real_distribution -> RNG -> float * RNG)
         (old : list Building) (N : Z) (rng : RNG),
    exists fresh : list Building,
      generateCity RNG sample old N rng = old ++ fresh ++ [ground] /\
      (0 <= N -> Z.of_nat (length fresh) = N) /\
      (forall k b, nth_error old k = Some b ->
         nth_error (generateCity RNG sample old N rng) k = Some b) /\
      (forall k b, nth_error fresh k = Some b ->
         exists g, b = fst (random_building RNG sample (Z.of_nat k) g)) /\
      old ++ generateCity RNG sample [] N rng =
      generateCity RNG sample old N rng.
Proof.
  intros RNG sample old N rng.
  exists (fst (generate_loop RNG sample (Z.to_nat N) 0 N [] rng)).
  split; [apply generateCity_unfold|].
  split.
  { intro HN. rewrite generate_loop_length by (f_equal; lia). lia. }
  split.
  { intros k b Hk. rewrite generateCity_unfold.
    rewrite nth_error_app1; [assumption|].
    apply nth_error_Some. congruence. }
  split.
  { intros k b Hk. apply generate_loop_nth in Hk. exact Hk. }
  rewrite (generateCity_unfold RNG sample []), generateCity_unfold.
  reflexivity.
Qed.

Lemma generateCity_appends_witness :
  exists fresh : list Building,
    generateCity nat low_sample [ground; ground] 2 0%nat =
    [ground; ground] ++ fresh ++ [ground] /\
    Z.of_nat (length fresh) = 2.
Proof.
  destruct (generateCity_appends nat low_sample [ground; ground] 2 0%nat)
    as [fresh [H1 [H2 _]]].
  exists fresh. split; [assumption | apply H2; lia].
Defined.

(** C10.  For every negative count the loop of [generateCity] is not
    entered: no building is generated and no value is drawn (the generator
    is left in the state it had), and the call appends exactly one
    descriptor, the ground plane, as a call with count [0] does. *)
Theorem generateCity_negative_count :
  forall (RNG : Type) (sample : uniform_real_distribution -> RNG -> float * RNG)
         (old : list Building) (N : Z) (rng : RNG),
    N < 0 ->
    (forall fuel, generate_loop RNG sample fuel 0 N old rng = (old, rng)) /\
    generateCity RNG sample old N rng = old ++ [ground] /\
    generateCity RNG sample old N rng = generateCity RNG sample old 0 rng.
Proof.
  intros RNG sample old N rng HN.
  assert (Hloop : forall fuel,
             generate_loop RNG sample fuel 0 N old rng = (old, rng)).
  { intro fuel. apply generate_loop_done. lia. }
  split; [exact Hloop|].
  split.
  - unfold generateCity. rewrite Hloop. reflexivity.
  - unfold generateCity. rewrite Hloop. reflexivity.
Qed.

Lemma generateCity_negative_count_witness :
  generateCity nat low_sample [] (-7) 0%nat = [] ++ [ground] /\
  generate_loop nat low_sample 5 0 (-7) [] 0%nat = ([], 0%nat).
Proof.
  destruct (generateCity_negative_count nat low_sample [] (-7) 0%nat
              ltac:(lia)) as [H1 [H2 _]].
  split; [exact H2 | exact (H1 5%nat)].
Defined.

(** ** The loop of [createBuildingBuffers] *)

Lemma box_vertices_length b : length (box_vertices b) = 48%nat.
Proof. reflexivity. Qed.

Lemma box_indices_length base : length (box_indices base) = 36%nat.
Proof. reflexivity. Qed.

Lemma createBuildingBuffers_nil v i : createBuildingBuffers [] v i = (v, i).
Proof. reflexivity. Qed.

Lemma createBuildingBuffers_cons b bs v i :
  createBuildingBuffers (b :: bs) v i =
  createBuildingBuffers bs (v ++ box_vertices b) (i ++ box_indices (base_index v)).
Proof. reflexivity. Qed.

(** Processing [bs1 ++ bs2] is processing [bs1], then [bs2] into the same
    buffers. *)
Lemma createBuildingBuffers_app bs1 bs2 v i :
  createBuildingBuffers (bs1 ++ bs2) v i =
  let (v', i') := createBuildingBuffers bs1 v i in
  createBuildingBuffers bs2 v' i'.
Proof.
  unfold createBuildingBuffers. rewrite fold_left_app.
  destruct (fold_left append_building bs1 (v, i)). reflexivity.
Qed.

(** The builder only appends. *)
Lemma createBuildingBuffers_prefix bs v i :
  exists v' i',
    createBuildingBuffers bs v i = (v ++ v', i ++ i') /\
    length v' = (48 * length bs)%nat /\
    length i' = (36 * length bs)%nat.
Proof.
  revert v i. induction bs as [|b bs IH]; intros v i.
  - exists [], []. rewrite !app_nil_r. repeat split.
  - rewrite createBuildingBuffers_cons.
    destruct (IH (v ++ box_vertices b) (i ++ box_indices (base_index v)))
      as [v' [i' [E [Hv Hi]]]].
    exists (box_vertices b ++ v'), (box_indices (base_index v) ++ i').
    rewrite E, <- !app_assoc. repeat split.
    + rewrite length_app, box_vertices_length, Hv. simpl length. lia.
    + rewrite length_app, box_indices_length, Hi. simpl length. lia.
Qed.

Lemma createBuildingBuffers_length bs v i :
  length (fst (createBuildingBuffers bs v i)) = (length v + 48 * length bs)%nat /\
  length (snd (createBuildingBuffers bs v i)) = (length i + 36 * length bs)%nat.
Proof.
  destruct (createBuildingBuffers_prefix bs v i) as [v' [i' [E [Hv Hi]]]].
  rewrite E. simpl. rewrite !length_app. lia.
Qed.

(** What the call leaves in the index buffer for the building at place
    [k]: the 36 indices of a box, on the base index read from the vertex
    buffer as the first [k] buildings have left it. *)
Lemma createBuildingBuffers_indices_at bs v i k b :
  nth_error bs k = Some b ->
  firstn 36 (skipn (length i + 36 * k) (snd (createBuildingBuffers bs v i))) =
  box_indices (base_index (fst (createBuildingBuffers (firstn k bs) v i))).
Proof.
  intros Hk.
  destruct (nth_error_split bs k Hk) as [l1 [l2 [Hbs Hl1]]].
  assert (Hfirst : firstn k bs = l1).
  { rewrite Hbs, <- Hl1, firstn_app, Nat.sub_diag, firstn_all.
    simpl. apply app_nil_r. }
  rewrite Hfirst. rewrite Hbs at 1.
  rewrite createBuildingBuffers_app.
  destruct (createBuildingBuffers_length l1 v i) as [_ Hli].
  destruct (createBuildingBuffers l1 v i) as [v1 i1]. simpl snd in Hli.
  rewrite createBuildingBuffers_cons. simpl fst.
  destruct (createBuildingBuffers_prefix l2 (v1 ++ box_vertices b)
              (i1 ++ box_indices (base_index v1))) as [v' [i' [E _]]].
  rewrite E. simpl snd. rewrite <- Hl1, <- Hli.
  rewrite <- app_assoc, skipn_app, skipn_all, Nat.sub_diag, skipn_O.
  rewrite app_nil_l, firstn_app, box_indices_length, Nat.sub_diag, firstn_O.
  rewrite app_nil_r. apply firstn_all2. rewrite box_indices_length. lia.
Qed.

(** Likewise the 48 floats of its eight vertices. *)
Lemma createBuildingBuffers_vertices_at bs v i k b :
  nth_error bs k = Some b ->
  firstn 48 (skipn (length v + 48 * k) (fst (createBuildingBuffers bs v i))) =
  box_vertices b.
Proof.
  intros Hk.
  destruct (nth_error_split bs k Hk) as [l1 [l2 [Hbs Hl1]]].
  rewrite Hbs. rewrite createBuildingBuffers_app.
  destruct (createBuildingBuffers_length l1 v i) as [Hlv _].
  destruct (createBuildingBuffers l1 v i) as [v1 i1]. simpl fst in Hlv.
  rewrite createBuildingBuffers_cons.
  destruct (createBuildingBuffers_prefix l2 (v1 ++ box_vertices b)
              (i1 ++ box_indices (base_index v1))) as [v' [i' [E _]]].
  rewrite E. simpl fst. rewrite <- Hl1, <- Hlv.
  rewrite <- app_assoc, skipn_app, skipn_all, Nat.sub_diag, skipn_O.
  rewrite app_nil_l, firstn_app, box_vertices_length, Nat.sub_diag, firstn_O.
  rewrite app_nil_r. apply firstn_all2. rewrite box_vertices_length. lia.
Qed.

(** ** Claims on the vertices and indices of one box *)

(** The base index is an [unsigned int]. *)
Lemma base_index_range vertices : 0 <= base_index vertices < 2 ^ 32.
Proof. unfold base_index, u32. apply Z.mod_pos_bound. reflexivity. Qed.

(** While [baseIndex + 7] does not wrap, the additions are exact. *)
Lemma spec_indices_no_wrap baseIndex :
  0 <= baseIndex -> baseIndex + 7 < 2 ^ 32 ->
  spec_indices baseIndex = map (fun k => baseIndex + k) local_indices.
Proof.
  intros H0 Hb. unfold spec_indices. apply map_ext_in. intros k Hk.
  unfold u32. apply Z.mod_small.
  vm_compute in Hk.
  repeat (destruct Hk as [<-|Hk]; [lia|]). contradiction.
Qed.

(** C2.  For every descriptor the builder appends exactly 8 vertices, in the
    order bottom front-left, bottom front-right, bottom back-right, bottom
    back-left and then the same corners on top, with front/back at
    [position.z +/- depth/2], left/right at [position.x -/+ width/2] and
    bottom/top at [position.y -/+ height/2]; bottom vertices carry the raw
    colour and top vertices the colour plus 0.1 in each channel, not clamped.
    For position (0,0,0) and width = depth = height = 10, vertex 0 is
    (-5,-5,5, r,g,b) and vertex 6 is (5,5,-5, r+0.1,g+0.1,b+0.1). *)
Theorem box_vertices_as_specified :
  (forall (vertices : list float) (indices : list Z) (b : Building),
      fst (append_building (vertices, indices) b) = vertices ++ spec_vertices b /\
      length (spec_vertices b) = (8 * 6)%nat) /\
  (forall r g b : float,
      let vs := fst (createBuildingBuffers [cube10 r g b] [] []) in
      vertex vs 0 = [F32.of_Z (-5); F32.of_Z (-5); F32.of_Z 5; r; g; b] /\
      vertex vs 6 = [F32.of_Z 5; F32.of_Z 5; F32.of_Z (-5);
                     F32.add r F32.f0_1; F32.add g F32.f0_1; F32.add b F32.f0_1]) /\
  (let vs := fst (createBuildingBuffers [cube10 F32.f1 F32.f1 F32.f1] [] []) in
   nth_error (vertex vs 6) 3 = Some (F32.add F32.f1 F32.f0_1) /\
   F32.ltb F32.f1 (F32.add F32.f1 F32.f0_1) = true).
Proof.
  split; [|split].
  - intros vertices indices b. split; reflexivity.
  - intros r g b vs. split; reflexivity.
  - split; reflexivity.
Qed.

(** C3.  For every descriptor the builder appends exactly 36 indices, each
    [baseIndex + local index] in [unsigned int] arithmetic, in this face and
    triangle order: bottom (0,1,2),(2,3,0); top (4,7,6),(6,5,4); front
    (0,4,5),(5,1,0); right (1,5,6),(6,2,1); back (2,6,7),(7,3,2); left
    (3,7,4),(4,0,3). *)
Theorem box_indices_as_specified :
  forall (vertices : list float) (indices : list Z) (b : Building),
    let baseIndex := base_index vertices in
    snd (append_building (vertices, indices) b) = indices ++ spec_indices baseIndex /\
    length (spec_indices baseIndex) = 36%nat /\
    local_indices = [0; 1; 2; 2; 3; 0;  4; 7; 6; 6; 5; 4;  0; 4; 5; 5; 1; 0;
                     1; 5; 6; 6; 2; 1;  2; 6; 7; 7; 3; 2;  3; 7; 4; 4; 0; 3] /\
    (baseIndex + 7 < 2 ^ 32 ->
     spec_indices baseIndex = map (fun k => baseIndex + k) local_indices).
Proof.
  intros vertices indices b baseIndex.
  split; [reflexivity|]. split; [reflexivity|]. split; [reflexivity|].
  intros Hb. apply spec_indices_no_wrap; [|exact Hb].
  apply base_index_range.
Qed.

Lemma box_indices_as_specified_witness :
  spec_indices (base_index (box_vertices ground)) =
  map (fun k => 8 + k) local_indices.
Proof.
  destruct (box_indices_as_specified (box_vertices ground) [] ground)
    as [_ [_ [_ H]]].
  apply H. vm_compute. reflexivity.
Defined.

(** ** Claims on the buffers as a whole *)

(** C6.  Processing one descriptor appends exactly 48 floats (8 vertices)
    to the vertex buffer and exactly 36 entries to the index buffer, and a
    vertex buffer whose length is a multiple of 6 before a descriptor is
    processed has a length that is a multiple of 6 after; so for 101
    descriptors, and for the city of [generateCity] with count 100, the
    builder started on empty buffers yields 808 vertices and 3636 indices. *)
Theorem append_building_sizes :
  (forall (vertices : list float) (indices : list Z) (b : Building),
      let after := append_building (vertices, indices) b in
      length (fst after) = (length vertices + 48)%nat /\
      length (snd after) = (length indices + 36)%nat /\
      ((length vertices mod 6 = 0)%nat -> (length (fst after) mod 6 = 0)%nat)) /\
  (forall (bs : list Building) (vertices : list float) (indices : list Z),
      let after := createBuildingBuffers bs vertices indices in
      length (fst after) = (length vertices + 48 * length bs)%nat /\
      length (snd after) = (length indices + 36 * length bs)%nat) /\
  (forall bs : list Building,
      length bs = 101%nat ->
      let after := createBuildingBuffers bs [] [] in
      length (fst after) = (6 * 808)%nat /\
      length (snd after) = 3636%nat) /\
  (forall (RNG : Type) (sample : uniform_real_distribution -> RNG -> float * RNG)
          (rng : RNG),
      let city := generateCity RNG sample [] 100 rng in
      let after := createBuildingBuffers city [] [] in
      length city = 101%nat /\
      length (fst after) = (6 * 808)%nat /\
      length (snd after) = 3636%nat).
Proof.
  assert (H101 : forall bs : list Building,
             length bs = 101%nat ->
             length (fst (createBuildingBuffers bs [] [])) = (6 * 808)%nat /\
             length (snd (createBuildingBuffers bs [] [])) = 3636%nat).
  { intros bs Hbs.
    destruct (createBuildingBuffers_length bs [] []) as [Hv Hi].
    rewrite Hv, Hi, Hbs. split; reflexivity. }
  split; [|split; [|split]].
  - intros vertices indices b after. subst after. unfold append_building.
    cbn [fst snd]. rewrite !length_app, box_vertices_length, box_indices_length.
    repeat split.
    intro Hm. rewrite Nat.Div0.add_mod, Hm by lia. reflexivity.
  - intros bs vertices indices after. apply createBuildingBuffers_length.
  - exact H101.
  - intros RNG sample rng city after.
    assert (Hc : length city = 101%nat).
    { unfold city. rewrite generateCity_length by lia. reflexivity. }
    split; [exact Hc|]. apply H101. exact Hc.
Qed.

Lemma append_building_sizes_witness :
  (length (fst (append_building (box_vertices ground, []) ground)) mod 6 = 0)%nat /\
  length (fst (createBuildingBuffers (repeat ground 101) [] [])) = (6 * 808)%nat /\
  length (snd (createBuildingBuffers (repeat ground 101) [] [])) = 3636%nat.
Proof.
  destruct append_building_sizes as [H1 [_ [H3 _]]].
  split.
  - destruct (H1 (box_vertices ground) [] ground) as [_ [_ Hm]].
    apply Hm. reflexivity.
  - apply H3. reflexivity.
Defined.

(** The base index the builder reads for the building at place [k] when it
    starts on empty buffers. *)
Lemma base_index_from_empty bs k :
  (k <= length bs)%nat ->
  base_index (fst (createBuildingBuffers (firstn k bs) [] [])) =
  u32 (8 * Z.of_nat k).
Proof.
  intros Hk. unfold base_index.
  destruct (createBuildingBuffers_length (firstn k bs) [] []) as [Hv _].
  rewrite Hv, length_firstn, Nat.min_l by assumption.
  f_equal. change (length (@nil float)) with 0%nat.
  replace (Z.of_nat (0 + 48 * k)) with (8 * Z.of_nat k * 6) by lia.
  apply Z.div_mul. lia.
Qed.

(** Every index of a box on [baseIndex] is one of [baseIndex + 0], ...,
    [baseIndex + 7], reduced modulo [2^32]. *)
Lemma box_indices_in baseIndex idx :
  In idx (box_indices baseIndex) ->
  exists j, 0 <= j <= 7 /\ idx = u32 (baseIndex + j).
Proof.
  intros Hin. unfold box_indices in Hin.
  repeat (destruct Hin as [<-|Hin];
          [eexists; split; [|reflexivity]; lia|]).
  contradiction.
Qed.

(** The indices of the building at place [k] when the builder starts on
    empty buffers. *)
Lemma indices_from_empty bs k b :
  nth_error bs k = Some b ->
  firstn 36 (skipn (36 * k) (snd (createBuildingBuffers bs [] []))) =
  box_indices (u32 (8 * Z.of_nat k)).
Proof.
  intros Hk.
  assert (Hlt : (k < length bs)%nat) by (apply nth_error_Some; congruence).
  rewrite <- base_index_from_empty with (bs := bs) by lia.
  rewrite <- (createBuildingBuffers_indices_at bs [] [] k b Hk).
  reflexivity.
Qed.

(** C5 fails where the indices wrap.  With [2^29 + 1] descriptors processed
    from empty buffers, the vertex buffer holds [6 * 2^32] floats when the
    last descriptor (number [k = 2^29]) is reached; its base index is
    [2^32] reduced to [unsigned int], that is [0], and its first index is
    [0], which is not in [[8k, 8k+7]]. *)
Lemma index_range_wraps :
  exists idx : Z,
    nth_error (repeat ground (S many_buildings)) many_buildings = Some ground /\
    In idx (firstn 36 (skipn (36 * many_buildings)
              (snd (createBuildingBuffers (repeat ground (S many_buildings)) [] [])))) /\
    ~ (8 * Z.of_nat many_buildings <= idx <= 8 * Z.of_nat many_buildings + 7).
Proof.
  assert (Hk : nth_error (repeat ground (S many_buildings)) many_buildings
               = Some ground).
  { apply nth_error_repeat. apply Nat.lt_succ_diag_r. }
  assert (Hmany : Z.of_nat many_buildings = 2 ^ 29).
  { unfold many_buildings. apply Z2Nat.id. discriminate. }
  exists 0. split; [exact Hk|]. split.
  - rewrite (indices_from_empty _ _ _ Hk), Hmany.
    change (u32 (8 * 2 ^ 29)) with 0. left. reflexivity.
  - rewrite Hmany. intros [H _]. apply H. reflexivity.
Qed.

(** C5, as the code has it.  The base index of a descriptor's 36 indices is
    the length in floats of the vertex buffer, read before the descriptor's
    vertices are appended, divided by 6 and converted to [unsigned int],
    that is reduced modulo [2^32].  When the builder starts on empty buffers
    and [8k + 7 < 2^32], every index emitted for the [k]-th descriptor lies
    in [[8k, 8k+7]]. *)
Theorem base_index_read_before_append :
  forall (bs : list Building) (vertices : list float) (indices : list Z)
         (k : nat) (b : Building),
    nth_error bs k = Some b ->
    let before := fst (createBuildingBuffers (firstn k bs) vertices indices) in
    let emitted :=
      firstn 36 (skipn (length indices + 36 * k)
                       (snd (createBuildingBuffers bs vertices indices))) in
    length before = (length vertices + 48 * k)%nat /\
    emitted = box_indices (Z.of_nat (length before) / 6 mod 2 ^ 32) /\
    (vertices = [] -> indices = [] -> 8 * Z.of_nat k + 7 < 2 ^ 32 ->
     forall idx, In idx emitted ->
       8 * Z.of_nat k <= idx <= 8 * Z.of_nat k + 7).
Proof.
  intros bs vertices indices k b Hk before emitted.
  assert (Hlt : (k < length bs)%nat) by (apply nth_error_Some; congruence).
  assert (He : emitted = box_indices (base_index before)).
  { apply createBuildingBuffers_indices_at with (b := b). exact Hk. }
  split.
  { unfold before.
    destruct (createBuildingBuffers_length (firstn k bs) vertices indices)
      as [Hv _].
    rewrite Hv, length_firstn, Nat.min_l by lia. reflexivity. }
  split; [exact He|].
  intros -> -> Hsmall idx Hin. rewrite He in Hin.
  unfold before in Hin. rewrite base_index_from_empty in Hin by lia.
  apply box_indices_in in Hin. destruct Hin as [j [Hj ->]].
  unfold u32. rewrite Z.add_mod_idemp_l by lia.
  rewrite Z.mod_small by lia. lia.
Qed.

Lemma base_index_read_before_append_witness :
  In 23 (firstn 36 (skipn (0 + 36 * 2)
           (snd (createBuildingBuffers [ground; ground; ground] [] [])))) /\
  8 * 2 <= 23 <= 8 * 2 + 7.
Proof.
  assert (Hin : In 23 (firstn 36 (skipn (0 + 36 * 2)
                  (snd (createBuildingBuffers [ground; ground; ground] [] []))))).
  { vm_compute. tauto. }
  split; [exact Hin|].
  destruct (base_index_read_before_append [ground; ground; ground] [] []
              2 ground eq_refl) as [_ [_ H]].
  apply (H eq_refl eq_refl); [vm_compute; reflexivity | exact Hin].
Defined.

(** ** Winding *)

Lemma box_vertices_box_of b :
  box_vertices b =
  box_of (x_left b) (x_right b) (y_bottom b) (y_top b) (z_back b) (z_front b)
         (color b)
         (mk_vec3 (F32.add (vr (color b)) F32.f0_1)
                  (F32.add (vg (color b)) F32.f0_1)
                  (F32.add (vb (color b)) F32.f0_1)).
Proof. reflexivity. Qed.

(** A vertex of the box just appended is read past the [n] vertices the
    buffer held before. *)
Lemma vertex_position_app (v box : list float) (n : nat) (j : Z) :
  length v = (6 * n)%nat -> 0 <= j ->
  vertex_position (v ++ box) (Z.of_nat n + j) = vertex_position box j.
Proof.
  intros Hv Hj. unfold vertex_position.
  replace (6 * Z.to_nat (Z.of_nat n + j))%nat
    with (length v + 6 * Z.to_nat j)%nat by lia.
  rewrite <- !Nat.add_assoc, !app_nth2_plus. reflexivity.
Qed.

Lemma base_index_whole (v : list float) (n : nat) :
  length v = (6 * n)%nat -> Z.of_nat n < 2 ^ 32 ->
  base_index v = Z.of_nat n.
Proof.
  intros Hv Hn. unfold base_index, u32. rewrite Hv.
  replace (Z.of_nat (6 * n)) with (Z.of_nat n * 6) by lia.
  rewrite Z.div_mul by lia. apply Z.mod_small. lia.
Qed.

(** The triangles of a box whose base index does not wrap. *)
Lemma triangles_box_indices (base : Z) :
  0 <= base -> base + 7 < 2 ^ 32 ->
  triangles (box_indices base) =
  map (fun t : Z * Z * Z =>
         let '(i0, i1, i2) := t in (base + i0, base + i1, base + i2))
      (flat_map face_triangles faces).
Proof.
  intros H0 H7. change (box_indices base) with (spec_indices base).
  rewrite spec_indices_no_wrap by assumption. reflexivity.
Qed.

(** C4 fails: on the box of width, depth and height 10 at the origin, the
    first triangle emitted, (0,1,2) of the bottom face, has the normal
    (0, 100, 0).  It points up, into the box, and not along the outward
    direction (0, -1, 0) of the bottom face. *)
Lemma cube_bottom_normal_points_inward :
  let b := cube10 F32.f0_5 F32.f0_5 F32.f0_5 in
  let vertices := fst (createBuildingBuffers [b] [] []) in
  let indices := snd (createBuildingBuffers [b] [] []) in
  let tri := (0, 1, 2) in
  F32.ltb F32.f0 (width b) = true /\
  F32.ltb F32.f0 (depth b) = true /\
  F32.ltb F32.f0 (height b) = true /\
  nth_error (triangles indices) 0 = Some tri /\
  face_of_triangle 0 = Bottom /\
  (dot (triangle_normal vertices tri) (outward Bottom) == -100)%Q /\
  ~ (0 < dot (triangle_normal vertices tri) (outward Bottom))%Q.
Proof.
  repeat split.
  vm_compute. discriminate.
Qed.

(** The position of each corner of a box given by its coordinates. *)
Lemma box_of_positions (xl xr yb yt zb zf : float) (c ct : vec3) :
  let box := box_of xl xr yb yt zb zf c ct in
  let X := F32.to_Q in
  vertex_position box 0 = (X xl, X yb, X zf) /\
  vertex_position box 1 = (X xr, X yb, X zf) /\
  vertex_position box 2 = (X xr, X yb, X zb) /\
  vertex_position box 3 = (X xl, X yb, X zb) /\
  vertex_position box 4 = (X xl, X yt, X zf) /\
  vertex_position box 5 = (X xr, X yt, X zf) /\
  vertex_position box 6 = (X xr, X yt, X zb) /\
  vertex_position box 7 = (X xl, X yt, X zb).
Proof. repeat split. Qed.

(** The winding of the twelve triangles of a box with the given corner
    coordinates: every normal points against the outward direction of its
    face, and towards the centre of the box. *)
Lemma box_of_winding (xl xr yb yt zb zf : float) (c ct : vec3) (t : nat)
    (tri : Z * Z * Z) :
  (F32.to_Q xl < F32.to_Q xr)%Q ->
  (F32.to_Q yb < F32.to_Q yt)%Q ->
  (F32.to_Q zb < F32.to_Q zf)%Q ->
  nth_error (flat_map face_triangles faces) t = Some tri ->
  let box := box_of xl xr yb yt zb zf c ct in
  let normal := triangle_normal box tri in
  let centre := midpoint (vertex_position box 0) (vertex_position box 6) in
  (dot normal (outward (face_of_triangle t)) < 0)%Q /\
  (dot normal (qsub (vertex_position box (fst (fst tri))) centre) < 0)%Q.
Proof.
  intros Hx Hy Hz Ht box normal centre.
  destruct (box_of_positions xl xr yb yt zb zf c ct)
    as (P0 & P1 & P2 & P3 & P4 & P5 & P6 & P7).
  fold box in P0, P1, P2, P3, P4, P5, P6, P7.
  subst normal centre. unfold triangle_normal.
  revert Hx Hy Hz Ht.
  generalize (F32.to_Q xl) (F32.to_Q xr) (F32.to_Q yb) (F32.to_Q yt)
             (F32.to_Q zb) (F32.to_Q zf) P0 P1 P2 P3 P4 P5 P6 P7.
  clearbody box. clear.
  intros x1 x2 y1 y2 z1 z2 P0 P1 P2 P3 P4 P5 P6 P7 Hx Hy Hz Ht.
  assert (Dx : (0 < x2 - x1)%Q) by lra.
  assert (Dy : (0 < y2 - y1)%Q) by lra.
  assert (Dz : (0 < z2 - z1)%Q) by lra.
  pose proof (Qmult_lt_0_compat _ _ Dx Dy) as Dxy.
  pose proof (Qmult_lt_0_compat _ _ Dx Dz) as Dxz.
  pose proof (Qmult_lt_0_compat _ _ Dy Dz) as Dyz.
  pose proof (Qmult_lt_0_compat _ _ Dxy Dz) as Dxyz.
  do 12 (destruct t as [|t];
    [ injection Ht as <-; cbn [fst snd];
      rewrite ?P0, ?P1, ?P2, ?P3, ?P4, ?P5, ?P6, ?P7;
      match goal with
      | |- context [face_of_triangle ?k] =>
          let f := eval vm_compute in (face_of_triangle k) in
          change (face_of_triangle k) with f
      end;
      cbv [cross qsub dot midpoint outward]; split; nra | ]).
  destruct t; discriminate.
Qed.

Lemma local_triangle_nonneg t i0 i1 i2 :
  nth_error (flat_map face_triangles faces) t = Some (i0, i1, i2) ->
  0 <= i0 /\ 0 <= i1 /\ 0 <= i2.
Proof.
  intros Ht.
  do 12 (destruct t as [|t]; [injection Ht as <- <- <-; lia|]).
  destruct t; discriminate.
Qed.

(** C4, as the code has it.  For every descriptor whose emitted box is a
    proper box (finite coordinates with left < right, bottom < top and
    back < front), appended where the indices do not wrap, each of the 12
    triangles emitted is wound the same way, and that way is inward: the
    cross product of its edges, in emission order, points against the
    outward direction of the face the triangle belongs to and towards the
    centre of the box. *)
Theorem box_winding_inward :
  forall (vertices : list float) (indices : list Z) (b : Building) (n : nat),
    length vertices = (6 * n)%nat ->
    Z.of_nat n + 7 < 2 ^ 32 ->
    proper_box b ->
    let after := append_building (vertices, indices) b in
    let emitted := triangles (box_indices (base_index vertices)) in
    let corner j := vertex_position (fst after) (base_index vertices + j) in
    let centre := midpoint (corner 0) (corner 6) in
    snd after = indices ++ box_indices (base_index vertices) /\
    length emitted = 12%nat /\
    forall (t : nat) (tri : Z * Z * Z),
      nth_error emitted t = Some tri ->
      let normal := triangle_normal (fst after) tri in
      (dot normal (outward (face_of_triangle t)) < 0)%Q /\
      (dot normal (qsub (vertex_position (fst after) (fst (fst tri))) centre) < 0)%Q.
Proof.
  intros vertices indices b n Hlen Hn Hbox after emitted corner centre.
  assert (Hbase : base_index vertices = Z.of_nat n)
    by (apply base_index_whole; [assumption | lia]).
  assert (Hem : emitted =
                map (fun t : Z * Z * Z =>
                       let '(i0, i1, i2) := t in
                       (Z.of_nat n + i0, Z.of_nat n + i1, Z.of_nat n + i2))
                    (flat_map face_triangles faces)).
  { unfold emitted. rewrite Hbase. apply triangles_box_indices; lia. }
  split; [reflexivity|]. split; [rewrite Hem; reflexivity|].
  intros t tri Ht normal.
  rewrite Hem, nth_error_map in Ht.
  destruct (nth_error (flat_map face_triangles faces) t)
    as [[[i0 i1] i2]|] eqn:Hloc; [|discriminate].
  injection Ht as <-.
  destruct (local_triangle_nonneg t i0 i1 i2 Hloc) as (H0 & H1 & H2).
  destruct Hbox as (_ & _ & _ & _ & _ & _ & Hx & Hy & Hz).
  pose proof (box_of_winding _ _ _ _ _ _ (color b)
                (mk_vec3 (F32.add (vr (color b)) F32.f0_1)
                         (F32.add (vg (color b)) F32.f0_1)
                         (F32.add (vb (color b)) F32.f0_1))
                t (i0, i1, i2) Hx Hy Hz Hloc) as Hw.
  rewrite <- box_vertices_box_of in Hw. cbn zeta in Hw. cbn [fst] in Hw.
  subst normal centre corner. unfold after, append_building.
  cbn [fst snd]. unfold triangle_normal. rewrite Hbase.
  rewrite !(vertex_position_app vertices (box_vertices b) n) by (assumption || lia).
  exact Hw.
Qed.

Lemma box_winding_inward_witness :
  let tri := (8, 9, 10) in
  proper_box ground /\
  (dot (triangle_normal (box_vertices ground ++ box_vertices ground) tri)
       (outward Bottom) < 0)%Q.
Proof.
  intro tri.
  assert (Hbox : proper_box ground).
  { unfold proper_box. repeat split. }
  split; [exact Hbox|].
  destruct (box_winding_inward (box_vertices ground) [] ground 8
              eq_refl ltac:(vm_compute; reflexivity) Hbox) as (_ & _ & H).
  destruct (H 0%nat tri eq_refl) as [Hout _].
  exact Hout.
Defined.

(** Positive width, depth and height alone do not make a proper box: at
    [position.x = 2^30] a half width of [0.5] is lost to rounding, left and
    right coincide, and the bottom triangle has the normal zero. *)
Lemma absorbed_half_extent :
  let b := {| position := mk_vec3 (F32.of_Z (2 ^ 30)) F32.f0 F32.f0;
              width := F32.f1; depth := F32.f1; height := F32.f1;
              color := mk_vec3 F32.f0_5 F32.f0_5 F32.f0_5 |} in
  let tri := (0, 1, 2) in
  F32.ltb F32.f0 (width b) = true /\
  F32.ltb F32.f0 (depth b) = true /\
  F32.ltb F32.f0 (height b) = true /\
  x_left b = x_right b /\
  (dot (triangle_normal (box_vertices b) tri) (outward Bottom) == 0)%Q.
Proof. repeat split. Qed.

(** ** Claims on the generated buildings *)

(** A bound of a range that is not empty compares equal to itself. *)
Lemma leb_lower_bound (a b : float) :
  F32.leb a b = true -> F32.leb a a = true.
Proof.
  unfold F32.leb, SFleb.
  destruct a as [sa|sa| |sa ma ea]; try (destruct sa; reflexivity).
  - destruct b; discriminate.
  - intros _. simpl. destruct sa;
      rewrite Z.compare_refl, Pos.compare_cont_refl; reflexivity.
Qed.

Section Sampling.

Variable RNG : Type.
Variable sample : uniform_real_distribution -> RNG -> float * RNG.

(** The fields of a generated building are the draws of the matching
    distributions; [position.y] is the literal [0.0f]. *)
Lemma random_building_fields (i : Z) (g : RNG) :
  let b := fst (random_building RNG sample i g) in
  exists gx gz gw gd gh gc : RNG,
    vx (position b) = fst (sample posDistX gx) /\
    vy (position b) = F32.f0 /\
    vz (position b) = fst (sample posDistZ gz) /\
    width b = fst (sample sizeDistWidth gw) /\
    depth b = fst (sample sizeDistDepth gd) /\
    height b = fst (sample heightDist gh) /\
    color b = fst (building_color RNG sample i gc).
Proof.
  unfold random_building, bind.
  destruct (sample posDistX g) as [px g1] eqn:E1.
  destruct (sample posDistZ g1) as [pz g2] eqn:E2.
  destruct (sample sizeDistWidth g2) as [w g3] eqn:E3.
  destruct (sample sizeDistDepth g3) as [d g4] eqn:E4.
  destruct (sample heightDist g4) as [h g5] eqn:E5.
  destruct (building_color RNG sample i g5) as [c g6] eqn:E6.
  exists g, g1, g2, g3, g4, g5. cbn.
  rewrite E1, E2, E3, E4, E5, E6. repeat split.
Qed.

(** The colour of building [i] is made of three draws of [colorDist], by
    the bright formula when [i] is a multiple of 5 and by the muted one
    otherwise. *)
Lemma building_color_form (i : Z) (g : RNG) :
  exists g1 g2 g3 : RNG,
    let c1 := fst (sample colorDist g1) in
    let c2 := fst (sample colorDist g2) in
    let c3 := fst (sample colorDist g3) in
    fst (building_color RNG sample i g) =
    if Z.rem i 5 =? 0 then
      mk_vec3 (F32.add (F32.mul c1 F32.f0_5) F32.f0_5)
              (F32.add (F32.mul c2 F32.f0_5) F32.f0_5)
              (F32.add (F32.mul c3 F32.f0_5) F32.f0_5)
    else
      mk_vec3 (F32.mul c1 F32.f0_3)
              (F32.mul c2 F32.f0_3)
              (F32.add (F32.mul c3 F32.f0_5) F32.f0_3).
Proof.
  unfold building_color, bind.
  destruct (sample colorDist g) as [c1 g1] eqn:E1.
  destruct (sample colorDist g1) as [c2 g2] eqn:E2.
  destruct (sample colorDist g2) as [c3 g3] eqn:E3.
  exists g, g1, g2. cbn zeta. rewrite E1, E2, E3.
  destruct (Z.rem i 5 =? 0); rewrite E1, E2, E3; reflexivity.
Qed.

(** A descriptor of [generateCity] before the ground plane is the building
    generated for its place. *)
Lemma generateCity_nth_random (N : Z) (rng : RNG) (k : nat) (b : Building) :
  Z.of_nat k < N ->
  nth_error (generateCity RNG sample [] N rng) k = Some b ->
  exists g, b = fst (random_building RNG sample (Z.of_nat k) g).
Proof.
  intros Hk Hn. rewrite generateCity_unfold in Hn. simpl app in Hn.
  rewrite nth_error_app1 in Hn.
  - apply generate_loop_nth in Hn. exact Hn.
  - rewrite generate_loop_length by (f_equal; lia). lia.
Qed.

End Sampling.

(** C7.  For every [N >= 0] and every random source whose draws lie within
    the range of their distribution, every non-ground descriptor of
    [generateCity(N)] has width in [[5,15]], depth in [[5,15]], height in
    [[10,60]], position.x in [[-100,100]], position.z in [[-100,100]] and
    position.y = 0. *)
Theorem random_building_ranges :
  forall (RNG : Type) (sample : uniform_real_distribution -> RNG -> float * RNG),
    (forall d g, F32.leb (dist_a d) (dist_b d) = true ->
                 F32.leb (dist_a d) (fst (sample d g)) = true /\
                 F32.leb (fst (sample d g)) (dist_b d) = true) ->
    forall (N : Z) (rng : RNG) (k : nat) (b : Building),
      0 <= N ->
      Z.of_nat k < N ->
      nth_error (generateCity RNG sample [] N rng) k = Some b ->
      (F32.leb (F32.of_Z 5) (width b) = true /\
       F32.leb (width b) (F32.of_Z 15) = true) /\
      (F32.leb (F32.of_Z 5) (depth b) = true /\
       F32.leb (depth b) (F32.of_Z 15) = true) /\
      (F32.leb (F32.of_Z 10) (height b) = true /\
       F32.leb (height b) (F32.of_Z 60) = true) /\
      (F32.leb (F32.of_Z (-100)) (vx (position b)) = true /\
       F32.leb (vx (position b)) (F32.of_Z 100) = true) /\
      (F32.leb (F32.of_Z (-100)) (vz (position b)) = true /\
       F32.leb (vz (position b)) (F32.of_Z 100) = true) /\
      vy (position b) = F32.of_Z 0.
Proof.
  intros RNG sample Hrange N rng k b HN Hk Hnth.
  destruct (generateCity_nth_random RNG sample N rng k b Hk Hnth) as [g ->].
  destruct (random_building_fields RNG sample (Z.of_nat k) g)
    as (gx & gz & gw & gd & gh & gc & Ex & Ey & Ez & Ew & Ed & Eh & _).
  cbn zeta in *. rewrite Ex, Ey, Ez, Ew, Ed, Eh.
  repeat split;
    first [ apply (Hrange sizeDistWidth) | apply (Hrange sizeDistDepth)
          | apply (Hrange heightDist) | apply (Hrange posDistX)
          | apply (Hrange posDistZ) ]; reflexivity.
Qed.

Lemma random_building_ranges_witness :
  nth_error (generateCity nat low_sample [] 3 0%nat) 1 =
  Some (fst (random_building nat low_sample 1 8%nat)) /\
  F32.leb (F32.of_Z 5)
    (width (fst (random_building nat low_sample 1 8%nat))) = true.
Proof.
  split; [reflexivity|].
  refine (proj1 (proj1 (random_building_ranges nat low_sample _ 3 0%nat 1%nat
                          _ _ _ eq_refl))); [|lia|lia].
  intros d g Hd. split; [|exact Hd].
  exact (leb_lower_bound _ _ Hd).
Defined.

(** ** Rounding to binary32 *)

(** The number of binary digits of a mantissa. *)
Lemma digits2_pos_bounds (p : positive) :
  2 ^ (Zpos (digits2_pos p) - 1) <= Zpos p < 2 ^ Zpos (digits2_pos p).
Proof.
  induction p as [p IH|p IH|]; cbn [digits2_pos].
  - rewrite Pos2Z.inj_succ.
    replace (Z.succ (Zpos (digits2_pos p)) - 1)
      with (Z.succ (Zpos (digits2_pos p) - 1)) by lia.
    rewrite !Z.pow_succ_r by lia. lia.
  - rewrite Pos2Z.inj_succ.
    replace (Z.succ (Zpos (digits2_pos p)) - 1)
      with (Z.succ (Zpos (digits2_pos p) - 1)) by lia.
    rewrite !Z.pow_succ_r by lia. lia.
  - cbn. lia.
Qed.

Lemma digits2_pos_unique (p : positive) (k : Z) :
  2 ^ (k - 1) <= Zpos p < 2 ^ k -> Zpos (digits2_pos p) = k.
Proof.
  intros [Hlo Hhi]. pose proof (digits2_pos_bounds p) as [Dlo Dhi].
  set (d := Zpos (digits2_pos p)) in *.
  assert (Hd : 0 < d) by (unfold d; lia).
  destruct (Z.lt_trichotomy d k) as [Hlt|[Heq|Hgt]]; [|exact Heq|].
  - assert (2 ^ d <= 2 ^ (k - 1)) by (apply Z.pow_le_mono_r; lia). lia.
  - assert (Hk : 0 <= k).
    { destruct (Z.lt_ge_cases k 0) as [Hn|Hn]; [|exact Hn].
      rewrite (Z.pow_neg_r 2 k) in Hhi by assumption. lia. }
    assert (2 ^ k <= 2 ^ (d - 1)) by (apply Z.pow_le_mono_r; lia). lia.
Qed.

Lemma shifted_0 (M : Z) : shifted M 0 (shr_record_of_loc M loc_Exact).
Proof.
  unfold shifted. cbn. rewrite Z.div_1_r, Z.mod_1_r.
  repeat split; try discriminate; try lia.
Qed.

Lemma shr_1_shifted (M k : Z) (mrs : shr_record) :
  0 <= M -> 0 <= k -> shifted M k mrs -> shifted M (k + 1) (shr_1 mrs).
Proof.
  intros HM Hk [Hm [Hr Hs]]. destruct mrs as [m r s].
  cbn [shr_m shr_r shr_s] in *.
  assert (Hm0 : 0 <= m) by (rewrite Hm; apply Z.div_pos; lia).
  assert (Hp : 0 < 2 ^ k) by (apply Z.pow_pos_nonneg; lia).
  assert (Hdiv : M / 2 ^ (k + 1) = m / 2).
  { rewrite Z.pow_add_r, Z.pow_1_r by lia.
    rewrite <- Z.div_div by lia. rewrite Hm. reflexivity. }
  assert (Hmod : M mod 2 ^ (k + 1) = M mod 2 ^ k + 2 ^ k * (m mod 2)).
  { rewrite Z.pow_add_r, Z.pow_1_r by lia.
    rewrite Z.rem_mul_r by lia. rewrite <- Hm. reflexivity. }
  assert (Hpk : 2 ^ (k + 1) = 2 * 2 ^ k)
    by (rewrite Z.pow_add_r, Z.pow_1_r by lia; lia).
  pose proof (Z.mod_pos_bound M (2 ^ k) Hp) as Hrem.
  assert (Hors : orb r s = true <-> M mod 2 ^ k <> 0).
  { destruct r, s; cbn; intuition lia. }
  unfold shifted. rewrite Hdiv, Hmod, Hpk. clear Hdiv Hmod Hpk Hr Hs Hm.
  destruct m as [|[p|p|]|p]; cbn [shr_1 shr_m shr_r shr_s]; try lia.
  - change (0 mod 2) with 0. change (0 / 2) with 0.
    repeat split; try discriminate; try lia; intuition lia.
  - rewrite Pos2Z.inj_xI.
    replace ((2 * Zpos p + 1) mod 2) with 1
      by (apply Z.mod_unique with (Zpos p); lia).
    replace ((2 * Zpos p + 1) / 2) with (Zpos p)
      by (apply Z.div_unique with 1; lia).
    repeat split; try discriminate; try lia; intuition lia.
  - rewrite Pos2Z.inj_xO.
    replace ((2 * Zpos p) mod 2) with 0
      by (apply Z.mod_unique with (Zpos p); lia).
    replace (2 * Zpos p / 2) with (Zpos p)
      by (apply Z.div_unique with 0; lia).
    repeat split; try discriminate; try lia; intuition lia.
  - change (1 mod 2) with 1. change (1 / 2) with 0.
    repeat split; try discriminate; try lia; intuition lia.
Qed.

Lemma iter_shr_1_shifted (M : Z) (p : positive) :
  0 <= M ->
  forall (k : Z) (mrs : shr_record),
    0 <= k -> shifted M k mrs -> shifted M (k + Zpos p) (iter_pos shr_1 p mrs).
Proof.
  intros HM. induction p as [p IH|p IH|]; intros k mrs Hk Hs; cbn [iter_pos].
  - replace (k + Zpos p~1) with (k + 1 + Zpos p + Zpos p) by lia.
    apply IH; [lia|]. apply IH; [lia|]. apply shr_1_shifted; assumption.
  - replace (k + Zpos p~0) with (k + Zpos p + Zpos p) by lia.
    apply IH; [lia|]. apply IH; assumption.
  - apply shr_1_shifted; assumption.
Qed.

(** The first step of rounding: the mantissa shifted, and the bits that
    tell how the rest is to be rounded. *)
Lemma shr_shifted (M e n : Z) :
  0 <= M -> 0 <= n ->
  let (mrs, e') := shr (shr_record_of_loc M loc_Exact) e n in
  e' = e + n /\ shifted M n mrs.
Proof.
  intros HM Hn. unfold shr. destruct n as [|p|p]; try lia.
  - split; [lia | apply shifted_0].
  - split; [reflexivity|].
    apply (iter_shr_1_shifted M p HM 0); [lia | apply shifted_0].
Qed.

(** Rounding to nearest, ties to even: the mantissa rounded is the quotient
    or its successor, whichever is nearer to [M / 2^k]. *)
Lemma round_nearest_even_shifted (M k : Z) (mrs : shr_record) :
  0 <= M -> 0 <= k -> shifted M k mrs ->
  let m' := round_nearest_even (shr_m mrs) (loc_of_shr_record mrs) in
  (m' = M / 2 ^ k /\ 2 * (M mod 2 ^ k) <= 2 ^ k) \/
  (m' = M / 2 ^ k + 1 /\ 2 ^ k <= 2 * (M mod 2 ^ k)).
Proof.
  intros HM Hk [Hm [Hr Hs]].
  assert (Hp : 0 < 2 ^ k) by (apply Z.pow_pos_nonneg; lia).
  pose proof (Z.mod_pos_bound M (2 ^ k) Hp) as Hrem.
  destruct mrs as [m [|] [|]]; cbn [shr_m shr_r shr_s] in *;
    cbn [round_nearest_even loc_of_shr_record shr_m]; rewrite <- Hm.
  - right. split; [reflexivity | apply Hr; reflexivity].
  - assert (2 ^ k <= 2 * (M mod 2 ^ k)) by (apply Hr; reflexivity).
    assert (2 * (M mod 2 ^ k) = 2 ^ k).
    { destruct (Z.eq_dec (2 * (M mod 2 ^ k)) (2 ^ k)) as [E|E]; [exact E|].
      assert (false = true) by (apply Hs; lia). discriminate. }
    destruct (Z.even m); [left | right]; split; lia.
  - left. split; [reflexivity|].
    destruct (Z.le_gt_cases (2 ^ k) (2 * (M mod 2 ^ k))) as [H|H]; [|lia].
    assert (false = true) by (apply Hr; exact H). discriminate.
  - left. split; [reflexivity|].
    destruct (Z.le_gt_cases (2 ^ k) (2 * (M mod 2 ^ k))) as [H|H]; [|lia].
    assert (false = true) by (apply Hr; exact H). discriminate.
Qed.

(** What [binary_round_aux] makes of an exact positive mantissa of at least
    24 digits, above the subnormal range: the mantissa is cut to 24 digits,
    rounded, and renormalised when rounding carries into a 25th digit. *)
Lemma binary_round_aux_normal (M : positive) (E : Z) :
  let n := Zpos (digits2_pos M) - 24 in
  let m1 := Zpos M / 2 ^ n in
  0 <= n -> -149 <= E + n ->
  2 ^ 23 <= m1 < 2 ^ 24 /\
  exists m2 : positive,
    ((Zpos m2 = m1 /\ 2 * (Zpos M mod 2 ^ n) <= 2 ^ n) \/
     (Zpos m2 = m1 + 1 /\ 2 ^ n <= 2 * (Zpos M mod 2 ^ n))) /\
    binary_round_aux F32.prec F32.emax false (Zpos M) E loc_Exact =
    if Zpos m2 <? 2 ^ 24 then finite_or_infinity m2 (E + n)
    else finite_or_infinity (2 ^ 23) (E + n + 1).
Proof.
  intros n m1 Hn He.
  pose proof (digits2_pos_bounds M) as [Dlo Dhi].
  set (d := Zpos (digits2_pos M)) in *.
  assert (Hd : d = 24 + n) by (unfold n; lia).
  assert (Hpn : 0 < 2 ^ n) by (apply Z.pow_pos_nonneg; lia).
  assert (Hm1 : 2 ^ 23 <= m1 < 2 ^ 24).
  { unfold m1. rewrite Hd in Dlo, Dhi.
    replace (24 + n - 1) with (23 + n) in Dlo by lia.
    rewrite Z.pow_add_r in Dlo, Dhi by lia. split.
    - apply Z.div_le_lower_bound; lia.
    - apply Z.div_lt_upper_bound; lia. }
  split; [exact Hm1|].
  unfold binary_round_aux, shr_fexp.
  assert (Hfexp : fexp F32.prec F32.emax (Zdigits2 (Zpos M) + E) - E = n).
  { unfold fexp, emin, F32.prec, F32.emax. cbn [Zdigits2]. fold d. lia. }
  rewrite Hfexp.
  pose proof (shr_shifted (Zpos M) E n ltac:(lia) Hn) as Hs.
  destruct (shr (shr_record_of_loc (Zpos M) loc_Exact) E n) as [mrs e1].
  destruct Hs as [-> Hs].
  pose proof (round_nearest_even_shifted (Zpos M) n mrs ltac:(lia) Hn Hs)
    as Hr.
  cbn zeta in Hr. fold m1 in Hr.
  set (m2 := round_nearest_even (shr_m mrs) (loc_of_shr_record mrs)) in *.
  assert (Hm2 : 2 ^ 23 <= m2 <= 2 ^ 24)
    by (destruct Hr as [[-> _]|[-> _]]; lia).
  destruct m2 as [|q|q] eqn:Eq; try lia.
  exists q. split; [exact Hr|].
  cbn [Zdigits2].
  destruct (Z.ltb_spec (Zpos q) (2 ^ 24)) as [Hlt|Hge].
  - rewrite (digits2_pos_unique q 24) by lia.
    replace (fexp F32.prec F32.emax (24 + (E + n)) - (E + n)) with 0
      by (unfold fexp, emin, F32.prec, F32.emax; lia).
    cbn. reflexivity.
  - assert (Hq : q = (2 ^ 24)%positive) by lia. subst q.
    change (Zpos (digits2_pos (2 ^ 24))) with 25.
    replace (fexp F32.prec F32.emax (25 + (E + n)) - (E + n)) with 1
      by (unfold fexp, emin, F32.prec, F32.emax; lia).
    cbn. reflexivity.
Qed.

(** ** Values as integers times a power of two *)

Lemma pow2_pos (k : Z) : (0 < F32.pow2 k)%Q.
Proof. apply Qpower_0_lt. reflexivity. Qed.

Lemma pow2_add (a b : Z) : (F32.pow2 (a + b) == F32.pow2 a * F32.pow2 b)%Q.
Proof. apply Qpower_plus. discriminate. Qed.

Lemma pow2_nonneg (k : Z) : 0 <= k -> (F32.pow2 k == inject_Z (2 ^ k))%Q.
Proof. intros Hk. rewrite Zpower_Qpower by assumption. reflexivity. Qed.

(** A value written on a lower exponent [B]. *)
Lemma val_scale (m e B : Z) :
  B <= e -> (val m e == val (m * 2 ^ (e - B)) B)%Q.
Proof.
  intros HB. unfold val.
  replace e with (B + (e - B)) at 1 by lia.
  rewrite pow2_add, (pow2_nonneg (e - B)) by lia.
  rewrite inject_Z_mult. ring.
Qed.

Lemma val_le_same (a b B : Z) : (val a B <= val b B)%Q <-> a <= b.
Proof.
  unfold val. rewrite Qmult_le_r by apply pow2_pos.
  rewrite <- Zle_Qle. reflexivity.
Qed.

Lemma val_lt_same (a b B : Z) : (val a B < val b B)%Q <-> a < b.
Proof.
  unfold val. rewrite Qmult_lt_r by apply pow2_pos.
  rewrite <- Zlt_Qlt. reflexivity.
Qed.

Lemma val_le_iff (a b ea eb B : Z) :
  B <= ea -> B <= eb ->
  (val a ea <= val b eb)%Q <-> a * 2 ^ (ea - B) <= b * 2 ^ (eb - B).
Proof.
  intros Ha Hb. rewrite (val_scale a ea B), (val_scale b eb B) by assumption.
  apply val_le_same.
Qed.

Lemma val_lt_iff (a b ea eb B : Z) :
  B <= ea -> B <= eb ->
  (val a ea < val b eb)%Q <-> a * 2 ^ (ea - B) < b * 2 ^ (eb - B).
Proof.
  intros Ha Hb. rewrite (val_scale a ea B), (val_scale b eb B) by assumption.
  apply val_lt_same.
Qed.

Lemma to_Q_finite (m : positive) (e : Z) :
  F32.to_Q (S754_finite false m e) = val (Zpos m) e.
Proof. reflexivity. Qed.

(** Values of 24 digits compare as their exponents do. *)
Lemma normal_lt_exponent (a b ea eb : Z) :
  a < 2 ^ 24 -> 2 ^ 23 <= b -> ea < eb -> (val a ea < val b eb)%Q.
Proof.
  intros Ha Hb He. apply (val_lt_iff a b ea eb ea); [lia | lia |].
  rewrite Z.sub_diag, Z.pow_0_r, Z.mul_1_r.
  assert (2 ^ 1 <= 2 ^ (eb - ea)) by (apply Z.pow_le_mono_r; lia).
  change (2 ^ 1) with 2 in *.
  assert (0 < 2 ^ (eb - ea)) by lia. nia.
Qed.

(** Rounding is monotone and leaves binary32 numbers alone: an exact
    positive value between two normal numbers is rounded to a normal number
    between them. *)
Lemma binary_round_aux_bracket (M ml mh : positive) (E el eh : Z) :
  24 <= Zpos (digits2_pos M) ->
  normal ml el -> normal mh eh ->
  (val (Zpos ml) el <= val (Zpos M) E)%Q ->
  (val (Zpos M) E <= val (Zpos mh) eh)%Q ->
  exists (m : positive) (e : Z),
    binary_round_aux F32.prec F32.emax false (Zpos M) E loc_Exact =
      S754_finite false m e /\
    normal m e /\
    (val (Zpos ml) el <= val (Zpos m) e)%Q /\
    (val (Zpos m) e <= val (Zpos mh) eh)%Q.
Proof.
  intros Hd [Hml Hel] [Hmh Heh] HL HH.
  pose proof (digits2_pos_bounds M) as [Dlo Dhi].
  set (n := Zpos (digits2_pos M) - 24) in *.
  set (e' := E + n).
  assert (Hn : 0 <= n) by (unfold n; lia).
  assert (Hpn : 0 < 2 ^ n) by (apply Z.pow_pos_nonneg; lia).
  replace (Zpos (digits2_pos M) - 1) with (23 + n) in Dlo by (unfold n; lia).
  replace (Zpos (digits2_pos M)) with (24 + n) in Dhi by (unfold n; lia).
  rewrite Z.pow_add_r in Dlo, Dhi by lia.
  assert (F1 : (val (Zpos M) E < val (2 ^ 24) e')%Q).
  { apply (val_lt_iff _ _ E e' E); [lia | unfold e'; lia |].
    rewrite Z.sub_diag, Z.pow_0_r. replace (e' - E) with n by (unfold e'; lia).
    lia. }
  assert (F2 : (val (2 ^ 23) e' <= val (Zpos M) E)%Q).
  { apply (val_le_iff _ _ e' E E); [unfold e'; lia | lia |].
    rewrite Z.sub_diag, Z.pow_0_r. replace (e' - E) with n by (unfold e'; lia).
    lia. }
  (* the exponent of the lower bound is at most that of the result *)
  assert (Hle : el <= e').
  { destruct (Z.le_gt_cases el e') as [H|H]; [exact H|exfalso].
    assert (Hc : (val (2 ^ 24) e' <= val (Zpos ml) el)%Q).
    { apply (val_le_iff _ _ e' el e'); [lia | lia |].
      rewrite Z.sub_diag, Z.pow_0_r.
      assert (2 ^ 1 <= 2 ^ (el - e')) by (apply Z.pow_le_mono_r; lia).
      change (2 ^ 1) with 2 in *. nia. }
    apply (Qlt_irrefl (val (Zpos M) E)).
    eapply Qlt_le_trans; [exact F1|]. eapply Qle_trans; [exact Hc | exact HL]. }
  (* and that of the upper bound at least *)
  assert (Hge : e' <= eh).
  { destruct (Z.le_gt_cases e' eh) as [H|H]; [exact H|exfalso].
    assert (Hc : (val (Zpos mh) eh < val (2 ^ 23) e')%Q)
      by (apply normal_lt_exponent; lia).
    apply (Qlt_irrefl (val (Zpos M) E)).
    eapply Qle_lt_trans; [exact HH|]. eapply Qlt_le_trans; [exact Hc | exact F2]. }
  destruct (binary_round_aux_normal M E Hn ltac:(fold e'; lia))
    as [Hm1 [m2 [Hnear Hres]]].
  fold n in Hm1, Hnear, Hres. fold e' in Hres.
  set (m1 := Zpos M / 2 ^ n) in *.
  assert (Hdm : Zpos M = 2 ^ n * m1 + Zpos M mod 2 ^ n)
    by (apply Z.div_mod; lia).
  pose proof (Z.mod_pos_bound (Zpos M) (2 ^ n) Hpn) as Hrem.
  assert (Hm2 : Zpos m2 = m1 \/ (Zpos m2 = m1 + 1 /\ Zpos M mod 2 ^ n <> 0))
    by (destruct Hnear as [[H _]|[H H']]; [left | right; split]; lia).
  (* the lower bound *)
  assert (Hlow : (val (Zpos ml) el <= val (Zpos m2) e')%Q).
  { destruct (Z.eq_dec el e') as [Heq|Hne].
    - subst el. apply val_le_same.
      apply (val_le_iff _ _ e' E E) in HL; [|unfold e'; lia | lia].
      rewrite Z.sub_diag, Z.pow_0_r in HL.
      replace (e' - E) with n in HL by (unfold e'; lia).
      assert (Zpos ml <= m1) by nia.
      destruct Hm2 as [->|[-> _]]; lia.
    - apply Qlt_le_weak. eapply Qlt_le_trans.
      + apply (normal_lt_exponent (Zpos ml) (2 ^ 23) el e'); lia.
      + apply val_le_same. destruct Hm2 as [->|[-> _]]; lia. }
  (* the upper bound *)
  set (Hn' := Zpos mh * 2 ^ (eh - e')).
  assert (Hup' : Zpos m2 <= Hn').
  { apply (val_le_iff _ _ E eh E) in HH; [|lia | unfold e' in Hge; lia].
    rewrite Z.sub_diag, Z.pow_0_r in HH.
    replace (eh - E) with (eh - e' + n) in HH by (unfold e'; lia).
    rewrite Z.pow_add_r, Z.mul_assoc in HH by lia. fold Hn' in HH.
    destruct Hm2 as [->|[-> Hr]]; nia. }
  assert (Hup : (val (Zpos m2) e' <= val (Zpos mh) eh)%Q).
  { rewrite (val_scale (Zpos mh) eh e') by lia. apply val_le_same. exact Hup'. }
  assert (Hm2r : 2 ^ 23 <= Zpos m2 <= 2 ^ 24)
    by (destruct Hm2 as [->|[-> _]]; lia).
  destruct (Z.ltb_spec (Zpos m2) (2 ^ 24)) as [Hlt|Hcarry].
  - exists m2, e'. unfold finite_or_infinity in Hres.
    destruct (Z.leb_spec e' (F32.emax - F32.prec)) as [_|Hov];
      [|unfold F32.emax, F32.prec in Hov; lia].
    repeat split; try assumption; lia.
  - assert (Hm2e : Zpos m2 = 2 ^ 24) by lia.
    assert (He1 : e' + 1 <= eh).
    { destruct (Z.eq_dec e' eh) as [Heq|Hne]; [|lia].
      unfold Hn' in Hup'. rewrite Heq, Z.sub_diag, Z.pow_0_r in Hup'. lia. }
    exists (2 ^ 23)%positive, (e' + 1). unfold finite_or_infinity in Hres.
    destruct (Z.leb_spec (e' + 1) (F32.emax - F32.prec)) as [_|Hov];
      [|unfold F32.emax, F32.prec in Hov; lia].
    assert (Hv : (val (Zpos (2 ^ 23)) (e' + 1) == val (Zpos m2) e')%Q).
    { rewrite (val_scale _ (e' + 1) e') by lia. rewrite Hm2e.
      replace (e' + 1 - e') with 1 by lia. reflexivity. }
    split; [exact Hres|].
    split; [unfold normal; change (Zpos (2 ^ 23)) with (2 ^ 23); lia|].
    rewrite Hv. split; assumption.
Qed.

(** Aligning a mantissa on a lower exponent shifts it left. *)
Lemma pos_iter_xO (m d : positive) :
  Zpos (Pos.iter xO m d) = Zpos m * 2 ^ Zpos d.
Proof.
  induction d as [|d IH] using Pos.peano_ind.
  - cbn. lia.
  - rewrite Pos.iter_succ, Pos2Z.inj_xO, IH, Pos2Z.inj_succ.
    rewrite Z.pow_succ_r by lia. lia.
Qed.

Lemma shl_align_spec (m : positive) (e e' : Z) :
  snd (shl_align m e e') = Z.min e e' /\
  Zpos (fst (shl_align m e e')) = Zpos m * 2 ^ (e - Z.min e e').
Proof.
  unfold shl_align. destruct (e' - e) as [|d|d] eqn:Hd; cbn [fst snd].
  - replace (Z.min e e') with e by lia. rewrite Z.sub_diag. lia.
  - replace (Z.min e e') with e by lia. rewrite Z.sub_diag. lia.
  - replace (Z.min e e') with e' by lia. split; [reflexivity|].
    rewrite pos_iter_xO. f_equal. f_equal. lia.
Qed.

(** [binary_round] rounds any exact positive value as
    [binary_round_aux_bracket] says. *)
Lemma binary_round_bracket (M ml mh : positive) (E el eh : Z) :
  normal ml el -> normal mh eh ->
  (val (Zpos ml) el <= val (Zpos M) E)%Q ->
  (val (Zpos M) E <= val (Zpos mh) eh)%Q ->
  exists (m : positive) (e : Z),
    binary_round F32.prec F32.emax false M E = S754_finite false m e /\
    normal m e /\
    (val (Zpos ml) el <= val (Zpos m) e)%Q /\
    (val (Zpos m) e <= val (Zpos mh) eh)%Q.
Proof.
  intros HnL HnH HL HH.
  pose proof (digits2_pos_bounds M) as [Dlo Dhi].
  set (d := Zpos (digits2_pos M)) in *.
  assert (Hd : 1 <= d) by (unfold d; lia).
  assert (Hel : el <= d + E - 24).
  { destruct (Z.le_gt_cases el (d + E - 24)) as [H|H]; [exact H|exfalso].
    destruct HnL as [Hml _].
    assert (Hc : (val (Zpos M) E < val (Zpos ml) el)%Q).
    { apply (val_lt_iff _ _ E el (Z.min E el)); [lia | lia |].
      set (B := Z.min E el).
      assert (2 ^ d * 2 ^ (E - B) <= 2 ^ 23 * 2 ^ (el - B)).
      { rewrite <- !Z.pow_add_r by lia. apply Z.pow_le_mono_r; lia. }
      assert (0 < 2 ^ (E - B)) by (apply Z.pow_pos_nonneg; lia).
      assert (0 < 2 ^ (el - B)) by (apply Z.pow_pos_nonneg; lia).
      nia. }
    apply (Qlt_irrefl (val (Zpos M) E)).
    eapply Qlt_le_trans; [exact Hc | exact HL]. }
  assert (Hfexp : fexp F32.prec F32.emax (d + E) = d + E - 24).
  { destruct HnL as [_ Hel']. unfold fexp, emin, F32.prec, F32.emax. lia. }
  unfold binary_round. fold d. rewrite Hfexp.
  destruct (shl_align_spec M E (d + E - 24)) as [Hez Hmz].
  destruct (shl_align M E (d + E - 24)) as [mz ez]. cbn [fst snd] in *.
  assert (Hval : (val (Zpos mz) ez == val (Zpos M) E)%Q).
  { rewrite (val_scale (Zpos M) E ez) by lia. rewrite Hmz, Hez. reflexivity. }
  rewrite <- Hval in HL, HH.
  apply binary_round_aux_bracket; try assumption.
  destruct (Z.le_gt_cases E (d + E - 24)) as [Hge|Hlt].
  - replace (Z.min E (d + E - 24)) with E in * by lia.
    rewrite Z.sub_diag, Z.pow_0_r, Z.mul_1_r in Hmz.
    injection Hmz as ->. fold d. lia.
  - replace (Z.min E (d + E - 24)) with (d + E - 24) in * by lia.
    rewrite (digits2_pos_unique mz 24); [lia|].
    rewrite Hmz.
    assert (0 < 2 ^ (E - (d + E - 24))) by (apply Z.pow_pos_nonneg; lia).
    assert (E1 : 2 ^ (d - 1) * 2 ^ (E - (d + E - 24)) = 2 ^ (24 - 1))
      by (rewrite <- Z.pow_add_r by lia; f_equal; lia).
    assert (E2 : 2 ^ d * 2 ^ (E - (d + E - 24)) = 2 ^ 24)
      by (rewrite <- Z.pow_add_r by lia; f_equal; lia).
    nia.
Qed.

(** ** Multiplication and addition of positive normal numbers *)

(** A product of positive normal numbers that lies, before rounding,
    between two positive normal numbers is rounded to a positive normal
    number between them. *)
Lemma mul_between (a b lo hi : float) :
  pos_normal a -> pos_normal b -> pos_normal lo -> pos_normal hi ->
  (F32.to_Q lo <= F32.to_Q a * F32.to_Q b)%Q ->
  (F32.to_Q a * F32.to_Q b <= F32.to_Q hi)%Q ->
  pos_normal (F32.mul a b) /\
  (F32.to_Q lo <= F32.to_Q (F32.mul a b))%Q /\
  (F32.to_Q (F32.mul a b) <= F32.to_Q hi)%Q.
Proof.
  intros (ma & ea & -> & Hna) (mb & eb & -> & Hnb)
         (ml & el & -> & Hnl) (mh & eh & -> & Hnh) HL HH.
  rewrite !to_Q_finite in HL, HH.
  assert (Hval : (val (Zpos (ma * mb)) (ea + eb) ==
                  val (Zpos ma) ea * val (Zpos mb) eb)%Q).
  { unfold val. rewrite Pos2Z.inj_mul, inject_Z_mult, pow2_add. ring. }
  rewrite <- Hval in HL, HH.
  assert (Hd : 24 <= Zpos (digits2_pos (ma * mb))).
  { pose proof (digits2_pos_bounds (ma * mb)) as [_ Dhi].
    destruct Hna as [Ha _], Hnb as [Hb _].
    destruct (Z.le_gt_cases 24 (Zpos (digits2_pos (ma * mb)))) as [H|H];
      [exact H|exfalso].
    assert (2 ^ Zpos (digits2_pos (ma * mb)) <= 2 ^ 23)
      by (apply Z.pow_le_mono_r; lia).
    rewrite Pos2Z.inj_mul in Dhi. nia. }
  destruct (binary_round_aux_bracket (ma * mb) ml mh (ea + eb) el eh
              Hd Hnl Hnh HL HH) as (m & e & Hres & Hn & H1 & H2).
  unfold F32.mul. cbn [SFmul xorb]. rewrite Hres, !to_Q_finite.
  split; [exists m, e; split; [reflexivity | exact Hn]|]. split; assumption.
Qed.

(** Likewise for a sum. *)
Lemma add_between (a b lo hi : float) :
  pos_normal a -> pos_normal b -> pos_normal lo -> pos_normal hi ->
  (F32.to_Q lo <= F32.to_Q a + F32.to_Q b)%Q ->
  (F32.to_Q a + F32.to_Q b <= F32.to_Q hi)%Q ->
  pos_normal (F32.add a b) /\
  (F32.to_Q lo <= F32.to_Q (F32.add a b))%Q /\
  (F32.to_Q (F32.add a b) <= F32.to_Q hi)%Q.
Proof.
  intros (ma & ea & -> & Hna) (mb & eb & -> & Hnb)
         (ml & el & -> & Hnl) (mh & eh & -> & Hnh) HL HH.
  rewrite !to_Q_finite in HL, HH.
  unfold F32.add. cbn [SFadd cond_Zopp].
  set (ez := Z.min ea eb).
  destruct (shl_align_spec ma ea ez) as [_ Ha].
  destruct (shl_align_spec mb eb ez) as [_ Hb].
  replace (Z.min ea ez) with ez in Ha by (unfold ez; lia).
  replace (Z.min eb ez) with ez in Hb by (unfold ez; lia).
  set (pa := fst (shl_align ma ea ez)) in *.
  set (pb := fst (shl_align mb eb ez)) in *.
  change (Zpos pa + Zpos pb) with (Zpos (pa + pb)).
  cbn [binary_normalize].
  assert (Hval : (val (Zpos (pa + pb)) ez ==
                  val (Zpos ma) ea + val (Zpos mb) eb)%Q).
  { rewrite (val_scale (Zpos ma) ea ez), (val_scale (Zpos mb) eb ez)
      by (unfold ez; lia).
    rewrite <- Ha, <- Hb. unfold val.
    rewrite Pos2Z.inj_add, inject_Z_plus. ring. }
  rewrite <- Hval in HL, HH.
  destruct (binary_round_bracket (pa + pb) ml mh ez el eh Hnl Hnh HL HH)
    as (m & e & Hres & Hn & H1 & H2).
  rewrite Hres, !to_Q_finite.
  split; [exists m, e; split; [reflexivity | exact Hn]|]. split; assumption.
Qed.

(** ** The colour formulas *)

Lemma pos_normal_finite (x : float) : pos_normal x -> F32.is_finite x = true.
Proof. intros (m & e & -> & _). reflexivity. Qed.

(** A binary32 number whose value lies in [[0.2, 0.8]] is positive and
    normal, with exponent -26, -25 or -24. *)
Lemma color_draw_normal (c : float) :
  F32.valid c = true ->
  (2 # 10 <= F32.to_Q c)%Q -> (F32.to_Q c <= 8 # 10)%Q ->
  exists (m : positive) (e : Z),
    c = S754_finite false m e /\ normal m e /\ -26 <= e <= -24.
Proof.
  intros Hv Hlo Hhi.
  destruct c as [s|s| |s m e]; try (exfalso; apply Hlo; reflexivity).
  destruct s.
  { exfalso. cbn [F32.to_Q cond_Zopp] in Hlo.
    assert (H : (inject_Z (- Zpos m) * F32.pow2 e <= 0)%Q).
    { setoid_replace (0%Q) with (inject_Z 0 * F32.pow2 e)%Q by ring.
      apply Qmult_le_compat_r; [|apply Qlt_le_weak, pow2_pos].
      rewrite <- Zle_Qle. lia. }
    apply (Qle_not_lt _ _ (Qle_trans _ _ _ Hlo H)). reflexivity. }
  rewrite to_Q_finite in Hlo, Hhi.
  unfold F32.valid, valid_binary, bounded, canonical_mantissa in Hv.
  apply andb_prop in Hv. destruct Hv as [Hc He].
  apply Z.eqb_eq in Hc. apply Z.leb_le in He.
  unfold fexp, emin, F32.prec, F32.emax in Hc, He.
  pose proof (digits2_pos_bounds m) as [Dlo Dhi].
  set (d := Zpos (digits2_pos m)) in *.
  assert (Hd1 : 1 <= d) by (unfold d; lia).
  (* the value is below 2^(d+e) and at least 2^(d-1+e) *)
  assert (Hup : -3 < d + e).
  { destruct (Z.lt_ge_cases (-3) (d + e)) as [H|H]; [exact H|exfalso].
    assert (Hc' : (val (Zpos m) e < val 1 (-3))%Q).
    { apply (val_lt_iff _ _ e (-3) (Z.min e (-3))); [lia | lia |].
      set (B := Z.min e (-3)).
      assert (2 ^ d * 2 ^ (e - B) <= 1 * 2 ^ (-3 - B)).
      { rewrite Z.mul_1_l, <- Z.pow_add_r by lia.
        apply Z.pow_le_mono_r; lia. }
      assert (0 < 2 ^ (e - B)) by (apply Z.pow_pos_nonneg; lia). nia. }
    apply (Qlt_irrefl (val 1 (-3))).
    eapply Qle_lt_trans; [|exact Hc']. eapply Qle_trans; [|exact Hlo].
    discriminate. }
  assert (Hdn : d + e <= 0).
  { destruct (Z.le_gt_cases (d + e) 0) as [H|H]; [exact H|exfalso].
    assert (Hc' : (val 1 0 <= val (Zpos m) e)%Q).
    { apply (val_le_iff _ _ 0 e (Z.min e 0)); [lia | lia |].
      set (B := Z.min e 0).
      assert (1 * 2 ^ (0 - B) <= 2 ^ (d - 1) * 2 ^ (e - B)).
      { rewrite Z.mul_1_l, <- Z.pow_add_r by lia.
        apply Z.pow_le_mono_r; lia. }
      assert (0 < 2 ^ (e - B)) by (apply Z.pow_pos_nonneg; lia). nia. }
    apply (Qlt_irrefl (val 1 0)).
    eapply Qle_lt_trans; [exact Hc'|]. eapply Qle_lt_trans; [exact Hhi|].
    reflexivity. }
  assert (Hd : d = 24) by lia.
  exists m, e. split; [reflexivity|].
  rewrite Hd in Dlo, Dhi. unfold normal. lia.
Qed.

Lemma pos_normal_literal (m : positive) (e : Z) :
  (2 ^ 23 <=? Zpos m) && (Zpos m <? 2 ^ 24) && (-149 <=? e) && (e <=? 104)
  = true ->
  pos_normal (S754_finite false m e).
Proof.
  intros H. repeat (apply andb_prop in H; destruct H as [H ?]).
  exists m, e. split; [reflexivity|]. unfold normal. lia.
Qed.

(** The bright channel [c * 0.5f + 0.5f]. *)
Lemma bright_channel (c : float) :
  pos_normal c ->
  (2 # 10 <= F32.to_Q c)%Q -> (F32.to_Q c <= 8 # 10)%Q ->
  let v := F32.add (F32.mul c F32.f0_5) F32.f0_5 in
  pos_normal v /\ (1 # 2 <= F32.to_Q v)%Q /\ (F32.to_Q v <= 1)%Q.
Proof.
  intros Hc Hlo Hhi v.
  assert (N5 : pos_normal F32.f0_5) by (apply pos_normal_literal; reflexivity).
  destruct (mul_between c F32.f0_5 (S754_finite false 8388608 (-27)) F32.f0_5)
    as (Ht & Ht1 & Ht2); try assumption.
  { apply pos_normal_literal; reflexivity. }
  { unfold F32.f0_5. literal_values. lra. }
  { unfold F32.f0_5. literal_values. lra. }
  subst v. set (t := F32.mul c F32.f0_5) in *. clearbody t.
  unfold F32.f0_5 in Ht1, Ht2. revert Ht1 Ht2. literal_values. intros Ht1 Ht2.
  destruct (add_between t F32.f0_5 F32.f0_5 (S754_finite false 8388608 (-23)))
    as (Hv & Hv1 & Hv2); try assumption.
  { apply pos_normal_literal; reflexivity. }
  { unfold F32.f0_5. literal_values. lra. }
  { unfold F32.f0_5. literal_values. lra. }
  split; [exact Hv|]. split.
  - eapply Qle_trans; [|exact Hv1]. discriminate.
  - eapply Qle_trans; [exact Hv2|]. discriminate.
Qed.

(** The muted blue channel [c * 0.5f + 0.3f]. *)
Lemma muted_blue_channel (c : float) :
  pos_normal c ->
  (2 # 10 <= F32.to_Q c)%Q -> (F32.to_Q c <= 8 # 10)%Q ->
  let v := F32.add (F32.mul c F32.f0_5) F32.f0_3 in
  pos_normal v /\ (F32.to_Q v <= 8 # 10)%Q.
Proof.
  intros Hc Hlo Hhi v.
  assert (N5 : pos_normal F32.f0_5) by (apply pos_normal_literal; reflexivity).
  assert (N3 : pos_normal F32.f0_3) by (apply pos_normal_literal; reflexivity).
  destruct (mul_between c F32.f0_5 (S754_finite false 8388608 (-27))
              (S754_finite false 13421773 (-25)))
    as (Ht & Ht1 & Ht2); try assumption.
  { apply pos_normal_literal; reflexivity. }
  { apply pos_normal_literal; reflexivity. }
  { unfold F32.f0_5. literal_values. lra. }
  { unfold F32.f0_5. literal_values. lra. }
  subst v. set (t := F32.mul c F32.f0_5) in *. clearbody t.
  revert Ht1 Ht2. literal_values. intros Ht1 Ht2.
  destruct (add_between t F32.f0_3 (S754_finite false 8388608 (-25))
              (S754_finite false 12582912 (-24)))
    as (Hv & Hv1 & Hv2); try assumption.
  { apply pos_normal_literal; reflexivity. }
  { apply pos_normal_literal; reflexivity. }
  { unfold F32.f0_3. literal_values. lra. }
  { unfold F32.f0_3. literal_values. lra. }
  split; [exact Hv|].
  eapply Qle_trans; [exact Hv2|]. discriminate.
Qed.

(** The muted red and green channels [c * 0.3f].  At the top of the range
    the exact product can lie above the binary32 number next below 0.24,
    and it is rounding to nearest that brings it down to that number. *)
Lemma muted_red_channel (c : float) :
  F32.valid c = true ->
  (2 # 10 <= F32.to_Q c)%Q -> (F32.to_Q c <= 8 # 10)%Q ->
  let v := F32.mul c F32.f0_3 in
  pos_normal v /\ (F32.to_Q v <= 24 # 100)%Q.
Proof.
  intros Hv Hlo Hhi v.
  destruct (color_draw_normal c Hv Hlo Hhi) as (m & e & -> & Hn & He).
  assert (N3 : pos_normal F32.f0_3) by (apply pos_normal_literal; reflexivity).
  destruct (Z.eq_dec e (-24)) as [->|Hne].
  - (* 0.5 <= c <= 0.8: the product has 47 digits and is cut by 23 *)
    destruct Hn as [Hm _].
    assert (Hm' : Zpos m <= 13421772).
    { rewrite to_Q_finite in Hhi. unfold val, Qle in Hhi. cbn in Hhi. lia. }
    subst v.
    change (F32.mul (S754_finite false m (-24)) F32.f0_3)
      with (binary_round_aux F32.prec F32.emax false (Zpos (m * 10066330))
              (-49) loc_Exact).
    assert (Hd : Zpos (digits2_pos (m * 10066330)) = 47).
    { apply digits2_pos_unique. rewrite Pos2Z.inj_mul. lia. }
    pose proof (binary_round_aux_normal (m * 10066330) (-49)) as H.
    cbn zeta in H. rewrite Hd in H. change (47 - 24) with 23 in H.
    destruct (H ltac:(lia) ltac:(lia)) as (Hm1 & m2 & Hnear & Hres).
    clear H. rewrite Pos2Z.inj_mul in Hm1, Hnear.
    set (M := Zpos m * 10066330) in *.
    pose proof (Z.div_mod M (2 ^ 23) ltac:(lia)) as Hdm.
    pose proof (Z.mod_pos_bound M (2 ^ 23) ltac:(lia)) as Hrem.
    assert (Hm2 : 2 ^ 23 <= Zpos m2 <= 16106127).
    { unfold M in *. destruct Hnear as [[-> _]|[-> Hhalf]]; lia. }
    destruct (Z.ltb_spec (Zpos m2) (2 ^ 24)) as [_|Hc]; [|lia].
    change (finite_or_infinity m2 (-49 + 23)) with (S754_finite false m2 (-26))
      in Hres.
    rewrite Hres. split.
    + exists m2, (-26). split; [reflexivity|]. unfold normal. lia.
    + rewrite to_Q_finite. unfold val, Qle. cbn. lia.
  - (* c < 0.5 *)
    assert (Hhalf : (F32.to_Q (S754_finite false m e) < 1 # 2)%Q).
    { rewrite to_Q_finite. destruct Hn as [Hm _].
      eapply Qlt_le_trans.
      - apply (normal_lt_exponent (Zpos m) (2 ^ 23) e (-24)); lia.
      - discriminate. }
    set (c := S754_finite false m e) in *.
    assert (Hc : pos_normal c) by (exists m, e; split; [reflexivity | exact Hn]).
    clearbody c.
    destruct (mul_between c F32.f0_3 (S754_finite false 8388608 (-28))
                (S754_finite false 16106127 (-26)))
      as (Ht & _ & Ht2); try assumption.
    { apply pos_normal_literal; reflexivity. }
    { apply pos_normal_literal; reflexivity. }
    { unfold F32.f0_3. literal_values. lra. }
    { unfold F32.f0_3. literal_values. lra. }
    split; [exact Ht|].
    eapply Qle_trans; [exact Ht2|]. discriminate.
Qed.

(** C8.  For every [N >= 0] and every random source whose [colorDist]
    draws are binary32 numbers in [[0.2, 0.8]], each non-ground descriptor
    has a colour made of three such draws [c1], [c2], [c3]: when its
    zero-based index is a multiple of 5 the colour is
    (0.5*c1 + 0.5, 0.5*c2 + 0.5, 0.5*c3 + 0.5) and every channel is at least
    0.5; otherwise it is (0.3*c1, 0.3*c2, 0.5*c3 + 0.3) with red <= 0.24,
    green <= 0.24 and blue <= 0.8. *)
Theorem building_color_bounds :
  forall (RNG : Type) (sample : uniform_real_distribution -> RNG -> float * RNG),
    (forall g, F32.valid (fst (sample colorDist g)) = true /\
               (2 # 10 <= F32.to_Q (fst (sample colorDist g)))%Q /\
               (F32.to_Q (fst (sample colorDist g)) <= 8 # 10)%Q) ->
    forall (N : Z) (rng : RNG) (k : nat) (b : Building),
      0 <= N ->
      Z.of_nat k < N ->
      nth_error (generateCity RNG sample [] N rng) k = Some b ->
      exists g1 g2 g3 : RNG,
        let c1 := fst (sample colorDist g1) in
        let c2 := fst (sample colorDist g2) in
        let c3 := fst (sample colorDist g3) in
        F32.is_finite (vr (color b)) = true /\
        F32.is_finite (vg (color b)) = true /\
        F32.is_finite (vb (color b)) = true /\
        ((5 | Z.of_nat k) ->
         color b = mk_vec3 (F32.add (F32.mul c1 F32.f0_5) F32.f0_5)
                           (F32.add (F32.mul c2 F32.f0_5) F32.f0_5)
                           (F32.add (F32.mul c3 F32.f0_5) F32.f0_5) /\
         (1 # 2 <= F32.to_Q (vr (color b)))%Q /\
         (1 # 2 <= F32.to_Q (vg (color b)))%Q /\
         (1 # 2 <= F32.to_Q (vb (color b)))%Q) /\
        (~ (5 | Z.of_nat k) ->
         color b = mk_vec3 (F32.mul c1 F32.f0_3)
                           (F32.mul c2 F32.f0_3)
                           (F32.add (F32.mul c3 F32.f0_5) F32.f0_3) /\
         (F32.to_Q (vr (color b)) <= 24 # 100)%Q /\
         (F32.to_Q (vg (color b)) <= 24 # 100)%Q /\
         (F32.to_Q (vb (color b)) <= 8 # 10)%Q).
Proof.
  intros RNG sample Hdraw N rng k b HN Hk Hnth.
  destruct (generateCity_nth_random RNG sample N rng k b Hk Hnth) as [g ->].
  destruct (random_building_fields RNG sample (Z.of_nat k) g)
    as (_ & _ & _ & _ & _ & gc & _ & _ & _ & _ & _ & _ & Ec).
  cbn zeta in Ec. rewrite Ec. clear Ec.
  destruct (building_color_form RNG sample (Z.of_nat k) gc)
    as (g1 & g2 & g3 & Ecol).
  cbn zeta in Ecol. rewrite Ecol. clear Ecol.
  destruct (Hdraw g1) as (V1 & L1 & U1).
  destruct (Hdraw g2) as (V2 & L2 & U2).
  destruct (Hdraw g3) as (V3 & L3 & U3).
  set (c1 := fst (sample colorDist g1)) in *.
  set (c2 := fst (sample colorDist g2)) in *.
  set (c3 := fst (sample colorDist g3)) in *.
  assert (P : forall c, F32.valid c = true ->
                (2 # 10 <= F32.to_Q c)%Q -> (F32.to_Q c <= 8 # 10)%Q ->
                pos_normal c).
  { intros c V L U. destruct (color_draw_normal c V L U) as (m & e & -> & Hn & _).
    exists m, e. split; [reflexivity | exact Hn]. }
  exists g1, g2, g3. cbn zeta. fold c1 c2 c3.
  assert (Hrem : Z.rem (Z.of_nat k) 5 = Z.of_nat k mod 5)
    by (apply Z.rem_mod_nonneg; lia).
  rewrite Hrem.
  destruct (Z.eqb_spec (Z.of_nat k mod 5) 0) as [H5|H5].
  - destruct (bright_channel c1 (P c1 V1 L1 U1) L1 U1) as (F1 & B1 & _).
    destruct (bright_channel c2 (P c2 V2 L2 U2) L2 U2) as (F2 & B2 & _).
    destruct (bright_channel c3 (P c3 V3 L3 U3) L3 U3) as (F3 & B3 & _).
    cbn [color vr vg vb vx vy vz].
    split; [apply pos_normal_finite; assumption|].
    split; [apply pos_normal_finite; assumption|].
    split; [apply pos_normal_finite; assumption|].
    split.
    + intros _. repeat split; assumption.
    + intros Hnd. exfalso. apply Hnd. apply Z.mod_divide; [lia | exact H5].
  - destruct (muted_red_channel c1 V1 L1 U1) as (F1 & B1).
    destruct (muted_red_channel c2 V2 L2 U2) as (F2 & B2).
    destruct (muted_blue_channel c3 (P c3 V3 L3 U3) L3 U3) as (F3 & B3).
    cbn [color vr vg vb vx vy vz].
    split; [apply pos_normal_finite; assumption|].
    split; [apply pos_normal_finite; assumption|].
    split; [apply pos_normal_finite; assumption|].
    split.
    + intros Hd. exfalso. apply H5. apply Z.mod_divide; [lia | exact Hd].
    + intros _. repeat split; assumption.
Qed.

Lemma building_color_bounds_witness :
  nth_error (generateCity nat low_sample [] 3 0%nat) 1 =
  Some (fst (random_building nat low_sample 1 8%nat)) /\
  (F32.to_Q (vr (color (fst (random_building nat low_sample 1 8%nat))))
   <= 24 # 100)%Q.
Proof.
  split; [reflexivity|].
  assert (Hdraw : forall g : nat,
             F32.valid (fst (low_sample colorDist g)) = true /\
             (2 # 10 <= F32.to_Q (fst (low_sample colorDist g)))%Q /\
             (F32.to_Q (fst (low_sample colorDist g)) <= 8 # 10)%Q).
  { intros g. split; [reflexivity|]. split; discriminate. }
  destruct (building_color_bounds nat low_sample Hdraw 3 0%nat 1%nat
              (fst (random_building nat low_sample 1 8%nat))
              ltac:(lia) ltac:(lia) eq_refl)
    as (g1 & g2 & g3 & _ & _ & _ & _ & Hmuted).
  apply Hmuted. intros [q Hq]. lia.
Defined.

(** The literal [0.8f] is itself a little above 0.8, and a draw equal to
    it would give [0.8f * 0.3f], the binary32 number next above 0.24.  The
    range of [std::uniform_real_distribution] is half open, so the largest
    draw is the number below [0.8f], which [building_color_bounds] covers. *)
Lemma muted_red_at_upper_literal :
  (8 # 10 < F32.to_Q F32.f0_8)%Q /\
  F32.mul F32.f0_8 F32.f0_3 = S754_finite false 16106128 (-26) /\
  (24 # 100 < F32.to_Q (F32.mul F32.f0_8 F32.f0_3))%Q /\
  F32.mul (S754_finite false 13421772 (-24)) F32.f0_3 =
    S754_finite false 16106127 (-26).
Proof. repeat split. Qed.

(** ** The mesh as a whole *)

(** From empty buffers the vertex buffer is the boxes one after the other,
    and the index buffer the boxes' indices on the bases 0, 8, 16, ... *)
Lemma createBuildingBuffers_closed_form bs v i n0 :
  length v = (48 * n0)%nat ->
  createBuildingBuffers bs v i =
  (v ++ flat_map box_vertices bs,
   i ++ flat_map (fun k => box_indices (u32 (8 * Z.of_nat k)))
                 (seq n0 (length bs))).
Proof.
  revert v i n0. induction bs as [|b bs IH]; intros v i n0 Hv.
  - cbn. rewrite !app_nil_r. reflexivity.
  - rewrite createBuildingBuffers_cons.
    rewrite (IH _ _ (S n0))
      by (rewrite length_app, box_vertices_length, Hv; lia).
    assert (Hb : base_index v = u32 (8 * Z.of_nat n0)).
    { unfold base_index. rewrite Hv. f_equal.
      replace (Z.of_nat (48 * n0)) with (8 * Z.of_nat n0 * 6) by lia.
      apply Z.div_mul. lia. }
    rewrite Hb. cbn [flat_map length seq]. rewrite <- !app_assoc. reflexivity.
Qed.

Lemma in_box_indices_range base idx :
  In idx (box_indices base) -> 0 <= idx < 2 ^ 32.
Proof.
  intros H. apply box_indices_in in H. destruct H as [j [_ ->]].
  unfold u32. apply Z.mod_pos_bound. reflexivity.
Qed.

(** The floats of a vertex of a box, read by its local number. *)
Lemma vertex_of_box b l :
  0 <= l <= 7 -> vertex (box_vertices b) (Z.to_nat l) = corner_of_local b l.
Proof.
  intros Hl.
  assert (H : l = 0 \/ l = 1 \/ l = 2 \/ l = 3 \/ l = 4 \/ l = 5 \/ l = 6 \/ l = 7)
    by lia.
  repeat (destruct H as [->|H]; [reflexivity|]). subst l. reflexivity.
Qed.

(** A vertex of the building at place [k], read in the whole buffer. *)
Lemma vertex_of_building bs v i k b (n l : nat) :
  nth_error bs k = Some b ->
  length v = (6 * n)%nat -> (l <= 7)%nat ->
  vertex (fst (createBuildingBuffers bs v i)) (n + 8 * k + l) =
  vertex (box_vertices b) l.
Proof.
  intros Hk Hv Hl. unfold vertex.
  rewrite <- (createBuildingBuffers_vertices_at bs v i k b Hk).
  rewrite skipn_firstn_comm, firstn_firstn, skipn_skipn.
  rewrite Nat.min_l by lia. f_equal. f_equal. lia.
Qed.

(** X1.  [createBuildingBuffers] only appends.  Whatever the two buffers hold
    when it is called is still there afterwards, entry for entry, in front
    of what the call adds. *)
Theorem createBuildingBuffers_keeps_contents :
  forall (bs : list Building) (vertices : list float) (indices : list Z),
    let after := createBuildingBuffers bs vertices indices in
    firstn (length vertices) (fst after) = vertices /\
    firstn (length indices) (snd after) = indices /\
    (forall n x, nth_error vertices n = Some x ->
                 nth_error (fst after) n = Some x) /\
    (forall n x, nth_error indices n = Some x ->
                 nth_error (snd after) n = Some x).
Proof.
  intros bs vertices indices after. subst after.
  destruct (createBuildingBuffers_prefix bs vertices indices)
    as (v' & i' & -> & _ & _).
  cbn [fst snd].
  assert (F : forall (A : Type) (l l' : list A), firstn (length l) (l ++ l') = l).
  { intros A l l'. rewrite firstn_app, Nat.sub_diag, firstn_O, app_nil_r.
    apply firstn_all. }
  repeat split; try apply F.
  - intros n x Hn. rewrite nth_error_app1; [exact Hn|].
    apply nth_error_Some. congruence.
  - intros n x Hn. rewrite nth_error_app1; [exact Hn|].
    apply nth_error_Some. congruence.
Qed.

(** X2.  Calls compose.  Building the mesh of [bs1] and then, into the same
    buffers, the mesh of [bs2] gives what one call on [bs1 ++ bs2] gives,
    base indices included. *)
Theorem createBuildingBuffers_in_batches :
  forall (bs1 bs2 : list Building) (vertices : list float) (indices : list Z),
    let first := createBuildingBuffers bs1 vertices indices in
    createBuildingBuffers bs2 (fst first) (snd first) =
    createBuildingBuffers (bs1 ++ bs2) vertices indices.
Proof.
  intros bs1 bs2 vertices indices first. subst first.
  rewrite createBuildingBuffers_app.
  destruct (createBuildingBuffers bs1 vertices indices). reflexivity.
Qed.

(** X3.  Started on empty buffers, the vertex buffer is the boxes of the
    descriptors one after the other, and the index buffer depends on the
    number of descriptors alone: two cities of the same size get the same
    indices, whatever their buildings. *)
Theorem index_buffer_depends_on_count :
  forall bs bs' : list Building,
    fst (createBuildingBuffers bs [] []) = flat_map box_vertices bs /\
    (length bs = length bs' ->
     snd (createBuildingBuffers bs [] []) =
     snd (createBuildingBuffers bs' [] [])).
Proof.
  intros bs bs'.
  rewrite (createBuildingBuffers_closed_form bs [] [] 0 eq_refl).
  rewrite (createBuildingBuffers_closed_form bs' [] [] 0 eq_refl).
  cbn [fst snd app]. split; [reflexivity|]. intros ->. reflexivity.
Qed.

Lemma index_buffer_depends_on_count_witness :
  snd (createBuildingBuffers [ground; cube10 F32.f0_5 F32.f0_5 F32.f0_5] [] []) =
  snd (createBuildingBuffers [cube10 F32.f1 F32.f1 F32.f1; ground] [] []).
Proof.
  apply (index_buffer_depends_on_count
           [ground; cube10 F32.f0_5 F32.f0_5 F32.f0_5]
           [cube10 F32.f1 F32.f1 F32.f1; ground]).
  reflexivity.
Defined.

(** X4.  Every index refers to a vertex that is there.  Started on empty
    buffers, each entry [idx] of the index buffer is non-negative and the six
    floats of vertex [idx] lie inside the vertex buffer, for any number of
    descriptors, also past the point where the indices wrap: a draw call
    never reads outside the buffer. *)
Theorem indices_within_vertex_buffer :
  forall (bs : list Building) (idx : Z),
    let after := createBuildingBuffers bs [] [] in
    In idx (snd after) ->
    0 <= idx /\ 6 * idx + 5 < Z.of_nat (length (fst after)).
Proof.
  intros bs idx after Hin. subst after.
  destruct (createBuildingBuffers_length bs [] []) as [Hlen _].
  rewrite Hlen. clear Hlen.
  rewrite (createBuildingBuffers_closed_form bs [] [] 0 eq_refl) in Hin.
  cbn [snd app] in Hin. apply in_flat_map in Hin.
  destruct Hin as (k & Hk & Hin). apply in_seq in Hk.
  pose proof (in_box_indices_range _ _ Hin) as Hr.
  split; [lia|].
  apply box_indices_in in Hin. destruct Hin as (j & Hj & ->).
  change (length (@nil float)) with 0%nat.
  destruct (Z.le_gt_cases (8 * Z.of_nat (length bs)) (2 ^ 32)) as [Hsmall|Hbig].
  - unfold u32 in *. rewrite Z.add_mod_idemp_l by lia.
    rewrite Z.mod_small by lia. lia.
  - lia.
Qed.

Lemma indices_within_vertex_buffer_witness :
  0 <= 15 /\
  6 * 15 + 5 < Z.of_nat (length (fst (createBuildingBuffers [ground; ground] [] []))).
Proof.
  apply (indices_within_vertex_buffer [ground; ground] 15).
  vm_compute. tauto.
Defined.

(** X5.  The indices of a building fetch that building's own corners.  Started
    on empty buffers with [8k + 7 < 2^32], the [j]-th index emitted for the
    descriptor at place [k] is [8k + l], where [l] is the [j]-th local
    number of the triangle list, and vertex [8k + l] of the vertex buffer is
    corner [l] of that descriptor's box, position and colour. *)
Theorem indices_fetch_own_corners :
  forall (bs : list Building) (k : nat) (b : Building) (j : nat) (idx : Z),
    nth_error bs k = Some b ->
    8 * Z.of_nat k + 7 < 2 ^ 32 ->
    let after := createBuildingBuffers bs [] [] in
    nth_error (snd after) (36 * k + j) = Some idx ->
    (j < 36)%nat ->
    exists l : Z,
      nth_error local_indices j = Some l /\
      idx = 8 * Z.of_nat k + l /\
      vertex (fst after) (Z.to_nat idx) = corner_of_local b l.
Proof.
  intros bs k b j idx Hk Hsmall after Hidx Hj. subst after.
  assert (Hslice : nth_error (box_indices (u32 (8 * Z.of_nat k))) j = Some idx).
  { rewrite <- (indices_from_empty bs k b Hk).
    rewrite nth_error_firstn.
    destruct (Nat.ltb_spec j 36) as [_|H]; [|lia].
    rewrite nth_error_skipn. exact Hidx. }
  change (box_indices (u32 (8 * Z.of_nat k)))
    with (spec_indices (u32 (8 * Z.of_nat k))) in Hslice.
  assert (Hu : u32 (8 * Z.of_nat k) = 8 * Z.of_nat k)
    by (unfold u32; apply Z.mod_small; lia).
  rewrite Hu, spec_indices_no_wrap, nth_error_map in Hslice by lia.
  destruct (nth_error local_indices j) as [l|] eqn:Hl; [|discriminate].
  cbn [option_map] in Hslice. cbv beta in Hslice.
  assert (Hi : idx = 8 * Z.of_nat k + l) by congruence. subst idx.
  assert (Hl7 : 0 <= l <= 7).
  { apply nth_error_In in Hl. vm_compute in Hl.
    repeat (destruct Hl as [<-|Hl]; [lia|]). contradiction. }
  exists l. split; [reflexivity|]. split; [reflexivity|].
  replace (Z.to_nat (8 * Z.of_nat k + l))
    with (0 + 8 * k + Z.to_nat l)%nat by lia.
  rewrite (vertex_of_building bs [] [] k b 0 (Z.to_nat l) Hk eq_refl) by lia.
  apply vertex_of_box. exact Hl7.
Qed.

Lemma indices_fetch_own_corners_witness :
  exists l : Z,
    nth_error local_indices 8 = Some l /\
    14 = 8 * Z.of_nat 1 + l /\
    vertex (fst (createBuildingBuffers
                   [ground; cube10 F32.f0_5 F32.f0_5 F32.f0_5] [] []))
           (Z.to_nat 14) =
    corner_of_local (cube10 F32.f0_5 F32.f0_5 F32.f0_5) l.
Proof.
  apply (indices_fetch_own_corners
           [ground; cube10 F32.f0_5 F32.f0_5 F32.f0_5] 1
           (cube10 F32.f0_5 F32.f0_5 F32.f0_5) 8 14 eq_refl);
    [vm_compute; reflexivity | reflexivity | lia].
Defined.

(** On the box itself: a vertex of a triangle of face [f] has the
    coordinate of [f] on the axis of [f]. *)
Lemma face_vertex_on_face b f tri l :
  In tri (face_triangles f) -> In l (triangle_indices tri) ->
  nth (6 * Z.to_nat l + face_axis f) (box_vertices b) F32.f0 =
  face_coordinate b f.
Proof.
  intros Ht Hl.
  destruct f; cbn [face_triangles In] in Ht;
    destruct Ht as [<-|[<-|[]]]; cbn [triangle_indices In] in Hl;
    destruct Hl as [<-|[<-|[<-|[]]]]; reflexivity.
Qed.

(** Triangle [t] of the list is one of the two of face [t / 2]. *)
Lemma local_triangle_face t tri :
  nth_error (flat_map face_triangles faces) t = Some tri ->
  In tri (face_triangles (face_of_triangle t)).
Proof.
  intros Ht.
  do 12 (destruct t as [|t]; [injection Ht as <-; cbn; tauto|]).
  destruct t; discriminate.
Qed.

(** X6.  Every triangle lies on the face it is emitted for, and the two
    triangles of a face split its rectangle along a diagonal.  For a
    descriptor appended where the indices do not wrap, each of the three
    vertices of triangle [t] has, on the axis of face [t / 2], exactly the
    coordinate of that face of the box; the two triangles of a face are
    (a, b, c) and (c, d, a) on four different vertices. *)
Theorem triangles_lie_on_faces :
  forall (vertices : list float) (indices : list Z) (b : Building) (n : nat),
    length vertices = (6 * n)%nat ->
    Z.of_nat n + 7 < 2 ^ 32 ->
    let after := append_building (vertices, indices) b in
    let emitted := triangles (box_indices (base_index vertices)) in
    (forall (t : nat) (tri : Z * Z * Z) (idx : Z),
        nth_error emitted t = Some tri ->
        In idx (triangle_indices tri) ->
        nth (6 * Z.to_nat idx + face_axis (face_of_triangle t)) (fst after) F32.f0
        = face_coordinate b (face_of_triangle t)) /\
    (forall (q : nat) (t1 t2 : Z * Z * Z),
        nth_error emitted (2 * q) = Some t1 ->
        nth_error emitted (2 * q + 1) = Some t2 ->
        exists i0 i1 i2 i3 : Z,
          t1 = (i0, i1, i2) /\ t2 = (i2, i3, i0) /\ NoDup [i0; i1; i2; i3]).
Proof.
  intros vertices indices b n Hlen Hn after emitted.
  assert (Hbase : base_index vertices = Z.of_nat n)
    by (apply base_index_whole; [assumption | lia]).
  assert (Hem : emitted =
                map (fun t : Z * Z * Z =>
                       let '(i0, i1, i2) := t in
                       (Z.of_nat n + i0, Z.of_nat n + i1, Z.of_nat n + i2))
                    (flat_map face_triangles faces)).
  { unfold emitted. rewrite Hbase. apply triangles_box_indices; lia. }
  rewrite Hem. split.
  - intros t tri idx Ht Hin. rewrite nth_error_map in Ht.
    destruct (nth_error (flat_map face_triangles faces) t)
      as [[[l0 l1] l2]|] eqn:Hloc; [|discriminate].
    cbn [option_map] in Ht.
    assert (Htri : tri = (Z.of_nat n + l0, Z.of_nat n + l1, Z.of_nat n + l2))
      by congruence.
    subst tri. clear Ht.
    destruct (local_triangle_nonneg t l0 l1 l2 Hloc) as (H0 & H1 & H2).
    pose proof (local_triangle_face t _ Hloc) as Hface.
    assert (Hl : exists l, idx = Z.of_nat n + l /\ 0 <= l /\
                           In l (triangle_indices (l0, l1, l2))).
    { cbn [triangle_indices In] in *.
      destruct Hin as [<-|[<-|[<-|[]]]]; eexists; (split; [reflexivity|]);
        (split; [assumption|]); tauto. }
    destruct Hl as (l & -> & Hl0 & Hl).
    unfold after, append_building. cbn [fst].
    replace (6 * Z.to_nat (Z.of_nat n + l) + face_axis (face_of_triangle t))%nat
      with (length vertices +
            (6 * Z.to_nat l + face_axis (face_of_triangle t)))%nat by lia.
    rewrite app_nth2_plus.
    apply face_vertex_on_face with (tri := (l0, l1, l2)); assumption.
  - intros q t1 t2 H1 H2.
    assert (Hq : (2 * q < 12)%nat).
    { change 12%nat with (length (flat_map face_triangles faces)).
      erewrite <- length_map. apply nth_error_Some. rewrite H1. discriminate. }
    cbn [map flat_map faces face_triangles app] in H1, H2.
    do 6 (destruct q as [|q];
      [ cbn [Nat.mul Nat.add nth_error] in H1, H2;
        injection H1 as <-; injection H2 as <-;
        do 4 eexists; split; [reflexivity|]; split; [reflexivity|];
        repeat constructor; cbn [In]; lia | ]).
    lia.
Qed.

Lemma triangles_lie_on_faces_witness :
  let tri := (8, 12, 13) in
  nth_error (triangles (box_indices (base_index (box_vertices ground)))) 4
    = Some tri /\
  nth (6 * Z.to_nat 13 + face_axis Front)
      (box_vertices ground ++ box_vertices (cube10 F32.f0_5 F32.f0_5 F32.f0_5))
      F32.f0 = F32.of_Z 5.
Proof.
  split; [reflexivity|].
  destruct (triangles_lie_on_faces (box_vertices ground) []
              (cube10 F32.f0_5 F32.f0_5 F32.f0_5) 8 eq_refl
              ltac:(vm_compute; reflexivity)) as [H _].
  apply (H 4%nat (8, 12, 13) 13 eq_refl). cbn. tauto.
Defined.

(** ** The draws of [generateCity] *)

Section Draws.

Variable RNG : Type.
Variable sample : uniform_real_distribution -> RNG -> float * RNG.

(** One building takes eight draws, in either branch of the colour. *)
Lemma random_building_counting i g n :
  random_building (RNG * nat) (counting sample) i (g, n) =
  (fst (random_building RNG sample i g),
   (snd (random_building RNG sample i g), (n + 8)%nat)).
Proof.
  unfold random_building, building_color, bind, ret, counting. cbn [fst snd].
  destruct (Z.rem i 5 =? 0);
    repeat match goal with
      | |- context [sample ?d ?s] =>
          is_var s; destruct (sample d s) as [? ?]; cbn [fst snd]
      end;
    repeat f_equal; lia.
Qed.

Lemma generate_loop_counting fuel i numBuildings bs g n :
  fuel = Z.to_nat (numBuildings - i) ->
  generate_loop (RNG * nat) (counting sample) fuel i numBuildings bs (g, n) =
  (fst (generate_loop RNG sample fuel i numBuildings bs g),
   (snd (generate_loop RNG sample fuel i numBuildings bs g),
    (n + 8 * fuel)%nat)).
Proof.
  revert i bs g n. induction fuel as [|fuel IH]; intros i bs g n Hf.
  - cbn [generate_loop]. unfold ret. cbn [fst snd].
    rewrite Nat.mul_0_r, Nat.add_0_r. reflexivity.
  - rewrite !generate_loop_step by lia.
    rewrite random_building_counting.
    destruct (random_building RNG sample i g) as [b g']. cbn [fst snd].
    rewrite IH by lia.
    replace (n + 8 + 8 * fuel)%nat with (n + 8 * S fuel)%nat by lia.
    reflexivity.
Qed.

(** The loop up to [M] is the loop up to [N], continued. *)
Lemma generate_loop_split i N M bs g :
  i <= N <= M ->
  generate_loop RNG sample (Z.to_nat (M - i)) i M bs g =
  let (bs1, g1) := generate_loop RNG sample (Z.to_nat (N - i)) i N bs g in
  generate_loop RNG sample (Z.to_nat (M - N)) N M bs1 g1.
Proof.
  intros H. remember (Z.to_nat (N - i)) as fuel eqn:Hf.
  revert i bs g H Hf. induction fuel as [|fuel IH]; intros i bs g H Hf.
  - assert (i = N) by lia. subst i. cbn. unfold ret. reflexivity.
  - replace (Z.to_nat (M - i)) with (S (Z.to_nat (M - (i + 1)))) by lia.
    rewrite !generate_loop_step by lia.
    destruct (random_building RNG sample i g) as [b g'].
    apply IH; lia.
Qed.

End Draws.

(** X7.  [generateCity] takes exactly eight draws for each random building,
    in both branches of the colour, and none for the ground plane: a call
    with count [N] makes [8 * max 0 N] draws.  Counting them changes neither
    the buildings nor the state the generator is left in. *)
Theorem generateCity_draw_count :
  forall (RNG : Type) (sample : uniform_real_distribution -> RNG -> float * RNG)
         (old : list Building) (N : Z) (rng : RNG) (n : nat),
    let counted :=
      generate_loop (RNG * nat) (counting sample) (Z.to_nat N) 0 N old (rng, n) in
    let plain := generate_loop RNG sample (Z.to_nat N) 0 N old rng in
    snd (snd counted) = (n + 8 * Z.to_nat N)%nat /\
    fst counted = fst plain /\
    fst (snd counted) = snd plain /\
    generateCity (RNG * nat) (counting sample) old N (rng, n) =
    generateCity RNG sample old N rng.
Proof.
  intros RNG sample old N rng n counted plain.
  assert (E : counted = (fst plain, (snd plain, (n + 8 * Z.to_nat N)%nat))).
  { unfold counted, plain. apply generate_loop_counting. f_equal. lia. }
  repeat split; try (rewrite E; reflexivity).
  unfold generateCity. fold counted plain. rewrite E.
  destruct plain. reflexivity.
Qed.

(** X8.  With the same seed a larger count extends the city.  For
    [0 <= N <= M] the first [N] descriptors of [generateCity(M)] are the [N]
    random buildings of [generateCity(N)]; only the ground plane moves to
    the end. *)
Theorem generateCity_prefix_stable :
  forall (RNG : Type) (sample : uniform_real_distribution -> RNG -> float * RNG)
         (N M : Z) (rng : RNG),
    0 <= N <= M ->
    firstn (Z.to_nat N) (generateCity RNG sample [] M rng) =
    firstn (Z.to_nat N) (generateCity RNG sample [] N rng) /\
    generateCity RNG sample [] N rng =
    firstn (Z.to_nat N) (generateCity RNG sample [] M rng) ++ [ground].
Proof.
  intros RNG sample N M rng H.
  rewrite !generateCity_unfold. cbn [app].
  pose proof (generate_loop_split RNG sample 0 N M [] rng ltac:(lia)) as Hs.
  rewrite !Z.sub_0_r in Hs. rewrite Hs. clear Hs.
  pose proof (generate_loop_length RNG sample (Z.to_nat N) 0 N rng
                ltac:(f_equal; lia)) as Hlen.
  destruct (generate_loop RNG sample (Z.to_nat N) 0 N [] rng) as [bs1 g1].
  cbn [fst] in *.
  rewrite (generate_loop_app RNG sample _ N M bs1 g1). cbn [fst].
  assert (F : forall l' : list Building,
             firstn (Z.to_nat N) (bs1 ++ l') = bs1).
  { intros l'. rewrite <- Hlen, firstn_app, Nat.sub_diag, firstn_O, app_nil_r.
    apply firstn_all. }
  rewrite <- app_assoc, !F. split; reflexivity.
Qed.

Lemma generateCity_prefix_stable_witness :
  firstn (Z.to_nat 2) (generateCity nat low_sample [] 5 0%nat) =
  firstn (Z.to_nat 2) (generateCity nat low_sample [] 2 0%nat).
Proof.
  apply (generateCity_prefix_stable nat low_sample 2 5 0%nat). lia.
Defined.

(** ** Sums and differences of binary32 numbers *)

(** The sign only labels the result of rounding. *)
Lemma binary_round_aux_opp (M E : Z) (l : location) :
  binary_round_aux F32.prec F32.emax true M E l =
  SFopp (binary_round_aux F32.prec F32.emax false M E l).
Proof.
  unfold binary_round_aux.
  destruct (shr_fexp F32.prec F32.emax M E l) as [mrs e].
  destruct (shr_fexp F32.prec F32.emax
              (round_nearest_even (shr_m mrs) (loc_of_shr_record mrs)) e
              loc_Exact) as [mrs' e'].
  destruct (shr_m mrs'); try reflexivity.
  destruct (e' <=? F32.emax - F32.prec); reflexivity.
Qed.

Lemma binary_round_opp (M : positive) (E : Z) :
  binary_round F32.prec F32.emax true M E =
  SFopp (binary_round F32.prec F32.emax false M E).
Proof.
  unfold binary_round.
  destruct (shl_align M E (fexp F32.prec F32.emax (Zpos (digits2_pos M) + E))).
  apply binary_round_aux_opp.
Qed.

Lemma to_Q_opp (x : float) : (F32.to_Q (SFopp x) == - F32.to_Q x)%Q.
Proof.
  destruct x as [s|s| |s m e]; try reflexivity.
  cbn [SFopp F32.to_Q]. destruct s; unfold negb, cond_Zopp;
    rewrite ?inject_Z_opp; ring.
Qed.

Lemma val_sub (a b e : Z) : (val a e - val b e == val (a - b) e)%Q.
Proof.
  unfold val, Z.sub. rewrite inject_Z_plus, inject_Z_opp. ring.
Qed.

Lemma pow2_le_mono (a b : Z) : a <= b -> (F32.pow2 a <= F32.pow2 b)%Q.
Proof.
  intros H.
  setoid_replace (F32.pow2 a) with (val 1 a) by (unfold val; ring).
  setoid_replace (F32.pow2 b) with (val 1 b) by (unfold val; ring).
  apply (val_le_iff 1 1 a b a); [lia | lia |].
  rewrite Z.sub_diag, Z.pow_0_r.
  assert (0 < 2 ^ (b - a)) by (apply Z.pow_pos_nonneg; lia). lia.
Qed.

(** A mantissa that already fits is left as it is. *)
Lemma binary_round_aux_fits (M : positive) (E : Z) :
  fexp F32.prec F32.emax (Zpos (digits2_pos M) + E) = E ->
  E <= 104 ->
  binary_round_aux F32.prec F32.emax false (Zpos M) E loc_Exact =
  S754_finite false M E.
Proof.
  intros Hf HE. unfold binary_round_aux, shr_fexp. cbn [Zdigits2].
  rewrite Hf, Z.sub_diag. cbn [shr shr_record_of_loc shr_m loc_of_shr_record
                               round_nearest_even Zdigits2].
  rewrite Hf, Z.sub_diag. cbn [shr shr_record_of_loc shr_m].
  destruct (Z.leb_spec E (F32.emax - F32.prec)) as [_|H]; [reflexivity|].
  unfold F32.emax, F32.prec in H. lia.
Qed.

(** The digits of a mantissa shifted left. *)
Lemma digits2_pos_shift (M M' : positive) (k : Z) :
  0 <= k -> Zpos M' = Zpos M * 2 ^ k ->
  Zpos (digits2_pos M') = Zpos (digits2_pos M) + k.
Proof.
  intros Hk HM. apply digits2_pos_unique. rewrite HM.
  pose proof (digits2_pos_bounds M) as [Dlo Dhi].
  set (d := Zpos (digits2_pos M)) in *.
  assert (Hd : 1 <= d) by (unfold d; lia).
  replace (d + k - 1) with (d - 1 + k) by lia.
  rewrite !Z.pow_add_r by lia.
  assert (0 < 2 ^ k) by (apply Z.pow_pos_nonneg; lia). nia.
Qed.

(** Rounding an exact positive value [M * 2^E] below [2^B]: the result is
    a binary32 number within half a unit of the last of the 24 places of
    [2^B]. *)
Lemma binary_round_error (M : positive) (E B : Z) :
  -149 <= E -> B <= 127 ->
  (val (Zpos M) E < F32.pow2 B)%Q ->
  exists (m : positive) (e : Z),
    binary_round F32.prec F32.emax false M E = S754_finite false m e /\
    (val (Zpos m) e - val (Zpos M) E <= F32.pow2 (B - 25))%Q /\
    (val (Zpos M) E - val (Zpos m) e <= F32.pow2 (B - 25))%Q.
Proof.
  intros HE HB Hlt.
  pose proof (digits2_pos_bounds M) as [Dlo Dhi].
  set (d := Zpos (digits2_pos M)) in *.
  assert (Hd : 1 <= d) by (unfold d; lia).
  (* the digits of [M] stay below [B - E] *)
  assert (HdB : d + E <= B).
  { destruct (Z.le_gt_cases (d + E) B) as [H|H]; [exact H|exfalso].
    apply (Qlt_irrefl (val (Zpos M) E)).
    eapply Qlt_le_trans; [exact Hlt|].
    setoid_replace (F32.pow2 B) with (val 1 B) by (unfold val; ring).
    apply (val_le_iff 1 (Zpos M) B E (Z.min B E)); [lia | lia |].
    set (b := Z.min B E).
    assert (2 ^ (B - b) <= 2 ^ (d - 1) * 2 ^ (E - b)).
    { rewrite <- Z.pow_add_r by lia. apply Z.pow_le_mono_r; lia. }
    assert (0 < 2 ^ (E - b)) by (apply Z.pow_pos_nonneg; lia). nia. }
  assert (Hpos : forall k, (0 <= F32.pow2 k)%Q)
    by (intro k; apply Qlt_le_weak, pow2_pos).
  unfold binary_round. fold d.
  set (e' := fexp F32.prec F32.emax (d + E)).
  destruct (shl_align_spec M E e') as [Hez Hmz].
  destruct (shl_align M E e') as [mz ez]. cbn [fst snd] in *.
  destruct (Z.le_gt_cases e' E) as [Hfit|Hcut].
  - (* the mantissa fits: the result is exact *)
    replace (Z.min E e') with e' in * by lia. subst ez.
    assert (Hdz : Zpos (digits2_pos mz) = d + (E - e'))
      by (apply digits2_pos_shift; [lia | exact Hmz]).
    assert (He' : e' <= 104)
      by (unfold e', fexp, emin, F32.prec, F32.emax in *; lia).
    rewrite binary_round_aux_fits;
      [| rewrite Hdz; replace (d + (E - e') + e') with (d + E) by lia;
         reflexivity | exact He'].
    exists mz, e'.
    assert (Hv : (val (Zpos mz) e' == val (Zpos M) E)%Q)
      by (rewrite (val_scale (Zpos M) E e') by lia; rewrite Hmz; reflexivity).
    split; [reflexivity|]. rewrite Hv.
    split; (setoid_replace (val (Zpos M) E - val (Zpos M) E)%Q with 0%Q by ring);
      apply Hpos.
  - (* the mantissa is cut by [n] digits and rounded to nearest *)
    replace (Z.min E e') with E in * by lia. subst ez.
    rewrite Z.sub_diag, Z.pow_0_r, Z.mul_1_r in Hmz. injection Hmz as ->.
    assert (He'd : e' = d + E - 24)
      by (unfold e', fexp, emin, F32.prec, F32.emax in *; lia).
    set (n := d - 24).
    assert (Hn : 0 <= n) by (unfold n; lia).
    assert (Hpn : 0 < 2 ^ n) by (apply Z.pow_pos_nonneg; lia).
    destruct (binary_round_aux_normal M E) as (Hm1 & m2 & Hnear & Hres);
      [fold d; fold n; lia | fold d; fold n; lia |].
    fold d in Hm1, Hnear, Hres. fold n in Hm1, Hnear, Hres.
    set (m1 := Zpos M / 2 ^ n) in *.
    pose proof (Z.div_mod (Zpos M) (2 ^ n) ltac:(lia)) as Hdm. fold m1 in Hdm.
    pose proof (Z.mod_pos_bound (Zpos M) (2 ^ n) Hpn) as Hrem.
    assert (Herr : 2 * Z.abs (Zpos m2 * 2 ^ n - Zpos M) <= 2 ^ n).
    { destruct Hnear as [[-> H]|[-> H]]; lia. }
    assert (Hm2 : 2 ^ 23 <= Zpos m2 <= 2 ^ 24)
      by (destruct Hnear as [[-> _]|[-> _]]; lia).
    (* both forms of the result have the value [m2 * 2^(E+n)] *)
    assert (Hform : exists (m : positive) (e : Z),
               binary_round_aux F32.prec F32.emax false (Zpos M) E loc_Exact =
                 S754_finite false m e /\
               (val (Zpos m) e == val (Zpos m2) (E + n))%Q).
    { rewrite Hres. unfold finite_or_infinity.
      destruct (Z.ltb_spec (Zpos m2) (2 ^ 24)) as [Hlt2|Hge2].
      - destruct (Z.leb_spec (E + n) (F32.emax - F32.prec)) as [_|Hov];
          [|unfold F32.emax, F32.prec, n in Hov; lia].
        exists m2, (E + n). split; reflexivity.
      - destruct (Z.leb_spec (E + n + 1) (F32.emax - F32.prec)) as [_|Hov];
          [|unfold F32.emax, F32.prec, n in Hov; lia].
        exists (2 ^ 23)%positive, (E + n + 1). split; [reflexivity|].
        rewrite (val_scale _ (E + n + 1) (E + n)) by lia.
        replace (E + n + 1 - (E + n)) with 1 by lia.
        replace (Zpos m2) with (2 ^ 24) by lia. reflexivity. }
    destruct Hform as (m & e & Hr & Hv). exists m, e.
    split; [exact Hr|]. rewrite Hv.
    assert (Hgrid : (F32.pow2 (E + n - 1) <= F32.pow2 (B - 25))%Q)
      by (apply pow2_le_mono; unfold n; lia).
    assert (Hs1 : (val (Zpos m2) (E + n) == val (2 * (Zpos m2 * 2 ^ n)) (E - 1))%Q).
    { rewrite (val_scale _ (E + n) (E - 1)) by lia.
      replace (E + n - (E - 1)) with (n + 1) by lia.
      rewrite Z.pow_add_r, Z.pow_1_r by lia.
      replace (Zpos m2 * (2 ^ n * 2)) with (2 * (Zpos m2 * 2 ^ n)) by lia.
      reflexivity. }
    assert (Hs2 : (val (Zpos M) E == val (2 * Zpos M) (E - 1))%Q).
    { rewrite (val_scale _ E (E - 1)) by lia.
      replace (E - (E - 1)) with 1 by lia. rewrite Z.pow_1_r.
      replace (Zpos M * 2) with (2 * Zpos M) by lia. reflexivity. }
    assert (Hs3 : (F32.pow2 (E + n - 1) == val (2 ^ n) (E - 1))%Q).
    { unfold val. rewrite <- pow2_nonneg by lia. rewrite <- pow2_add.
      replace (n + (E - 1)) with (E + n - 1) by lia. reflexivity. }
    rewrite Hs1, Hs2.
    split; (eapply Qle_trans; [|exact Hgrid]); rewrite Hs3, val_sub;
      apply val_le_same; lia.
Qed.

(** Rounding an exact value of either sign. *)
Lemma binary_normalize_error (S E B : Z) :
  -149 <= E -> B <= 127 ->
  (val (Z.abs S) E < F32.pow2 B)%Q ->
  let r := binary_normalize F32.prec F32.emax S E false in
  F32.is_finite r = true /\
  (F32.to_Q r - val S E <= F32.pow2 (B - 25))%Q /\
  (val S E - F32.to_Q r <= F32.pow2 (B - 25))%Q.
Proof.
  intros HE HB Hlt r. subst r.
  assert (Hpos : (0 <= F32.pow2 (B - 25))%Q) by apply Qlt_le_weak, pow2_pos.
  destruct S as [|M|M]; cbn [binary_normalize Z.abs] in *.
  - split; [reflexivity|]. cbn [F32.to_Q]. unfold val.
    split; (setoid_replace (0 - inject_Z 0 * F32.pow2 E)%Q with 0%Q by ring
            || setoid_replace (inject_Z 0 * F32.pow2 E - 0)%Q with 0%Q by ring);
      exact Hpos.
  - destruct (binary_round_error M E B HE HB Hlt) as (m & e & -> & H1 & H2).
    split; [reflexivity|]. rewrite to_Q_finite. split; assumption.
  - destruct (binary_round_error M E B HE HB Hlt) as (m & e & Hr & H1 & H2).
    rewrite binary_round_opp, Hr. split; [reflexivity|].
    rewrite to_Q_opp, to_Q_finite.
    assert (Hneg : (val (Zneg M) E == - val (Zpos M) E)%Q).
    { unfold val. change (Zneg M) with (- Zpos M). rewrite inject_Z_opp. ring. }
    rewrite Hneg. split.
    + setoid_replace (- val (Zpos m) e - - val (Zpos M) E)%Q
        with (val (Zpos M) E - val (Zpos m) e)%Q by ring. exact H2.
    + setoid_replace (- val (Zpos M) E - - val (Zpos m) e)%Q
        with (val (Zpos m) e - val (Zpos M) E)%Q by ring. exact H1.
Qed.

(** The exponent of a binary32 number is at least -149. *)
Lemma valid_exponent s m e :
  F32.valid (S754_finite s m e) = true -> -149 <= e.
Proof.
  unfold F32.valid, valid_binary, bounded, canonical_mantissa.
  intros H. apply andb_prop in H. destruct H as [H _].
  apply Z.eqb_eq in H. unfold fexp, emin, F32.prec, F32.emax in H. lia.
Qed.

Lemma to_Q_signed s m e :
  F32.to_Q (S754_finite s m e) = val (cond_Zopp s (Zpos m)) e.
Proof. reflexivity. Qed.

(** A sum of two finite binary32 numbers that lies, before rounding,
    strictly between [-2^B] and [2^B] is finite and within [2^(B-25)] of
    the exact sum. *)
Lemma add_error (x y : float) (B : Z) :
  F32.valid x = true -> F32.valid y = true ->
  F32.is_finite x = true -> F32.is_finite y = true ->
  B <= 127 ->
  (- F32.pow2 B < F32.to_Q x + F32.to_Q y)%Q ->
  (F32.to_Q x + F32.to_Q y < F32.pow2 B)%Q ->
  F32.is_finite (F32.add x y) = true /\
  (F32.to_Q (F32.add x y) - (F32.to_Q x + F32.to_Q y) <= F32.pow2 (B - 25))%Q /\
  (F32.to_Q x + F32.to_Q y - F32.to_Q (F32.add x y) <= F32.pow2 (B - 25))%Q.
Proof.
  intros Vx Vy Fx Fy HB Hlo Hhi.
  assert (Hpos : (0 <= F32.pow2 (B - 25))%Q) by apply Qlt_le_weak, pow2_pos.
  assert (Z0 : forall q : Q, (q - (0 + q) <= F32.pow2 (B - 25))%Q /\
                             (0 + q - q <= F32.pow2 (B - 25))%Q).
  { intros q. split; [setoid_replace (q - (0 + q))%Q with 0%Q by ring
                     | setoid_replace (0 + q - q)%Q with 0%Q by ring];
      exact Hpos. }
  assert (Z1 : forall q : Q, (q - (q + 0) <= F32.pow2 (B - 25))%Q /\
                             (q + 0 - q <= F32.pow2 (B - 25))%Q).
  { intros q. split; [setoid_replace (q - (q + 0))%Q with 0%Q by ring
                     | setoid_replace (q + 0 - q)%Q with 0%Q by ring];
      exact Hpos. }
  destruct x as [sx|sx| |sx mx ex]; try discriminate;
    destruct y as [sy|sy| |sy my ey]; try discriminate.
  - assert (E : F32.to_Q (F32.add (S754_zero sx) (S754_zero sy)) = 0%Q)
      by (destruct sx, sy; reflexivity).
    split; [destruct sx, sy; reflexivity|]. rewrite E. apply (Z0 0%Q).
  - split; [reflexivity|]. apply Z0.
  - split; [reflexivity|]. apply Z1.
  - apply valid_exponent in Vx, Vy.
    unfold F32.add. cbn [SFadd].
    set (ez := Z.min ex ey).
    destruct (shl_align_spec mx ex ez) as [_ Ha].
    destruct (shl_align_spec my ey ez) as [_ Hb].
    replace (Z.min ex ez) with ez in Ha by (unfold ez; lia).
    replace (Z.min ey ez) with ez in Hb by (unfold ez; lia).
    set (pa := fst (shl_align mx ex ez)) in *.
    set (pb := fst (shl_align my ey ez)) in *.
    set (S := cond_Zopp sx (Zpos pa) + cond_Zopp sy (Zpos pb)).
    assert (Hval : (val S ez == F32.to_Q (S754_finite sx mx ex) +
                                F32.to_Q (S754_finite sy my ey))%Q).
    { rewrite !to_Q_signed.
      rewrite (val_scale _ ex ez), (val_scale _ ey ez) by (unfold ez; lia).
      unfold S, val. rewrite inject_Z_plus.
      replace (cond_Zopp sx (Zpos mx) * 2 ^ (ex - ez))
        with (cond_Zopp sx (Zpos pa)) by (destruct sx; cbn [cond_Zopp]; lia).
      replace (cond_Zopp sy (Zpos my) * 2 ^ (ey - ez))
        with (cond_Zopp sy (Zpos pb)) by (destruct sy; cbn [cond_Zopp]; lia).
      ring. }
    rewrite <- Hval in *.
    apply binary_normalize_error; [unfold ez; lia | exact HB |].
    destruct (Z.abs_spec S) as [[_ ->]|[_ ->]]; [exact Hhi|].
    setoid_replace (val (- S) ez) with (- val S ez)%Q
      by (unfold val; rewrite inject_Z_opp; ring).
    apply Qopp_lt_compat in Hlo. rewrite Qopp_opp in Hlo. exact Hlo.
Qed.

(** A difference is the sum with the opposite. *)
Lemma sub_as_add (x y : float) :
  F32.is_finite x = true -> F32.is_finite y = true ->
  F32.sub x y = F32.add x (SFopp y).
Proof.
  destruct x as [sx|sx| |sx mx ex]; try discriminate;
    destruct y as [sy|sy| |sy my ey]; try discriminate; intros _ _.
  - destruct sx, sy; reflexivity.
  - reflexivity.
  - reflexivity.
  - unfold F32.sub, F32.add. cbn [SFsub SFadd SFopp].
    destruct sx, sy; reflexivity.
Qed.

Lemma valid_opp (y : float) : F32.valid (SFopp y) = F32.valid y.
Proof. destruct y; reflexivity. Qed.

Lemma is_finite_opp (y : float) : F32.is_finite (SFopp y) = F32.is_finite y.
Proof. destruct y; reflexivity. Qed.

(** Likewise for a difference. *)
Lemma sub_error (x y : float) (B : Z) :
  F32.valid x = true -> F32.valid y = true ->
  F32.is_finite x = true -> F32.is_finite y = true ->
  B <= 127 ->
  (- F32.pow2 B < F32.to_Q x - F32.to_Q y)%Q ->
  (F32.to_Q x - F32.to_Q y < F32.pow2 B)%Q ->
  F32.is_finite (F32.sub x y) = true /\
  (F32.to_Q (F32.sub x y) - (F32.to_Q x - F32.to_Q y) <= F32.pow2 (B - 25))%Q /\
  (F32.to_Q x - F32.to_Q y - F32.to_Q (F32.sub x y) <= F32.pow2 (B - 25))%Q.
Proof.
  intros Vx Vy Fx Fy HB Hlo Hhi.
  rewrite sub_as_add by assumption.
  assert (E : (F32.to_Q x - F32.to_Q y == F32.to_Q x + F32.to_Q (SFopp y))%Q)
    by (rewrite to_Q_opp; ring).
  rewrite E in *.
  apply add_error; try assumption.
  - rewrite valid_opp. exact Vy.
  - rewrite is_finite_opp. exact Fy.
Qed.

(** ** Half extents *)

(** Halving a normal number only lowers its exponent. *)
Lemma half_exact (m : positive) (e : Z) :
  normal m e -> -147 <= e ->
  F32.div (S754_finite false m e) F32.f2 = S754_finite false m (e - 1).
Proof.
  intros [Hm He] Hlow.
  assert (Hd : Zpos (digits2_pos m) = 24) by (apply digits2_pos_unique; lia).
  change F32.f2 with (S754_finite false 8388608 (-22)).
  unfold F32.div. cbn [SFdiv xorb]. unfold SFdiv_core_binary.
  cbn [Zdigits2]. rewrite Hd. change (Zpos (digits2_pos 8388608)) with 24.
  replace (Z.min (fexp F32.prec F32.emax (24 + e - (24 + -22))) (e - -22))
    with (e - 2) by (unfold fexp, emin, F32.prec, F32.emax; lia).
  replace (e - -22 - (e - 2)) with 24 by lia.
  destruct (Z.div_eucl (Z.shiftl (Zpos m) 24) 8388608) as [q r] eqn:Hqr.
  assert (Hq : q = Z.shiftl (Zpos m) 24 / 8388608)
    by (unfold Z.div; rewrite Hqr; reflexivity).
  assert (Hr : r = Z.shiftl (Zpos m) 24 mod 8388608)
    by (unfold Z.modulo; rewrite Hqr; reflexivity).
  rewrite Z.shiftl_mul_pow2 in Hq, Hr by lia.
  assert (Hq' : q = Zpos m~0).
  { rewrite Hq. symmetry. apply Z.div_unique with 0; lia. }
  assert (Hr' : r = 0).
  { rewrite Hr. symmetry. apply Z.mod_unique with (2 * Zpos m); lia. }
  rewrite Hq', Hr'. clear Hq Hr Hqr Hq' Hr'.
  change (new_location 8388608 0) with loc_Exact.
  pose proof (binary_round_aux_normal m~0 (e - 2)) as H. cbv zeta in H.
  assert (Hd2 : Zpos (digits2_pos m~0) = 25)
    by (apply digits2_pos_unique; lia).
  rewrite Hd2 in H. change (25 - 24) with 1 in H.
  destruct (H ltac:(lia) ltac:(lia)) as (_ & m2 & Hnear & Hres). clear H.
  rewrite Hres. clear Hres.
  assert (Hm2 : m2 = m).
  { assert (E1 : Zpos m~0 / 2 ^ 1 = Zpos m)
      by (symmetry; apply Z.div_unique with 0; lia).
    assert (E2 : Zpos m~0 mod 2 ^ 1 = 0)
      by (symmetry; apply Z.mod_unique with (Zpos m); lia).
    rewrite E1, E2 in Hnear. destruct Hnear as [[H _]|[_ H]]; lia. }
  subst m2. destruct (Z.ltb_spec (Zpos m) (2 ^ 24)) as [_|H]; [|lia].
  unfold finite_or_infinity.
  destruct (Z.leb_spec (e - 2 + 1) (F32.emax - F32.prec)) as [_|H];
    [|unfold F32.emax, F32.prec in H; lia].
  f_equal. lia.
Qed.

(** A binary32 number whose value is at least 1 is positive and normal,
    with an exponent of at least -23. *)
Lemma valid_pos_normal (c : float) :
  F32.valid c = true -> (1 <= F32.to_Q c)%Q ->
  exists (m : positive) (e : Z),
    c = S754_finite false m e /\ normal m e /\ -23 <= e.
Proof.
  intros Hv Hlo.
  destruct c as [s|s| |s m e]; try (exfalso; apply Hlo; reflexivity).
  destruct s.
  { exfalso. cbn [F32.to_Q cond_Zopp] in Hlo.
    assert (H : (inject_Z (- Zpos m) * F32.pow2 e <= 0)%Q).
    { setoid_replace (0%Q) with (inject_Z 0 * F32.pow2 e)%Q by ring.
      apply Qmult_le_compat_r; [|apply Qlt_le_weak, pow2_pos].
      rewrite <- Zle_Qle. lia. }
    apply (Qle_not_lt _ _ (Qle_trans _ _ _ Hlo H)). reflexivity. }
  rewrite to_Q_finite in Hlo.
  unfold F32.valid, valid_binary, bounded, canonical_mantissa in Hv.
  apply andb_prop in Hv. destruct Hv as [Hc He].
  apply Z.eqb_eq in Hc. apply Z.leb_le in He.
  unfold fexp, emin, F32.prec, F32.emax in Hc, He.
  pose proof (digits2_pos_bounds m) as [Dlo Dhi].
  set (d := Zpos (digits2_pos m)) in *.
  assert (Hd1 : 1 <= d) by (unfold d; lia).
  assert (Hup : 0 < d + e).
  { destruct (Z.lt_ge_cases 0 (d + e)) as [H|H]; [exact H|exfalso].
    assert (Hc' : (val (Zpos m) e < val 1 0)%Q).
    { apply (val_lt_iff _ _ e 0 (Z.min e 0)); [lia | lia |].
      set (B := Z.min e 0).
      assert (2 ^ d * 2 ^ (e - B) <= 1 * 2 ^ (0 - B)).
      { rewrite Z.mul_1_l, <- Z.pow_add_r by lia.
        apply Z.pow_le_mono_r; lia. }
      assert (0 < 2 ^ (e - B)) by (apply Z.pow_pos_nonneg; lia). nia. }
    apply (Qlt_irrefl (val 1 0)).
    eapply Qle_lt_trans; [|exact Hc']. exact Hlo. }
  assert (Hd : d = 24) by lia.
  exists m, e. split; [reflexivity|].
  rewrite Hd in Dlo, Dhi. unfold normal. lia.
Qed.

(** The value of a half. *)
Lemma val_half (m e : Z) : (val m (e - 1) == val m e * (1 # 2))%Q.
Proof.
  unfold val. replace e with (e - 1 + 1) at 2 by lia.
  rewrite pow2_add. change (F32.pow2 1) with 2%Q. ring.
Qed.

Lemma normal_valid (m : positive) (e : Z) (s : bool) :
  normal m e -> F32.valid (S754_finite s m e) = true.
Proof.
  intros [Hm He].
  unfold F32.valid, valid_binary, bounded, canonical_mantissa.
  rewrite (digits2_pos_unique m 24) by lia.
  apply andb_true_intro. split.
  - apply Z.eqb_eq. unfold fexp, emin, F32.prec, F32.emax. lia.
  - apply Z.leb_le. unfold F32.emax, F32.prec. lia.
Qed.

(** ** The extent of a generated box along one axis *)

(** A size between 5 and 60 is halved exactly, and a position between -100
    and 100 less or plus that half is off its exact value by at most
    [2^-17]. *)
Lemma extent_error (p w : float) :
  draw_in p (-100) 100 -> draw_in w 5 60 ->
  let h := F32.div w F32.f2 in
  (F32.to_Q h == F32.to_Q w * (1 # 2))%Q /\
  (exists (m : positive) (e : Z), h = S754_finite false m e) /\
  F32.is_finite (F32.sub p h) = true /\
  F32.is_finite (F32.add p h) = true /\
  (F32.to_Q (F32.sub p h) <= F32.to_Q p - F32.to_Q h + (1 # 131072))%Q /\
  (F32.to_Q p - F32.to_Q h - (1 # 131072) <= F32.to_Q (F32.sub p h))%Q /\
  (F32.to_Q (F32.add p h) <= F32.to_Q p + F32.to_Q h + (1 # 131072))%Q /\
  (F32.to_Q p + F32.to_Q h - (1 # 131072) <= F32.to_Q (F32.add p h))%Q.
Proof.
  intros (Vp & Fp & Lp & Up) (Vw & Fw & Lw & Uw) h.
  destruct (valid_pos_normal w Vw) as (m & e & Ew & Hn & He).
  { eapply Qle_trans; [|exact Lw]. discriminate. }
  assert (Eh : h = S754_finite false m (e - 1)).
  { unfold h. rewrite Ew. apply half_exact; [exact Hn | lia]. }
  assert (Hn' : normal m (e - 1)) by (unfold normal in *; lia).
  assert (Qh : (F32.to_Q h == F32.to_Q w * (1 # 2))%Q).
  { rewrite Eh, Ew, !to_Q_finite. apply val_half. }
  assert (Vh : F32.valid h = true) by (rewrite Eh; apply normal_valid, Hn').
  assert (Fh : F32.is_finite h = true) by (rewrite Eh; reflexivity).
  assert (E8 : (F32.pow2 8 == 256)%Q) by reflexivity.
  assert (E17 : (F32.pow2 (8 - 25) == 1 # 131072)%Q) by reflexivity.
  destruct (sub_error p h 8 Vp Vh Fp Fh ltac:(lia)) as (Fs & S1 & S2).
  { rewrite E8, Qh. lra. }
  { rewrite E8, Qh. lra. }
  destruct (add_error p h 8 Vp Vh Fp Fh ltac:(lia)) as (Fa & A1 & A2).
  { rewrite E8, Qh. lra. }
  { rewrite E8, Qh. lra. }
  rewrite E17 in S1, S2, A1, A2.
  split; [exact Qh|]. split; [exists m, (e - 1); exact Eh|].
  split; [exact Fs|]. split; [exact Fa|].
  repeat split; lra.
Qed.

(** Around the literal [0.0f] nothing is rounded. *)
Lemma extent_at_zero (m : positive) (e : Z) :
  F32.sub F32.f0 (S754_finite false m e) = S754_finite true m e /\
  F32.add F32.f0 (S754_finite false m e) = S754_finite false m e.
Proof. split; reflexivity. Qed.

Lemma to_Q_negative (m : positive) (e : Z) :
  (F32.to_Q (S754_finite true m e) == - F32.to_Q (S754_finite false m e))%Q.
Proof.
  cbn [F32.to_Q cond_Zopp]. rewrite inject_Z_opp. ring.
Qed.

(** ** The boxes of a generated city *)

Lemma draw_in_wider (x : float) (lo hi lo' hi' : Q) :
  (lo' <= lo)%Q -> (hi <= hi')%Q -> draw_in x lo hi -> draw_in x lo' hi'.
Proof.
  intros Hl Hh (V & F & L & U). repeat split; try assumption.
  - eapply Qle_trans; eassumption.
  - eapply Qle_trans; eassumption.
Qed.

Lemma zero_draw : draw_in F32.f0 (-100) 100.
Proof. repeat split; discriminate. Qed.

Lemma ground_proper : proper_box ground.
Proof. unfold proper_box. repeat split. Qed.

Section CityBoxes.

Variable RNG : Type.
Variable sample : uniform_real_distribution -> RNG -> float * RNG.
Hypothesis Hdraws : city_draws sample.

(** The box of a random building: its extent along x and z stays within
    108 of the origin and is at least 5 - 2^-16 wide, and along y it runs
    from minus half the height to half the height, exactly. *)
Lemma random_building_box (i : Z) (g : RNG) :
  let b := fst (random_building RNG sample i g) in
  proper_box b /\
  (-108 <= F32.to_Q (x_left b))%Q /\ (F32.to_Q (x_right b) <= 108)%Q /\
  (-108 <= F32.to_Q (z_back b))%Q /\ (F32.to_Q (z_front b) <= 108)%Q /\
  (F32.to_Q (y_top b) == F32.to_Q (height b) * (1 # 2))%Q /\
  (F32.to_Q (y_bottom b) == - (F32.to_Q (height b) * (1 # 2)))%Q /\
  draw_in (height b) 10 60.
Proof.
  intros b.
  destruct (random_building_fields RNG sample i g)
    as (gx & gz & gw & gd & gh & gc & Ex & Ey & Ez & Ew & Ed & Eh & _).
  fold b in Ex, Ey, Ez, Ew, Ed, Eh.
  destruct Hdraws as (Dx & Dz & Dw & Dd & Dh).
  specialize (Dx gx). specialize (Dz gz). specialize (Dw gw).
  specialize (Dd gd). specialize (Dh gh).
  rewrite <- Ex in Dx. rewrite <- Ez in Dz. rewrite <- Ew in Dw.
  rewrite <- Ed in Dd. rewrite <- Eh in Dh.
  assert (Dw' : draw_in (width b) 5 60)
    by (revert Dw; apply draw_in_wider; discriminate).
  assert (Dd' : draw_in (depth b) 5 60)
    by (revert Dd; apply draw_in_wider; discriminate).
  assert (Dh' : draw_in (height b) 5 60)
    by (revert Dh; apply draw_in_wider; discriminate).
  destruct (extent_error _ _ Dx Dw')
    as (Qw & _ & Fxl & Fxr & Xl1 & Xl2 & Xr1 & Xr2).
  destruct (extent_error _ _ Dz Dd')
    as (Qd & _ & Fzb & Fzf & Zb1 & Zb2 & Zf1 & Zf2).
  pose proof zero_draw as Dy. rewrite <- Ey in Dy.
  destruct (extent_error _ _ Dy Dh')
    as (Qh & (m & e & Hh) & _).
  cbv zeta in *.
  fold (x_left b) in Fxl, Xl1, Xl2. fold (x_right b) in Fxr, Xr1, Xr2.
  fold (z_back b) in Fzb, Zb1, Zb2. fold (z_front b) in Fzf, Zf1, Zf2.
  assert (Yb : y_bottom b = S754_finite true m e).
  { unfold y_bottom. rewrite Ey, Hh. reflexivity. }
  assert (Yt : y_top b = S754_finite false m e).
  { unfold y_top. rewrite Ey, Hh. reflexivity. }
  assert (Qt : (F32.to_Q (y_top b) == F32.to_Q (height b) * (1 # 2))%Q)
    by (rewrite Yt, <- Hh; exact Qh).
  assert (Qb : (F32.to_Q (y_bottom b) == - (F32.to_Q (height b) * (1 # 2)))%Q)
    by (rewrite Yb, to_Q_negative, <- Hh, Qh; reflexivity).
  destruct Dx as (_ & _ & Lx & Ux). destruct Dz as (_ & _ & Lz & Uz).
  destruct Dw as (_ & _ & Lw & Uw). destruct Dd as (_ & _ & Ld & Ud).
  pose proof Dh as (_ & _ & Lh & Uh).
  unfold proper_box.
  rewrite Yb at 1. rewrite Yt at 1.
  refine (conj _ (conj _ (conj _ (conj _ (conj _ (conj Qt (conj Qb Dh)))))));
    [repeat split; try assumption; try reflexivity; lra | lra ..].
Qed.

(** A descriptor of [generateCity] is a random building or, at the end,
    the ground plane. *)
Lemma generateCity_nth_cases (N : Z) (rng : RNG) (k : nat) (b : Building) :
  nth_error (generateCity RNG sample [] N rng) k = Some b ->
  (Z.of_nat k < N /\
   exists g, b = fst (random_building RNG sample (Z.of_nat k) g)) \/
  (k = Z.to_nat N /\ b = ground).
Proof.
  intros Hn.
  destruct (Z.lt_ge_cases (Z.of_nat k) N) as [Hlt|Hge].
  - left. split; [exact Hlt|].
    exact (generateCity_nth_random RNG sample N rng k b Hlt Hn).
  - right. rewrite generateCity_unfold in Hn. cbn [app] in Hn.
    pose proof (generate_loop_length RNG sample (Z.to_nat N) 0 N rng
                  ltac:(f_equal; lia)) as Hlen.
    rewrite nth_error_app2 in Hn by lia. rewrite Hlen in Hn.
    destruct (k - Z.to_nat N)%nat as [|j] eqn:Hj.
    + split; [lia|]. cbn in Hn. congruence.
    + destruct j; discriminate.
Qed.

Lemma generateCity_proper (N : Z) (rng : RNG) (k : nat) (b : Building) :
  nth_error (generateCity RNG sample [] N rng) k = Some b -> proper_box b.
Proof.
  intros Hn. destruct (generateCity_nth_cases N rng k b Hn)
    as [(_ & g & ->)|(_ & ->)].
  - apply random_building_box.
  - exact ground_proper.
Qed.

End CityBoxes.

(** ** Triangles of the whole index buffer *)

Lemma nth_error_flat_map_blocks {A B : Type} (f : A -> list B) (n : nat)
    (l : list A) (t : nat) (y : B) :
  n <> 0%nat -> (forall x, length (f x) = n) ->
  nth_error (flat_map f l) t = Some y ->
  exists x, nth_error l (t / n) = Some x /\ nth_error (f x) (t mod n) = Some y.
Proof.
  intros Hn Hlen. revert t. induction l as [|a l IH]; intros t H.
  - destruct t; discriminate.
  - cbn [flat_map] in H.
    destruct (Nat.lt_ge_cases t n) as [Hlt|Hge].
    + rewrite nth_error_app1 in H by (rewrite Hlen; exact Hlt).
      exists a. rewrite Nat.div_small, Nat.mod_small by exact Hlt.
      split; [reflexivity | exact H].
    + rewrite nth_error_app2 in H by (rewrite Hlen; exact Hge).
      rewrite Hlen in H. apply IH in H. destruct H as (x & H1 & H2).
      exists x. replace t with ((t - n) + 1 * n)%nat at 1 2 by lia.
      rewrite Nat.div_add, Nat.Div0.mod_add by exact Hn.
      rewrite Nat.add_1_r. split; [exact H1 | exact H2].
Qed.

Lemma triangles_blocks {A : Type} (f : A -> Z) (l : list A) :
  triangles (flat_map (fun k => box_indices (f k)) l) =
  flat_map (fun k => triangles (box_indices (f k))) l.
Proof.
  induction l as [|a l IH]; [reflexivity|].
  cbn [flat_map]. rewrite <- IH. reflexivity.
Qed.

Lemma local_triangle_bounds t i0 i1 i2 :
  nth_error (flat_map face_triangles faces) t = Some (i0, i1, i2) ->
  0 <= i0 <= 7 /\ 0 <= i1 <= 7 /\ 0 <= i2 <= 7.
Proof.
  intros Ht.
  do 12 (destruct t as [|t]; [injection Ht as <- <- <-; lia|]).
  destruct t; discriminate.
Qed.

(** A corner of the building at place [k], read in the whole buffer. *)
Lemma vertex_position_at (bs : list Building) (k : nat) (b : Building) (j : Z) :
  nth_error bs k = Some b -> 0 <= j <= 7 ->
  vertex_position (fst (createBuildingBuffers bs [] [])) (8 * Z.of_nat k + j) =
  vertex_position (box_vertices b) j.
Proof.
  intros Hk Hj.
  destruct (nth_error_split bs k Hk) as (l1 & l2 & -> & Hl1).
  rewrite createBuildingBuffers_app.
  destruct (createBuildingBuffers_length l1 [] []) as [Hlv _].
  destruct (createBuildingBuffers l1 [] []) as [v1 i1]. cbn [fst] in Hlv.
  rewrite createBuildingBuffers_cons.
  destruct (createBuildingBuffers_prefix l2 (v1 ++ box_vertices b)
              (i1 ++ box_indices (base_index v1))) as (v' & i' & E & _).
  rewrite E. cbn [fst].
  change (length (@nil float)) with 0%nat in Hlv. rewrite Hl1 in Hlv.
  assert (Hv : length v1 = (6 * (8 * k))%nat) by lia.
  rewrite <- (vertex_position_app v1 (box_vertices b) (8 * k) j Hv) by lia.
  replace (Z.of_nat (8 * k) + j) with (8 * Z.of_nat k + j) by lia.
  unfold vertex_position.
  rewrite !(app_nth1 (v1 ++ box_vertices b) v')
    by (rewrite length_app, box_vertices_length; lia).
  reflexivity.
Qed.

Lemma low_sample_city_draws : city_draws low_sample.
Proof.
  unfold city_draws, draw_in.
  repeat split; try reflexivity; discriminate.
Qed.

(** X9.  Every descriptor that [generateCity] produces, the random
    buildings and the ground plane, makes a proper box in
    [createBuildingBuffers]: with draws inside the ranges of the
    distributions, the six corner coordinates are finite and left is left
    of right, bottom below top, back behind front.  No half extent is lost
    to rounding and none overflows. *)
Theorem generated_boxes_proper :
  forall (RNG : Type) (sample : uniform_real_distribution -> RNG -> float * RNG),
    city_draws sample ->
    forall (N : Z) (rng : RNG) (k : nat) (b : Building),
      nth_error (generateCity RNG sample [] N rng) k = Some b ->
      proper_box b.
Proof.
  intros RNG sample Hd N rng k b Hn.
  exact (generateCity_proper RNG sample Hd N rng k b Hn).
Qed.

Lemma generated_boxes_proper_witness :
  proper_box (fst (random_building nat low_sample 1 8%nat)).
Proof.
  exact (generated_boxes_proper nat low_sample low_sample_city_draws
           3 0%nat 1%nat _ eq_refl).
Defined.

(** X10.  Where the random buildings stand.  With draws inside the ranges of
    the distributions, the box of every non-ground descriptor stays within
    108 of the origin along x and z, inside the ground plane, which spans
    -125 to 125; along y it runs exactly from minus half its height to half
    its height, so that it is cut in two by the top of the ground plane at
    y = 0: at least 5 of it lie below and at least 5 above. *)
Theorem buildings_stand_in_ground :
  forall (RNG : Type) (sample : uniform_real_distribution -> RNG -> float * RNG),
    city_draws sample ->
    forall (N : Z) (rng : RNG) (k : nat) (b : Building),
      Z.of_nat k < N ->
      nth_error (generateCity RNG sample [] N rng) k = Some b ->
      ((F32.to_Q (x_left ground) == -125)%Q /\
       (F32.to_Q (x_right ground) == 125)%Q /\
       (F32.to_Q (z_back ground) == -125)%Q /\
       (F32.to_Q (z_front ground) == 125)%Q /\
       (F32.to_Q (y_top ground) == 0)%Q) /\
      ((-108 <= F32.to_Q (x_left b))%Q /\ (F32.to_Q (x_right b) <= 108)%Q /\
       (-108 <= F32.to_Q (z_back b))%Q /\ (F32.to_Q (z_front b) <= 108)%Q) /\
      ((F32.to_Q (y_top b) == F32.to_Q (height b) * (1 # 2))%Q /\
       (F32.to_Q (y_bottom b) == - (F32.to_Q (height b) * (1 # 2)))%Q /\
       (F32.to_Q (y_bottom b) <= -5)%Q /\ (5 <= F32.to_Q (y_top b))%Q).
Proof.
  intros RNG sample Hd N rng k b Hk Hn.
  destruct (generateCity_nth_random RNG sample N rng k b Hk Hn) as [g ->].
  destruct (random_building_box RNG sample Hd (Z.of_nat k) g)
    as (_ & Xl & Xr & Zb & Zf & Yt & Yb & (_ & _ & Lh & _)).
  cbv zeta in *.
  split; [repeat split|].
  split; [repeat split; assumption|].
  split; [exact Yt|]. split; [exact Yb|].
  split; [rewrite Yb | rewrite Yt]; lra.
Qed.

Lemma buildings_stand_in_ground_witness :
  (5 <= F32.to_Q (y_top (fst (random_building nat low_sample 1 8%nat))))%Q.
Proof.
  exact (proj2 (proj2 (proj2 (proj2 (proj2
    (buildings_stand_in_ground nat low_sample low_sample_city_draws
       3 0%nat 1%nat _ ltac:(lia) eq_refl)))))).
Defined.

(** X11.  The winding of the mesh [main] builds.  With draws inside the
    ranges of the distributions and a count for which the indices do not
    wrap, every triangle of the index buffer that [createBuildingBuffers]
    fills from the descriptors of [generateCity], read in the vertex buffer
    it fills, has its normal against the outward direction of its face:
    triangle [t] belongs to the box [t / 12] and to the face [(t mod 12) / 2]
    of it.  The whole city is wound inward, the ground plane as well. *)
Theorem city_mesh_wound_inward :
  forall (RNG : Type) (sample : uniform_real_distribution -> RNG -> float * RNG),
    city_draws sample ->
    forall (N : Z) (rng : RNG),
      8 * (N + 1) <= 2 ^ 32 ->
      let city := generateCity RNG sample [] N rng in
      let mesh := createBuildingBuffers city [] [] in
      forall (t : nat) (tri : Z * Z * Z),
        nth_error (triangles (snd mesh)) t = Some tri ->
        (dot (triangle_normal (fst mesh) tri)
             (outward (face_of_triangle (t mod 12))) < 0)%Q.
Proof.
  intros RNG sample Hd N rng HN city mesh t tri Ht.
  assert (Hlen : length city = S (Z.to_nat N)).
  { unfold city. rewrite generateCity_unfold. cbn [app].
    rewrite length_app, generate_loop_length by (f_equal; lia).
    cbn [length]. lia. }
  unfold mesh in Ht.
  rewrite (createBuildingBuffers_closed_form city [] [] 0 eq_refl) in Ht.
  cbn [snd app] in Ht. rewrite triangles_blocks in Ht.
  apply (nth_error_flat_map_blocks _ 12) in Ht;
    [|discriminate | intros x; reflexivity].
  destruct Ht as (x & Hx & Ht).
  set (k := (t / 12)%nat) in *.
  assert (Hk : (k < length city)%nat).
  { assert (H : nth_error (seq 0 (length city)) k <> None) by congruence.
    apply nth_error_Some in H. rewrite length_seq in H. exact H. }
  assert (Ex : x = k).
  { apply (nth_error_nth _ _ 0%nat) in Hx.
    rewrite seq_nth in Hx by exact Hk. symmetry. exact Hx. }
  subst x.
  destruct (nth_error city k) as [b|] eqn:Hb;
    [|apply nth_error_None in Hb; lia].
  assert (Hu : u32 (8 * Z.of_nat k) = 8 * Z.of_nat k)
    by (unfold u32; apply Z.mod_small; lia).
  rewrite Hu, triangles_box_indices, nth_error_map in Ht by lia.
  destruct (nth_error (flat_map face_triangles faces) (t mod 12))
    as [[[i0 i1] i2]|] eqn:Hloc; [|discriminate].
  injection Ht as <-.
  destruct (local_triangle_bounds _ i0 i1 i2 Hloc) as (H0 & H1 & H2).
  destruct (generateCity_proper RNG sample Hd N rng k b Hb)
    as (_ & _ & _ & _ & _ & _ & Bx & By & Bz).
  pose proof (box_of_winding _ _ _ _ _ _ (color b)
                (mk_vec3 (F32.add (vr (color b)) F32.f0_1)
                         (F32.add (vg (color b)) F32.f0_1)
                         (F32.add (vb (color b)) F32.f0_1))
                (t mod 12) (i0, i1, i2) Bx By Bz Hloc) as Hw.
  rewrite <- box_vertices_box_of in Hw. cbv zeta in Hw.
  destruct Hw as [Hw _].
  unfold mesh, triangle_normal in *.
  rewrite !(vertex_position_at city k b) by assumption.
  exact Hw.
Qed.

Lemma city_mesh_wound_inward_witness :
  let tri := (10, 11, 8) in
  (dot (triangle_normal
          (fst (createBuildingBuffers (generateCity nat low_sample [] 1 0%nat)
                  [] []))
          tri)
       (outward Bottom) < 0)%Q.
Proof.
  intro tri.
  exact (city_mesh_wound_inward nat low_sample low_sample_city_draws 1 0%nat
           ltac:(vm_compute; discriminate) 13%nat tri eq_refl).
Defined.

(** ** Startup, the render loop and the camera *)

Lemma fst_andThen {A B : Type} (m : Act A) (k : A -> Act B) :
  fst (andThen m k) = fst (k (fst m)).
Proof. destruct m as [a t]. cbn [fst snd andThen]. destruct (k a). reflexivity. Qed.

Lemma snd_andThen {A B : Type} (m : Act A) (k : A -> Act B) :
  snd (andThen m k) = snd m ++ snd (k (fst m)).
Proof. destruct m as [a t]. cbn [fst snd andThen]. destruct (k a). reflexivity. Qed.

Lemma andThen_does {A B : Type} (c : call) (a : A) (k : A -> Act B) :
  andThen (does c a) k = (fst (k a), c :: snd (k a)).
Proof. unfold andThen, does. destruct (k a). reflexivity. Qed.

Lemma deliver_resizes_calls (window : Z) (sizes : list (Z * Z)) :
  deliver_resizes window sizes =
  (tt, map (fun wh : Z * Z => glViewport 0 0 (fst wh) (snd wh)) sizes).
Proof.
  induction sizes as [|[w h] sizes IH]; [reflexivity|].
  cbn [deliver_resizes map fst snd]. unfold framebufferSizeCallback.
  rewrite andThen_does, IH. reflexivity.
Qed.

Lemma filter_glViewport (p : call -> bool) (sizes : list (Z * Z)) :
  (forall x y w h, p (glViewport x y w h) = false) ->
  filter p (map (fun wh : Z * Z => glViewport 0 0 (fst wh) (snd wh)) sizes) = [].
Proof.
  intros Hp. induction sizes as [|wh sizes IH]; [reflexivity|].
  cbn [map filter]. rewrite Hp. exact IH.
Qed.

(** What [initializeWindow] does when all three answers are good. *)
Lemma initializeWindow_success (world : answers) :
  glfwInit_answer world <> 0 -> glfwCreateWindow_answer world <> 0 ->
  gladLoadGLLoader_answer world <> 0 ->
  initializeWindow world =
  (glfwCreateWindow_answer world,
   [glfwInit;
    glfwWindowHint GLFW_CONTEXT_VERSION_MAJOR (number 3);
    glfwWindowHint GLFW_CONTEXT_VERSION_MINOR (number 3);
    glfwWindowHint GLFW_OPENGL_PROFILE (named GLFW_OPENGL_CORE_PROFILE);
    glfwCreateWindow 800 600 City_Landscape 0 0;
    glfwMakeContextCurrent (glfwCreateWindow_answer world);
    glfwSetFramebufferSizeCallback (glfwCreateWindow_answer world);
    gladLoadGLLoader]).
Proof.
  intros H1 H2 H3. apply Z.eqb_neq in H1, H2, H3.
  unfold initializeWindow, andThen, does, done.
  rewrite H1, H2, H3. reflexivity.
Qed.

(** What [compileShaders] does when all three answers are good. *)
Lemma compileShaders_success (world : answers) :
  vertex_success world <> 0 -> fragment_success world <> 0 ->
  link_success world <> 0 ->
  compileShaders world =
  (glCreateProgram_answer world,
   [glCreateShader GL_VERTEX_SHADER;
    glShaderSource (vertexShader_answer world) 1 vertexShaderSource;
    glCompileShader (vertexShader_answer world);
    glGetShaderiv (vertexShader_answer world) GL_COMPILE_STATUS;
    glCreateShader GL_FRAGMENT_SHADER;
    glShaderSource (fragmentShader_answer world) 1 fragmentShaderSource;
    glCompileShader (fragmentShader_answer world);
    glGetShaderiv (fragmentShader_answer world) GL_COMPILE_STATUS;
    glCreateProgram;
    glAttachShader (glCreateProgram_answer world) (vertexShader_answer world);
    glAttachShader (glCreateProgram_answer world) (fragmentShader_answer world);
    glLinkProgram (glCreateProgram_answer world);
    glGetProgramiv (glCreateProgram_answer world) GL_LINK_STATUS;
    glDeleteShader (vertexShader_answer world);
    glDeleteShader (fragmentShader_answer world)]).
Proof.
  intros H1 H2 H3. apply Z.eqb_neq in H1, H2, H3.
  unfold compileShaders, andThen, does, done.
  rewrite H1, H2, H3. reflexivity.
Qed.

(** X12.  [initializeWindow] returns the window that GLFW created when GLFW,
    the window and GLAD all succeed, and [nullptr] otherwise.  It calls
    [glfwTerminate] in one case only, when the window could not be created:
    when GLAD fails it returns [nullptr] with the window created and made
    current, and GLFW left initialized. *)
Theorem initializeWindow_outcomes :
  forall world : answers,
    let result := fst (initializeWindow world) in
    let calls := snd (initializeWindow world) in
    let init := glfwInit_answer world in
    let window := glfwCreateWindow_answer world in
    let glad := gladLoadGLLoader_answer world in
    (result <> 0 <-> init <> 0 /\ window <> 0 /\ glad <> 0) /\
    (result <> 0 -> result = window) /\
    (In glfwTerminate calls <-> init <> 0 /\ window = 0) /\
    (In (glfwMakeContextCurrent window) calls <-> init <> 0 /\ window <> 0) /\
    (In (glfwCreateWindow 800 600 City_Landscape 0 0) calls <-> init <> 0).
Proof.
  intros world result calls init window glad.
  subst result calls. unfold initializeWindow, andThen, does, done.
  fold init window glad.
  destruct (Z.eqb_spec init 0) as [H1|H1];
    [|destruct (Z.eqb_spec window 0) as [H2|H2];
      [|destruct (Z.eqb_spec glad 0) as [H3|H3]]];
    cbn [fst snd app In];
    repeat split; intros; try tauto; try lia;
    repeat match goal with
      | H : _ \/ _ |- _ => destruct H
      | H : _ /\ _ |- _ => destruct H
      end;
    try discriminate; try contradiction; try tauto.
Qed.

(** X13.  [compileShaders] returns the program when both shaders compile and
    the program links, and 0 otherwise.  It releases the two shaders in
    that one case only: after a failure it has released nothing, and the
    one, two or three objects it created (vertex shader, fragment shader,
    program) stay allocated. *)
Theorem compileShaders_outcomes :
  forall world : answers,
    let result := fst (compileShaders world) in
    let calls := snd (compileShaders world) in
    let ok := negb (vertex_success world =? 0) &&
              negb (fragment_success world =? 0) &&
              negb (link_success world =? 0) in
    result = (if ok then glCreateProgram_answer world else 0) /\
    filter is_release calls =
      (if ok then [glDeleteShader (vertexShader_answer world);
                   glDeleteShader (fragmentShader_answer world)]
       else []) /\
    length (filter is_create calls) =
      (if vertex_success world =? 0 then 1%nat
       else if fragment_success world =? 0 then 2%nat else 3%nat).
Proof.
  intros world result calls ok. subst result calls ok.
  unfold compileShaders, andThen, does, done.
  destruct (vertex_success world =? 0);
    [|destruct (fragment_success world =? 0);
      [|destruct (link_success world =? 0)]];
    repeat split.
Qed.

(** The calls of [processInput]: seven keys are asked for, and the close
    flag is set when Escape is down.  The front comes back as it was. *)
Lemma processInput_calls glm_cross glm_normalize window keys closing pos front :
  exists pos' : vec3,
    processInput glm_cross glm_normalize window keys closing pos front =
    ((keys GLFW_KEY_ESCAPE || closing, pos', front),
     glfwGetKey window GLFW_KEY_ESCAPE ::
     (if keys GLFW_KEY_ESCAPE then [glfwSetWindowShouldClose window true]
      else []) ++
     [glfwGetKey window GLFW_KEY_W; glfwGetKey window GLFW_KEY_S;
      glfwGetKey window GLFW_KEY_A; glfwGetKey window GLFW_KEY_D;
      glfwGetKey window GLFW_KEY_SPACE;
      glfwGetKey window GLFW_KEY_LEFT_CONTROL]).
Proof.
  unfold processInput, andThen, does, done.
  destruct (keys GLFW_KEY_ESCAPE); eexists; reflexivity.
Qed.

(** [processInput] looks at the seven keys only. *)
Lemma processInput_keys glm_cross glm_normalize window keys keys' closing
    pos front :
  (forall k, keys k = keys' k) ->
  processInput glm_cross glm_normalize window keys closing pos front =
  processInput glm_cross glm_normalize window keys' closing pos front.
Proof.
  intros H. unfold processInput. rewrite !H. reflexivity.
Qed.

Section LoopFacts.

Variable glm_cross : vec3 -> vec3 -> vec3.
Variable glm_normalize : vec3 -> vec3.
Variable window shaderProgram VAO modelLoc viewLoc projectionLoc : Z.
Variable indices : list Z.
Variable cameraUp : vec3.

Local Abbreviation frame_of :=
  (render_frame glm_cross glm_normalize window shaderProgram VAO modelLoc
     viewLoc projectionLoc indices cameraUp).
Local Abbreviation loop_of :=
  (render_loop glm_cross glm_normalize window shaderProgram VAO modelLoc
     viewLoc projectionLoc indices cameraUp).

(** One frame, call by call. *)
Lemma render_frame_calls (f : frame) (s : loop_state) :
  exists pos' : vec3,
    frame_of f s =
    ({| cameraPos := pos'; cameraFront := cameraFront s;
        deltaTime := F32.sub (glfwGetTime_answer f) (lastFrame s);
        lastFrame := glfwGetTime_answer f;
        should_close :=
          (pressed f GLFW_KEY_ESCAPE || should_close s) || close_requested f |},
     [glfwGetTime; glfwGetKey window GLFW_KEY_ESCAPE] ++
     (if pressed f GLFW_KEY_ESCAPE then [glfwSetWindowShouldClose window true]
      else []) ++
     [glfwGetKey window GLFW_KEY_W; glfwGetKey window GLFW_KEY_S;
      glfwGetKey window GLFW_KEY_A; glfwGetKey window GLFW_KEY_D;
      glfwGetKey window GLFW_KEY_SPACE;
      glfwGetKey window GLFW_KEY_LEFT_CONTROL;
      glClearColor F32.f0_1 F32.f0_1 F32.f0_2 F32.f1;
      glClear [GL_COLOR_BUFFER_BIT; GL_DEPTH_BUFFER_BIT];
      glUseProgram shaderProgram;
      glUniformMatrix4fv (int modelLoc) 1 GL_FALSE (glm_mat4 F32.f1);
      glUniformMatrix4fv (int viewLoc) 1 GL_FALSE
        (glm_lookAt pos' (vec3_add pos' (cameraFront s)) cameraUp);
      glUniformMatrix4fv (int projectionLoc) 1 GL_FALSE
        (glm_perspective (glm_radians (F32.of_Z 45))
           (F32.div (F32.of_Z 800) (F32.of_Z 600)) F32.f0_1 (F32.of_Z 1000));
      glBindVertexArray VAO;
      glDrawElements GL_TRIANGLES (int (size_t (Z.of_nat (length indices))))
        GL_UNSIGNED_INT 0;
      glfwSwapBuffers window; glfwPollEvents] ++
     map (fun wh : Z * Z => glViewport 0 0 (fst wh) (snd wh)) (resized f)).
Proof.
  unfold render_frame.
  destruct (processInput_calls glm_cross glm_normalize window (pressed f)
              (should_close s) (cameraPos s) (cameraFront s)) as [pos' E].
  exists pos'. rewrite andThen_does. cbn [fst snd]. rewrite E.
  rewrite deliver_resizes_calls.
  unfold andThen, does, done. cbn [fst snd app]. rewrite app_nil_r.
  destruct (pressed f GLFW_KEY_ESCAPE); reflexivity.
Qed.

(** The loop on a window that is to close: one question, and out. *)
Lemma render_loop_closing (frames : list frame) (s : loop_state) :
  should_close s = true ->
  loop_of frames s = (Some s, [glfwWindowShouldClose window]).
Proof.
  intros H. destruct frames; cbn [render_loop];
    rewrite andThen_does, H; reflexivity.
Qed.

Lemma render_loop_step (f : frame) (frames : list frame) (s : loop_state) :
  should_close s = false ->
  loop_of (f :: frames) s =
  (fst (loop_of frames (fst (frame_of f s))),
   glfwWindowShouldClose window ::
   snd (frame_of f s) ++ snd (loop_of frames (fst (frame_of f s)))).
Proof.
  intros H. cbn [render_loop]. rewrite andThen_does, H.
  rewrite fst_andThen, snd_andThen. reflexivity.
Qed.

Lemma render_loop_end (s : loop_state) :
  should_close s = false ->
  loop_of [] s = (None, [glfwWindowShouldClose window]).
Proof. intros H. cbn [render_loop]. rewrite andThen_does, H. reflexivity. Qed.

(** A property of the calls of the loop that holds of the question and of
    each frame holds of the whole loop. *)
Lemma render_loop_Forall (P : call -> Prop) (I : loop_state -> Prop)
    (frames : list frame) (s : loop_state) :
  P (glfwWindowShouldClose window) ->
  (forall f s, I s -> I (fst (frame_of f s)) /\ Forall P (snd (frame_of f s))) ->
  I s ->
  Forall P (snd (loop_of frames s)).
Proof.
  intros Hq Hf. revert s. induction frames as [|f frames IH]; intros s Hs.
  - destruct (should_close s) eqn:E.
    + rewrite render_loop_closing by exact E. repeat constructor. exact Hq.
    + rewrite render_loop_end by exact E. repeat constructor. exact Hq.
  - destruct (should_close s) eqn:E.
    + rewrite render_loop_closing by exact E. repeat constructor. exact Hq.
    + rewrite render_loop_step by exact E. cbn [snd].
      destruct (Hf f s Hs) as [Hs' Hc].
      constructor; [exact Hq|]. apply Forall_app. split; [exact Hc|].
      apply IH. exact Hs'.
Qed.

Lemma filter_none (p : call -> bool) (l : list call) :
  Forall (fun c => p c = false) l -> filter p l = [].
Proof.
  induction 1 as [|c l Hc _ IH]; [reflexivity|].
  cbn [filter]. rewrite Hc. exact IH.
Qed.

(** The loop makes no call of a kind that a frame does not make. *)
Lemma render_loop_filter_none (p : call -> bool) (frames : list frame)
    (s : loop_state) :
  (forall c, match c with
             | glfwWindowShouldClose _ | glfwGetTime | glfwGetKey _ _
             | glfwSetWindowShouldClose _ _ | glClearColor _ _ _ _
             | glClear _ | glUseProgram _ | glUniformMatrix4fv _ _ _ _
             | glBindVertexArray _ | glDrawElements _ _ _ _
             | glfwSwapBuffers _ | glfwPollEvents | glViewport _ _ _ _ =>
                 p c = false
             | _ => True
             end) ->
  filter p (snd (loop_of frames s)) = [].
Proof.
  intros Hp. apply filter_none.
  apply render_loop_Forall with (I := fun _ => True);
    [exact (Hp (glfwWindowShouldClose window)) | | exact I].
  intros f s0 _. split; [exact I|].
  destruct (render_frame_calls f s0) as [pos' E]. rewrite E. cbn [snd].
  apply Forall_app. split; [repeat constructor|].
  - exact (Hp glfwGetTime).
  - exact (Hp (glfwGetKey _ _)).
  - apply Forall_app. split.
    + destruct (pressed f GLFW_KEY_ESCAPE); repeat constructor.
      exact (Hp (glfwSetWindowShouldClose _ _)).
    + apply Forall_app. split.
      * repeat (constructor;
                [match goal with |- p ?c = false => exact (Hp c) end|]).
        constructor.
      * apply Forall_forall. intros c Hc. apply in_map_iff in Hc.
        destruct Hc as (wh & <- & _). exact (Hp (glViewport _ _ _ _)).
Qed.

(** The loop runs up to and with the first frame that closes, and draws
    once in each frame it runs. *)
Lemma render_loop_run (frames : list frame) (s : loop_state) :
  should_close s = false ->
  (existsb closes frames = true -> exists s', fst (loop_of frames s) = Some s') /\
  (existsb closes frames = false -> fst (loop_of frames s) = None) /\
  filter is_glDrawElements (snd (loop_of frames s)) =
    repeat (glDrawElements GL_TRIANGLES
              (int (size_t (Z.of_nat (length indices)))) GL_UNSIGNED_INT 0)
           (frames_run frames) /\
  filter is_release (snd (loop_of frames s)) = [] /\
  length (filter (fun c => match c with glfwWindowShouldClose _ => true
                                      | _ => false end)
                 (snd (loop_of frames s))) = S (frames_run frames).
Proof.
  revert s. induction frames as [|f frames IH]; intros s Hs.
  - rewrite render_loop_end by exact Hs. cbn. repeat split; congruence.
  - rewrite render_loop_step by exact Hs. cbn [fst snd].
    destruct (render_frame_calls f s) as [pos' E]. rewrite E. clear E.
    cbn [fst snd existsb frames_run].
    change (closes f) with (pressed f GLFW_KEY_ESCAPE || close_requested f).
    set (s' := {| cameraPos := pos' |}).
    assert (Hc : should_close s' =
                 pressed f GLFW_KEY_ESCAPE || close_requested f).
    { unfold s'. cbn [should_close]. rewrite Hs, orb_false_r. reflexivity. }
    cbn [filter]. rewrite !filter_app.
    rewrite !filter_glViewport by reflexivity.
    destruct (pressed f GLFW_KEY_ESCAPE || close_requested f) eqn:Hcl.
    + rewrite render_loop_closing by exact Hc.
      destruct (pressed f GLFW_KEY_ESCAPE);
        cbn; repeat split; try congruence; eexists; reflexivity.
    + destruct (IH s' Hc) as (I1 & I2 & I3 & I4 & I5).
      destruct (pressed f GLFW_KEY_ESCAPE); [discriminate|].
      cbn [orb app filter is_glDrawElements is_release repeat length].
      rewrite I3, I4, I5. repeat split; assumption.
Qed.

(** The calls of the loop do not depend on the time. *)
Lemma render_loop_same (frames frames' : list frame) (s s' : loop_state) :
  Forall2 same_events frames frames' -> same_camera s s' ->
  snd (loop_of frames s) = snd (loop_of frames' s') /\
  (fst (loop_of frames s) = None <-> fst (loop_of frames' s') = None).
Proof.
  intros Hf. revert s s'.
  induction Hf as [|f f' frames frames' (Hk & Hr & Hq) _ IH];
    intros s s' (Hp & Hfr & Hc).
  - destruct (should_close s) eqn:E; symmetry in Hc.
    + rewrite !render_loop_closing by assumption. split; [reflexivity|].
      split; discriminate.
    + rewrite !render_loop_end by assumption. split; reflexivity.
  - destruct (should_close s) eqn:E; symmetry in Hc.
    + rewrite !render_loop_closing by assumption. split; [reflexivity|].
      split; discriminate.
    + rewrite !render_loop_step by assumption. cbn [fst snd].
      assert (Hframe :
        snd (frame_of f s) = snd (frame_of f' s') /\
        same_camera (fst (frame_of f s)) (fst (frame_of f' s'))).
      { unfold render_frame. rewrite !andThen_does. cbn [fst snd].
        rewrite !fst_andThen, !snd_andThen.
        rewrite <- Hp, <- Hfr, E, Hc.
        rewrite <- (processInput_keys glm_cross glm_normalize window
                      (pressed f) (pressed f') false _ _ Hk).
        destruct (processInput glm_cross glm_normalize window (pressed f)
                    false (cameraPos s) (cameraFront s))
          as [[[closing pos'] front'] calls].
        cbn [fst snd]. rewrite !andThen_does. cbn [fst snd].
        rewrite <- Hr, <- Hq, !deliver_resizes_calls.
        unfold andThen, does, done. cbn [fst snd].
        split; [reflexivity|]. repeat split. }
      destruct Hframe as [Hcalls Hcam]. rewrite Hcalls.
      destruct (IH _ _ Hcam) as [IH1 IH2]. rewrite IH1.
      split; [reflexivity | exact IH2].
Qed.

End LoopFacts.

(** ** [main] *)

Lemma startup_succeeds_true (world : answers) :
  startup_succeeds world = true ->
  glfwInit_answer world <> 0 /\ glfwCreateWindow_answer world <> 0 /\
  gladLoadGLLoader_answer world <> 0 /\ vertex_success world <> 0 /\
  fragment_success world <> 0 /\ link_success world <> 0 /\
  glCreateProgram_answer world <> 0.
Proof.
  unfold startup_succeeds. intros H.
  repeat (apply andb_prop in H; destruct H as [H ?]).
  repeat match goal with
    | H : negb (_ =? 0) = true |- _ =>
        apply negb_true_iff, Z.eqb_neq in H
    end.
  repeat split; assumption.
Qed.

(** What [initializeWindow] returns, and when it calls [glfwTerminate]. *)
Lemma initializeWindow_cases (world : answers) :
  let ok := negb (glfwInit_answer world =? 0) &&
            negb (glfwCreateWindow_answer world =? 0) &&
            negb (gladLoadGLLoader_answer world =? 0) in
  fst (initializeWindow world) =
    (if ok then glfwCreateWindow_answer world else 0) /\
  filter is_release (snd (initializeWindow world)) =
    (if negb (glfwInit_answer world =? 0) &&
        (glfwCreateWindow_answer world =? 0)
     then [glfwTerminate] else []) /\
  filter is_glfwTerminate (snd (initializeWindow world)) =
    (if negb (glfwInit_answer world =? 0) &&
        (glfwCreateWindow_answer world =? 0)
     then [glfwTerminate] else []) /\
  filter is_OpenGL_object (snd (initializeWindow world)) = [] /\
  Forall (fun c => match c with
                   | glUniformMatrix4fv _ _ _ _ => False
                   | _ => True
                   end) (snd (initializeWindow world)).
Proof.
  unfold initializeWindow, andThen, does, done.
  destruct (glfwInit_answer world =? 0);
    [|destruct (glfwCreateWindow_answer world =? 0);
      [|destruct (gladLoadGLLoader_answer world =? 0)]];
    cbn; repeat split; repeat constructor.
Qed.

Lemma compileShaders_cases (world : answers) :
  let ok := negb (vertex_success world =? 0) &&
            negb (fragment_success world =? 0) &&
            negb (link_success world =? 0) in
  fst (compileShaders world) =
    (if ok then glCreateProgram_answer world else 0) /\
  filter is_glfwTerminate (snd (compileShaders world)) = [] /\
  filter is_OpenGL_object (snd (compileShaders world)) = [] /\
  Forall (fun c => match c with
                   | glUniformMatrix4fv _ _ _ _ => False
                   | _ => True
                   end) (snd (compileShaders world)).
Proof.
  unfold compileShaders, andThen, does, done.
  destruct (vertex_success world =? 0);
    [|destruct (fragment_success world =? 0);
      [|destruct (link_success world =? 0)]];
    cbn; repeat split; repeat constructor.
Qed.

Section MainFacts.

Variable RNG : Type.
Variable sample : uniform_real_distribution -> RNG -> float * RNG.
Variable rng : RNG.
Variable glm_cross : vec3 -> vec3 -> vec3.
Variable glm_normalize : vec3 -> vec3.

Local Abbreviation main_of := (main RNG sample rng glm_cross glm_normalize).

(** [main] when startup fails: the calls of [initializeWindow] and, with a
    window, those of [compileShaders], and the exit code -1. *)
Lemma main_failure_calls (world : answers) (frames : list frame) :
  startup_succeeds world = false ->
  main_of world frames =
  (Some (-1),
   snd (initializeWindow world) ++
   (if fst (initializeWindow world) =? 0 then []
    else snd (compileShaders world))).
Proof.
  intros H. unfold main.
  destruct (initializeWindow_cases world) as (Ew & _).
  destruct (compileShaders_cases world) as (Ep & _). cbv zeta in Ew, Ep.
  destruct (initializeWindow world) as [window t1]. cbn [fst snd] in *.
  cbn [andThen].
  destruct (Z.eqb_spec window 0) as [Hw|Hw].
  - unfold done. rewrite app_nil_r. reflexivity.
  - destruct (compileShaders world) as [program t2]. cbn [fst snd] in *.
    cbn [andThen].
    assert (Hp : program = 0).
    { unfold startup_succeeds in H. subst window program.
      destruct (glfwInit_answer world =? 0),
               (glfwCreateWindow_answer world =? 0) eqn:E2,
               (gladLoadGLLoader_answer world =? 0),
               (vertex_success world =? 0),
               (fragment_success world =? 0),
               (link_success world =? 0),
               (Z.eqb_spec (glCreateProgram_answer world) 0);
        cbn in *; try reflexivity; try congruence. }
    rewrite Hp. cbn [Z.eqb]. unfold done. rewrite app_nil_r. reflexivity.
Qed.

(** [main] when startup succeeds: startup, the upload of the mesh of the
    city, the render loop and, if the loop ends, the cleanup. *)
Lemma main_success_calls (world : answers) (frames : list frame) :
  startup_succeeds world = true ->
  let mesh := createBuildingBuffers (generateCity RNG sample [] 100 rng) [] [] in
  let window := glfwCreateWindow_answer world in
  let program := glCreateProgram_answer world in
  let loop :=
    render_loop glm_cross glm_normalize window program (VAO_answer world)
      (u32 (glGetUniformLocation_answer world uniform_model))
      (u32 (glGetUniformLocation_answer world uniform_view))
      (u32 (glGetUniformLocation_answer world uniform_projection))
      (snd mesh) (mk_vec3 F32.f0 F32.f1 F32.f0) frames
      {| cameraPos := mk_vec3 F32.f0 (F32.of_Z 50) (F32.of_Z 150);
         cameraFront := mk_vec3 F32.f0 F32.f0 (F32.of_Z (-1));
         deltaTime := F32.f0; lastFrame := F32.f0; should_close := false |} in
  main_of world frames =
  (match fst loop with None => None | Some _ => Some 0 end,
   snd (initializeWindow world) ++ snd (compileShaders world) ++
   [glGenVertexArrays 1; glGenBuffers 1; glGenBuffers 1;
    glBindVertexArray (VAO_answer world);
    glBindBuffer GL_ARRAY_BUFFER (VBO_answer world);
    glBufferData GL_ARRAY_BUFFER
      (GLsizeiptr (size_t (Z.of_nat (length (fst mesh)) * sizeof_float)))
      (float_data (fst mesh)) GL_STATIC_DRAW;
    glBindBuffer GL_ELEMENT_ARRAY_BUFFER (EBO_answer world);
    glBufferData GL_ELEMENT_ARRAY_BUFFER
      (GLsizeiptr (size_t (Z.of_nat (length (snd mesh)) * sizeof_unsigned_int)))
      (uint_data (snd mesh)) GL_STATIC_DRAW;
    glVertexAttribPointer 0 3 GL_FLOAT GL_FALSE
      (int (size_t (6 * sizeof_float))) 0;
    glEnableVertexAttribArray 0;
    glVertexAttribPointer 1 3 GL_FLOAT GL_FALSE
      (int (size_t (6 * sizeof_float))) (size_t (3 * sizeof_float));
    glEnableVertexAttribArray 1;
    glGetUniformLocation program uniform_model;
    glGetUniformLocation program uniform_view;
    glGetUniformLocation program uniform_projection;
    glEnable GL_DEPTH_TEST] ++
   snd loop ++
   match fst loop with
   | None => []
   | Some _ =>
       [glDeleteVertexArrays 1 (VAO_answer world);
        glDeleteBuffers 1 (VBO_answer world);
        glDeleteBuffers 1 (EBO_answer world);
        glDeleteProgram program; glfwTerminate]
   end).
Proof.
  intros H.
  destruct (startup_succeeds_true world H)
    as (H1 & H2 & H3 & H4 & H5 & H6 & H7).
  unfold main.
  rewrite initializeWindow_success, compileShaders_success by assumption.
  cbn [andThen].
  apply Z.eqb_neq in H2, H7.
  rewrite H2. cbn [andThen]. rewrite H7.
  generalize (createBuildingBuffers (generateCity RNG sample [] 100 rng) [] []).
  intros [vertices indices]. cbv zeta. cbn [fst snd andThen does].
  match goal with
  | |- context [render_loop ?a ?b ?c ?d ?e ?f ?g ?h ?i ?j ?k ?s] =>
      generalize (render_loop a b c d e f g h i j k s)
  end.
  intros [[s'|] calls]; cbn [andThen does done fst snd app];
    rewrite ?app_nil_r; reflexivity.
Qed.

End MainFacts.

(** The sizes of the mesh of the city of [main]. *)
Lemma city_mesh_sizes RNG sample (rng : RNG) :
  let mesh := createBuildingBuffers (generateCity RNG sample [] 100 rng) [] [] in
  length (fst mesh) = 4848%nat /\ length (snd mesh) = 3636%nat.
Proof.
  intros mesh. unfold mesh.
  destruct (createBuildingBuffers_length
              (generateCity RNG sample [] 100 rng) [] []) as [Hv Hi].
  rewrite Hv, Hi, generateCity_length by lia. split; reflexivity.
Qed.

(** X14.  [main] when startup fails.  If GLFW, the window, GLAD, a shader or
    the program fails, [main] returns -1 and has generated no buffer,
    uploaded nothing and drawn nothing.  It has called [glfwTerminate] only
    if it was the window that could not be created: after a failure of
    GLAD, of a shader or of the program it leaves with GLFW initialized and
    the window open. *)
Theorem main_startup_failure :
  forall (RNG : Type) (sample : uniform_real_distribution -> RNG -> float * RNG)
         (rng : RNG) (glm_cross : vec3 -> vec3 -> vec3)
         (glm_normalize : vec3 -> vec3) (world : answers)
         (frames : list frame),
    startup_succeeds world = false ->
    let run := main RNG sample rng glm_cross glm_normalize world frames in
    fst run = Some (-1) /\
    filter is_OpenGL_object (snd run) = [] /\
    filter is_glfwTerminate (snd run) =
      (if negb (glfwInit_answer world =? 0) &&
          (glfwCreateWindow_answer world =? 0)
       then [glfwTerminate] else []).
Proof.
  intros RNG sample rng gc gn world frames H run. subst run.
  rewrite main_failure_calls by exact H. cbn [fst snd].
  destruct (initializeWindow_cases world) as (_ & _ & T1 & O1 & _).
  destruct (compileShaders_cases world) as (_ & T2 & O2 & _).
  rewrite !filter_app, T1, O1.
  destruct (fst (initializeWindow world) =? 0);
    rewrite ?T2, ?O2; cbn [filter app]; rewrite ?app_nil_r;
    repeat split.
Qed.

Lemma main_startup_failure_witness :
  fst (main nat low_sample 0%nat (fun u _ => u) (fun u => u) no_GLAD
         [idle_frame]) = Some (-1) /\
  filter is_glfwTerminate
    (snd (main nat low_sample 0%nat (fun u _ => u) (fun u => u) no_GLAD
            [idle_frame])) = [].
Proof.
  destruct (main_startup_failure nat low_sample 0%nat (fun u _ => u)
              (fun u => u) no_GLAD [idle_frame] eq_refl) as (H1 & _ & H3).
  split; [exact H1 | exact H3].
Defined.

(** X15.  [main] when startup succeeds.  The render loop goes through the
    frames up to and with the first one in which Escape is down or the user
    asks to close; that frame is still drawn.  Every frame makes one draw
    call, for the 3636 indices of the city.  If such a frame comes, [main]
    returns 0 after releasing the vertex array, the two buffers and the
    program and terminating GLFW, in this order; the two shaders were
    released by [compileShaders].  If none comes the loop is still running
    after the last frame and nothing but the shaders has been released. *)
Theorem main_run :
  forall (RNG : Type) (sample : uniform_real_distribution -> RNG -> float * RNG)
         (rng : RNG) (glm_cross : vec3 -> vec3 -> vec3)
         (glm_normalize : vec3 -> vec3) (world : answers)
         (frames : list frame),
    startup_succeeds world = true ->
    let run := main RNG sample rng glm_cross glm_normalize world frames in
    fst run = (if existsb closes frames then Some 0 else None) /\
    filter is_glDrawElements (snd run) =
      repeat (glDrawElements GL_TRIANGLES 3636 GL_UNSIGNED_INT 0)
             (frames_run frames) /\
    filter is_release (snd run) =
      [glDeleteShader (vertexShader_answer world);
       glDeleteShader (fragmentShader_answer world)] ++
      (if existsb closes frames
       then [glDeleteVertexArrays 1 (VAO_answer world);
             glDeleteBuffers 1 (VBO_answer world);
             glDeleteBuffers 1 (EBO_answer world);
             glDeleteProgram (glCreateProgram_answer world);
             glfwTerminate]
       else []).
Proof.
  intros RNG sample rng gc gn world frames H run. subst run.
  rewrite main_success_calls by exact H. cbv zeta.
  destruct (startup_succeeds_true world H)
    as (H1 & H2 & H3 & H4 & H5 & H6 & H7).
  rewrite initializeWindow_success, compileShaders_success by assumption.
  destruct (city_mesh_sizes RNG sample rng) as [_ Hi]. cbv zeta in Hi.
  match goal with
  | |- context [render_loop ?a ?b ?c ?d ?e ?f ?g ?h ?i ?j ?k ?s] =>
      destruct (render_loop_run a b c d e f g h i j k s eq_refl)
        as (R1 & R2 & R3 & R4 & _);
      set (loop := render_loop a b c d e f g h i j k s) in *
  end.
  rewrite Hi in R3.
  change (int (size_t (Z.of_nat 3636))) with 3636 in R3.
  cbn [fst snd]. rewrite !filter_app, R3, R4.
  destruct (existsb closes frames).
  - destruct (R1 eq_refl) as [s' E]. rewrite E.
    cbn. rewrite app_nil_r. repeat split.
  - rewrite (R2 eq_refl). cbn. rewrite app_nil_r. repeat split.
Qed.

Lemma main_run_witness :
  fst (main nat low_sample 0%nat (fun u _ => u) (fun u => u) all_well
         [idle_frame; escape_frame; idle_frame]) = Some 0.
Proof.
  exact (proj1 (main_run nat low_sample 0%nat (fun u _ => u) (fun u => u)
                  all_well [idle_frame; escape_frame; idle_frame] eq_refl)).
Defined.

(** X16.  What [main] uploads.  When startup succeeds the vertex buffer
    given to OpenGL is the one [createBuildingBuffers] fills from the
    descriptors of [generateCity(100)], 808 vertices in 19392 bytes, and the
    index buffer its 3636 indices in 14544 bytes.  The attributes are read
    as the mesh is laid out: three floats of position at byte 0 and three
    of colour at byte 12 of each 24 byte vertex.  The one capability
    enabled is the depth test: faces are not culled. *)
Theorem main_uploads_the_city :
  forall (RNG : Type) (sample : uniform_real_distribution -> RNG -> float * RNG)
         (rng : RNG) (glm_cross : vec3 -> vec3 -> vec3)
         (glm_normalize : vec3 -> vec3) (world : answers)
         (frames : list frame),
    startup_succeeds world = true ->
    let run := main RNG sample rng glm_cross glm_normalize world frames in
    let mesh :=
      createBuildingBuffers (generateCity RNG sample [] 100 rng) [] [] in
    filter is_upload (snd run) =
      [glBufferData GL_ARRAY_BUFFER 19392 (float_data (fst mesh))
         GL_STATIC_DRAW;
       glBufferData GL_ELEMENT_ARRAY_BUFFER 14544 (uint_data (snd mesh))
         GL_STATIC_DRAW;
       glVertexAttribPointer 0 3 GL_FLOAT GL_FALSE 24 0;
       glVertexAttribPointer 1 3 GL_FLOAT GL_FALSE 24 12;
       glEnable GL_DEPTH_TEST] /\
    length (fst mesh) = (6 * 808)%nat /\
    length (snd mesh) = 3636%nat.
Proof.
  intros RNG sample rng gc gn world frames H run mesh. subst run.
  rewrite main_success_calls by exact H. cbv zeta. fold mesh.
  destruct (startup_succeeds_true world H)
    as (H1 & H2 & H3 & H4 & H5 & H6 & H7).
  rewrite initializeWindow_success, compileShaders_success by assumption.
  destruct (city_mesh_sizes RNG sample rng) as [Hv Hi]. cbv zeta in Hv, Hi.
  fold mesh in Hv, Hi.
  split; [|split; [exact Hv | exact Hi]].
  rewrite Hv, Hi. cbn [snd]. rewrite !filter_app.
  rewrite render_loop_filter_none
    by (intros c; destruct c; first [reflexivity | exact I]).
  match goal with
  | |- context [match ?o with None => [] | Some _ => ?l end] =>
      assert (L : filter is_upload (match o with None => [] | Some _ => l end)
                  = []) by (destruct o; reflexivity);
      rewrite L
  end.
  reflexivity.
Qed.

Lemma main_uploads_the_city_witness :
  length (fst (createBuildingBuffers (generateCity nat low_sample [] 100 0%nat)
                 [] [])) = (6 * 808)%nat.
Proof.
  exact (proj1 (proj2 (main_uploads_the_city nat low_sample 0%nat
                         (fun u _ => u) (fun u => u) all_well [idle_frame]
                         eq_refl))).
Defined.

(** X17.  Time does not move the camera.  Two runs of [main] whose frames
    have the same keys down and the same events, and differ only in what
    [glfwGetTime] returns, make the same calls with the same arguments, view
    matrices included, and end alike: a key moves the camera by a fixed
    step for each frame drawn, however long the frame took. *)
Theorem main_ignores_time :
  forall (RNG : Type) (sample : uniform_real_distribution -> RNG -> float * RNG)
         (rng : RNG) (glm_cross : vec3 -> vec3 -> vec3)
         (glm_normalize : vec3 -> vec3) (world : answers)
         (frames frames' : list frame),
    Forall2 same_events frames frames' ->
    main RNG sample rng glm_cross glm_normalize world frames =
    main RNG sample rng glm_cross glm_normalize world frames'.
Proof.
  intros RNG sample rng gc gn world frames frames' Hf.
  destruct (startup_succeeds world) eqn:H.
  - rewrite !main_success_calls by exact H. cbv zeta.
    match goal with
    | |- context [render_loop ?a ?b ?c ?d ?e ?f ?g ?h ?i ?j frames ?s] =>
        destruct (render_loop_same a b c d e f g h i j frames frames' s s Hf)
          as [E1 E2]; [repeat split|];
        set (loop := render_loop a b c d e f g h i j frames s) in *;
        set (loop' := render_loop a b c d e f g h i j frames' s) in *
    end.
    rewrite E1.
    destruct (fst loop) as [s1|], (fst loop') as [s2|]; try reflexivity.
    + destruct E2 as [_ E2]. discriminate (E2 eq_refl).
    + destruct E2 as [E2 _]. discriminate (E2 eq_refl).
  - rewrite !main_failure_calls by exact H. reflexivity.
Qed.

Lemma main_ignores_time_witness :
  main nat low_sample 0%nat (fun u _ => u) (fun u => u) all_well
    [idle_frame; escape_frame] =
  main nat low_sample 0%nat (fun u _ => u) (fun u => u) all_well
    [{| glfwGetTime_answer := F32.f5; pressed := fun _ => false;
        resized := []; close_requested := false |};
     {| glfwGetTime_answer := F32.f10; pressed := pressed escape_frame;
        resized := resized escape_frame; close_requested := false |}].
Proof.
  apply (main_ignores_time nat low_sample 0%nat (fun u _ => u) (fun u => u)
           all_well).
  repeat constructor.
Defined.


(** ** Resizing the window *)

Lemma filter_all_glViewport (sizes : list (Z * Z)) :
  filter is_glViewport
    (map (fun wh : Z * Z => glViewport 0 0 (fst wh) (snd wh)) sizes) =
  map (fun wh : Z * Z => glViewport 0 0 (fst wh) (snd wh)) sizes.
Proof.
  induction sizes as [|wh sizes IH]; [reflexivity|].
  cbn [map filter is_glViewport]. rewrite IH. reflexivity.
Qed.

Section ResizeFacts.

Variable glm_cross : vec3 -> vec3 -> vec3.
Variable glm_normalize : vec3 -> vec3.
Variable window shaderProgram VAO modelLoc viewLoc projectionLoc : Z.
Variable indices : list Z.
Variable cameraUp : vec3.

Local Abbreviation loop_of :=
  (render_loop glm_cross glm_normalize window shaderProgram VAO modelLoc
     viewLoc projectionLoc indices cameraUp).

(** The viewport is set once for each new size that arrives in a frame the
    loop runs, and at no other time. *)
Lemma render_loop_viewports (frames : list frame) (s : loop_state) :
  should_close s = false ->
  filter is_glViewport (snd (loop_of frames s)) =
  map (fun wh : Z * Z => glViewport 0 0 (fst wh) (snd wh))
      (flat_map resized (firstn (frames_run frames) frames)).
Proof.
  revert s. induction frames as [|f frames IH]; intros s Hs.
  - rewrite render_loop_end by exact Hs. reflexivity.
  - rewrite render_loop_step by exact Hs. cbn [fst snd].
    destruct (render_frame_calls glm_cross glm_normalize window shaderProgram
                VAO modelLoc viewLoc projectionLoc indices cameraUp f s)
      as [pos' E].
    rewrite E. clear E. cbn [fst snd frames_run].
    change (closes f) with (pressed f GLFW_KEY_ESCAPE || close_requested f).
    set (s' := {| cameraPos := pos' |}).
    assert (Hc : should_close s' =
                 pressed f GLFW_KEY_ESCAPE || close_requested f).
    { unfold s'. cbn [should_close]. rewrite Hs, orb_false_r. reflexivity. }
    cbn [filter is_glViewport]. rewrite !filter_app, filter_all_glViewport.
    assert (Hesc : filter is_glViewport
                     (if pressed f GLFW_KEY_ESCAPE
                      then [glfwSetWindowShouldClose window true] else []) = [])
      by (destruct (pressed f GLFW_KEY_ESCAPE); reflexivity).
    rewrite Hesc. cbn [filter is_glViewport app].
    destruct (pressed f GLFW_KEY_ESCAPE || close_requested f) eqn:Hcl.
    + rewrite render_loop_closing by exact Hc.
      cbn [snd filter is_glViewport firstn flat_map].
      rewrite !app_nil_r. reflexivity.
    + rewrite (IH s' Hc). cbn [firstn flat_map]. rewrite map_app. reflexivity.
Qed.

End ResizeFacts.

(** X19.  Resizing the window changes the viewport and nothing else.  When
    startup succeeds, [main] sets the viewport exactly once for each new
    framebuffer size that arrives in a frame the loop runs, through
    [framebufferSizeCallback] and to that size, and never otherwise; every
    projection matrix it sets keeps the aspect ratio 800 / 600, the field
    of view of 45 degrees and the planes 0.1 and 1000, whatever the size of
    the window has become. *)
Theorem resize_changes_viewport_only :
  forall (RNG : Type) (sample : uniform_real_distribution -> RNG -> float * RNG)
         (rng : RNG) (glm_cross : vec3 -> vec3 -> vec3)
         (glm_normalize : vec3 -> vec3) (world : answers)
         (frames : list frame),
    startup_succeeds world = true ->
    let run := main RNG sample rng glm_cross glm_normalize world frames in
    filter is_glViewport (snd run) =
      map (fun wh : Z * Z => glViewport 0 0 (fst wh) (snd wh))
          (flat_map resized (firstn (frames_run frames) frames)) /\
    Forall projects_800_by_600 (snd run).
Proof.
  intros RNG sample rng gc gn world frames H run. subst run.
  rewrite main_success_calls by exact H. cbv zeta.
  destruct (startup_succeeds_true world H)
    as (H1 & H2 & H3 & H4 & H5 & H6 & H7).
  rewrite initializeWindow_success, compileShaders_success by assumption.
  cbn [snd]. split.
  - rewrite !filter_app, render_loop_viewports by reflexivity.
    match goal with
    | |- context [match ?o with None => [] | Some _ => ?l end] =>
        assert (L : filter is_glViewport
                      (match o with None => [] | Some _ => l end) = [])
          by (destruct o; reflexivity);
        rewrite L
    end.
    cbn [filter is_glViewport app]. rewrite app_nil_r. reflexivity.
  - apply Forall_app. split; [repeat constructor|].
    apply Forall_app. split; [repeat constructor|].
    apply Forall_app. split; [repeat constructor|].
    apply Forall_app. split.
    + apply render_loop_Forall with (I := fun _ => True);
        [exact I | | exact I].
      intros f s _. split; [exact I|].
      match goal with
      | |- context [render_frame ?a ?b ?c ?d ?e ?f1 ?g ?h ?i ?j f s] =>
          destruct (render_frame_calls a b c d e f1 g h i j f s) as [pos' E]
      end.
      rewrite E. cbn [snd].
      apply Forall_app. split; [repeat constructor|].
      apply Forall_app. split;
        [destruct (pressed f GLFW_KEY_ESCAPE); repeat constructor|].
      apply Forall_app. split; [repeat constructor|].
      apply Forall_forall. intros c Hc. apply in_map_iff in Hc.
      destruct Hc as (wh & <- & _). exact I.
    + match goal with
      | |- context [match ?o with None => _ | Some _ => _ end] => destruct o
      end; repeat constructor.
Qed.

Lemma resize_changes_viewport_only_witness :
  filter is_glViewport
    (snd (main nat low_sample 0%nat (fun u _ => u) (fun u => u) all_well
            [idle_frame; escape_frame; escape_frame])) =
  [glViewport 0 0 1024 768].
Proof.
  exact (proj1 (resize_changes_viewport_only nat low_sample 0%nat
                  (fun u _ => u) (fun u => u) all_well
                  [idle_frame; escape_frame; escape_frame] eq_refl)).
Defined.
